(** * MeshNet simulation engine: a shallow embedding and its checked properties

    The development follows [meshnet-simulation/src/meshnet_model.py] (the
    per-day pipeline, its driver, the command-line entry point and the gain
    sweep) and [meshnet-simulation/src/multi_seed.py] (the ensemble runner
    and the rank-consistency harness), together with the adjustment count of
    [cadence_sweep.py], the governance metrics and population of
    [exponent_sweep.py] and the Monte Carlo of [wash_trading_mc.py] from the
    same directory.

    Conventions of the embedding.
    - Python [int] is [Z]; Python [float] is idealised as a real number [R]
      (no rounding error, no NaN); [int(x)] is truncation toward zero and
      [round(x, n)] rounds half to even on the n-th decimal.
    - Python's [max(a, b)] and [min(a, b)] are [Rmax]/[Rmin] (resp.
      [Z.max]/[Z.min]).
    - The NumPy generator is an interface ([Generator]); every function that
      draws from it takes the generator state and returns the new one, in the
      order in which the source draws.
    - Operators are dictionaries mutated in place inside a list; since the
      list is only ever traversed front to back and appended to, it is a
      [list Agent] rebuilt position by position. *)

From Stdlib Require Import String Ascii Reals ZArith QArith List Bool Lra Lia.
Import ListNotations.

#[local] Coercion IZR : Z >-> R.
#[local] Open Scope R_scope.

(** ** Python numerics *)

(** [int(x)] on a float: truncation toward zero. *)
Definition py_int (x : R) : Z :=
  if Rle_dec 0 x then Int_part x else (- Int_part (- x))%Z.

(** Nearest integer, ties to the even neighbour. *)
Definition round_half_even (x : R) : Z :=
  let f := Int_part x in
  let d := x - IZR f in
  if Rlt_dec d (1 / 2) then f
  else if Rlt_dec (1 / 2) d then (f + 1)%Z
  else if Z.even f then f else (f + 1)%Z.

(** [round(x, ndigits)]. *)
Definition py_round (x : R) (ndigits : nat) : R :=
  IZR (round_half_even (x * 10 ^ ndigits)) / 10 ^ ndigits.

(** [v if v is not None else d]. *)
Definition or_default {A : Type} (v : option A) (d : A) : A :=
  match v with Some x => x | None => d end.

(** ** Constants *)

Definition TOTAL_SUPPLY : Z := 1000000000.
Definition BASE_EMISSION : Z := 109589.
Definition PID_MIN : Z := 27397.
Definition PID_MAX : Z := 328767.
Definition N_TARGET : Z := 10000.
Definition PROTOCOL_FEE : R := 0.30.

Definition KP_NORM : R := 0.8.
Definition KI_NORM : R := 0.15.
Definition KD_NORM : R := 0.2.

Definition SLASH_DOWNTIME : R := 0.10.
Definition SLASH_FRAUD : R := 1.00.

Definition PID_CADENCE : Z := 14.
Definition TIMESTEPS : nat := 1825.

Definition OPPORTUNITY_COST : R := 5.0.
Definition EXIT_PROB_BASE : R := 0.008.
Definition EXIT_PROB_VETERAN : R := 0.003.
Definition ENTRY_CAP_ABS : Z := 30.

(** ** The random source

    [numpy.random.Generator] as the interface the model draws from.  The
    contracts kept are the documented ranges of [integers] (low inclusive,
    high exclusive) and of [choice] (an index into the candidates); the
    values drawn are otherwise arbitrary. *)

Class Generator (G : Type) := {
  default_rng : Z -> G;
  rng_normal : R -> R -> G -> R * G;
  rng_integers : Z -> Z -> G -> Z * G;
  rng_random : G -> R * G;
  rng_uniform : R -> R -> G -> R * G;
  rng_choice : list R -> G -> nat * G;
  rng_integers_range : forall lo hi g,
    (lo < hi)%Z -> (lo <= fst (rng_integers lo hi g) < hi)%Z;
  rng_choice_range : forall p g,
    (0 < length p)%nat -> (fst (rng_choice p g) < length p)%nat
}.

(** ** Emission controller *)

(** [pid_emission]: the first component is [None] when the controller does
    not evaluate on day [t]. *)
Definition pid_emission (N : Z) (integral_norm prev_error_norm : R) (t : Z)
    (kp ki kd : option R) : option R * R * R :=
  if negb (t mod PID_CADENCE =? 0)%Z then (None, integral_norm, prev_error_norm)
  else
    let _kp := or_default kp KP_NORM in
    let _ki := or_default ki KI_NORM in
    let _kd := or_default kd KD_NORM in
    let error_norm := IZR (N_TARGET - N) / N_TARGET in
    let integral_norm := integral_norm + error_norm in
    let integral_norm := Rmax (-5.0) (Rmin 5.0 integral_norm) in
    let derivative_norm := error_norm - prev_error_norm in
    let adjustment := BASE_EMISSION *
      (_kp * error_norm + _ki * integral_norm + _kd * derivative_norm) in
    let new_E := BASE_EMISSION + adjustment in
    let new_E := Rmax PID_MIN (Rmin PID_MAX new_E) in
    (Some new_E, integral_norm, error_norm).

Definition static_emission (t : Z) : R :=
  let year := IZR t / 365 in
  BASE_EMISSION * Rpower 0.95 year.

(** The driver's emission stage (PSUB 2): the triple (E, integral,
    prev_error) after day [t]. *)
Definition emission_stage (use_pid : bool) (N : Z) (E integral prev_error : R)
    (t : Z) (kp ki kd : option R) : R * R * R :=
  if use_pid then
    match pid_emission N integral prev_error t kp ki kd with
    | (Some new_E, i, e) => (new_E, i, e)
    | (None, _, _) => (E, integral, prev_error)
    end
  else (static_emission t, integral, prev_error).

(** ** Burn mechanism *)

Definition burn_tokens (F_daily P : R) : R :=
  let burn_usd := F_daily * PROTOCOL_FEE in
  burn_usd / Rmax P 0.001.

(** ** Scenario catalogue

    A scenario is a dictionary read with [.get]: keys that may be absent (or
    [None]) are options. *)

Inductive ShockType := demand_contraction | operator_poach | cost_increase.

Record Scenario := mkScenario {
  demand_growth_annual : R;
  price_drift : option R;
  shock_month : option Z;
  shock_type : option ShockType;
  poach_rate : option R;
  cost_multiplier : option R
}.

Definition bull : Scenario :=
  mkScenario 0.30 (Some 0.002) None None None None.
Definition bear : Scenario :=
  mkScenario (-0.15) (Some (-0.001)) (Some 12%Z) (Some demand_contraction)
             None None.
Definition competitor : Scenario :=
  mkScenario (-0.10) (Some (-0.001)) (Some 18%Z) (Some operator_poach)
             (Some 0.25) None.
Definition regulatory : Scenario :=
  mkScenario (-0.05) (Some (-0.001)) (Some 18%Z) (Some cost_increase)
             None (Some 1.30).

Definition shock_type_is (s : Scenario) (k : ShockType) : bool :=
  match shock_type s, k with
  | Some demand_contraction, demand_contraction => true
  | Some operator_poach, operator_poach => true
  | Some cost_increase, cost_increase => true
  | _, _ => false
  end.

(** [(scenario.get("shock_month") or 999) * 30]: [None] and [0] both fall
    through to 999. *)
Definition shock_day (s : Scenario) : Z :=
  (match shock_month s with
   | Some m => if (m =? 0)%Z then 999 else m
   | None => 999
   end * 30)%Z.

(** ** Operator population *)

Inductive OperatorType := high_commitment | casual | mercenary.

Record Agent := mkAgent {
  agent_id : Z;
  agent_type : OperatorType;
  exit_threshold : R;
  price_sensitivity : R;
  uptime : R;
  fraud_prob : R;
  stake : Z;
  reputation : R;
  active : bool;
  seasons_active : Z
}.

Definition set_uptime (a : Agent) (u : R) : Agent :=
  mkAgent (agent_id a) (agent_type a) (exit_threshold a) (price_sensitivity a)
          u (fraud_prob a) (stake a) (reputation a) (active a)
          (seasons_active a).
Definition set_stake (a : Agent) (s : Z) : Agent :=
  mkAgent (agent_id a) (agent_type a) (exit_threshold a) (price_sensitivity a)
          (uptime a) (fraud_prob a) s (reputation a) (active a)
          (seasons_active a).
Definition set_active (a : Agent) (b : bool) : Agent :=
  mkAgent (agent_id a) (agent_type a) (exit_threshold a) (price_sensitivity a)
          (uptime a) (fraud_prob a) (stake a) (reputation a) b
          (seasons_active a).
Definition set_reputation (a : Agent) (r : R) : Agent :=
  mkAgent (agent_id a) (agent_type a) (exit_threshold a) (price_sensitivity a)
          (uptime a) (fraud_prob a) (stake a) r (active a)
          (seasons_active a).
Definition set_seasons_active (a : Agent) (n : Z) : Agent :=
  mkAgent (agent_id a) (agent_type a) (exit_threshold a) (price_sensitivity a)
          (uptime a) (fraud_prob a) (stake a) (reputation a) (active a) n.

Record Whale := mkWhale {
  whale_id : string;
  tokens : Z;
  whale_reputation : R;
  selfish_prob : R
}.

(** [sum(1 for a in agents if a["active"])]. *)
Definition count_active (agents : list Agent) : Z :=
  Z.of_nat (List.length (filter active agents)).

(** One row of the [types] table of [create_operators]. *)
Definition Template : Type := (OperatorType * R * R * R * R)%type.

Definition operator_templates (n : Z) : list Template :=
  repeat (high_commitment, 0.3, 0.2, 0.995, 0.0) (Z.to_nat (py_int (n * 0.40)))
  ++ repeat (casual, 0.8, 0.6, 0.95, 0.0) (Z.to_nat (py_int (n * 0.30)))
  ++ repeat (mercenary, 1.2, 0.9, 0.85, 0.15) (Z.to_nat (py_int (n * 0.15)))
  ++ repeat (casual, 0.8, 0.6, 0.95, 0.0)
       (Z.to_nat (n - py_int (n * 0.40) - py_int (n * 0.30)
                    - py_int (n * 0.15))).

Section WithGenerator.
Context {G : Type} `{Generator G}.

(** The body of the [enumerate(types)] loop of [create_operators], from
    index [i] on. *)
Fixpoint create_from (i : Z) (types : list Template) (rng : G)
    : list Agent * G :=
  match types with
  | [] => ([], rng)
  | (atype, exit_t, price_s, uptime_base, fraud_p) :: rest =>
      let (d, rng) := rng_normal 0 0.01 rng in
      let (k, rng) := rng_integers 0 20000 rng in
      let a := mkAgent i atype exit_t price_s (Rmin 1.0 (uptime_base + d))
                       fraud_p (10000 + k) 0.0 true 0 in
      let (agents, rng) := create_from (i + 1) rest rng in
      (a :: agents, rng)
  end.

Definition create_operators (n : Z) (rng : G) : list Agent * G :=
  create_from 0 (operator_templates n) rng.

Definition whale_name (i : nat) : string :=
  ("whale_" ++ String (ascii_of_nat (48 + i)) EmptyString)%string.

Fixpoint create_whales_from (i k : nat) (rng : G) : list Whale * G :=
  match k with
  | O => ([], rng)
  | S k' =>
      let (r, rng) := rng_random rng in
      let w := mkWhale (whale_name i)
                       (py_int (TOTAL_SUPPLY * (0.02 + r * 0.03))) 0.0 0.3 in
      let (ws, rng) := create_whales_from (S i) k' rng in
      (w :: ws, rng)
  end.

(** Five whales, [whale_0] .. [whale_4]. *)
Definition create_whales (rng : G) : list Whale * G :=
  create_whales_from 0 5 rng.

(** ** Demand generator (PSUB 1) *)

Definition compute_demand (t N : Z) (P : R) (scenario : Scenario) (rng : G)
    (cost_mult : R) : R * G :=
  let annual_growth := demand_growth_annual scenario in
  let daily_growth := Rpower (1 + annual_growth) (1 / 365) - 1 in
  let coverage_ratio := IZR N / N_TARGET in
  let coverage_factor :=
    if Rlt_dec coverage_ratio 0.3 then coverage_ratio
    else if Rlt_dec coverage_ratio 0.8 then Rpower coverage_ratio 1.3
    else Rmin (Rpower coverage_ratio 1.5) 2.0 in
  let base_demand := 1000 * coverage_factor * powerRZ (1 + daily_growth) t in
  let sd := shock_day scenario in
  let base_demand :=
    if shock_type_is scenario demand_contraction && (sd <? t)%Z then
      base_demand * Rmax 0.3 (1 - 0.02 * (IZR (t - sd) / 30))
    else if shock_type_is scenario cost_increase && (sd <? t)%Z then
      base_demand * (1 / cost_mult)
    else if shock_type_is scenario operator_poach && (sd <? t)%Z then
      let months_since := IZR (t - sd) / 30 in
      let demand_loss := Rmin 0.30 (0.05 * months_since) in
      base_demand * (1 - demand_loss)
    else base_demand in
  let (z, rng) := rng_normal 0 0.05 rng in
  let noise := 1 + z in
  (Rmax 50 (base_demand * noise), rng).

(** ** Operator lifecycle update (PSUB 4+5) *)

(** The body of [for a in active] for one operator, threading the two
    accumulators ([slashed], [fraud_captured]) and the generator. *)
Definition operator_day (sd sf per_op_emission per_op_fee P op_cost : R)
    (a : Agent) (slashed : Z) (fraud_captured : R) (rng : G)
    : Agent * Z * R * G :=
  (* uptime jitter *)
  let (d, rng) := rng_normal 0 0.005 rng in
  let a := set_uptime a (Rmin 1.0 (Rmax 0.5 (uptime a + d))) in
  (* slashing: downtime *)
  let '(a, slashed) :=
    if Rlt_dec (uptime a) 0.90 then
      let slash_amount := py_int (stake a * sd) in
      (set_stake a (stake a - slash_amount), (slashed + slash_amount)%Z)
    else (a, slashed) in
  (* slashing: fraud, with proof-of-coverage; [and] short-circuits, so the
     generator is only consulted when [fraud_prob > 0] *)
  let '(a, slashed, fraud_captured, rng) :=
    if Rlt_dec 0 (fraud_prob a) then
      let (r, rng) := rng_random rng in
      if Rlt_dec r (fraud_prob a) then
        let (r2, rng) := rng_random rng in
        if Rlt_dec r2 0.97 then
          let slash_amount := py_int (stake a * sf) in
          (set_stake a (stake a - slash_amount), (slashed + slash_amount)%Z,
           fraud_captured, rng)
        else (a, slashed, fraud_captured + per_op_emission * 0.1, rng)
      else (a, slashed, fraud_captured, rng)
    else (a, slashed, fraud_captured, rng) in
  (* yield *)
  let per_op_yield_usd := (per_op_emission + per_op_fee) * P in
  let daily_yield := per_op_yield_usd - op_cost in
  (* exit decision *)
  let exit_prob :=
    if (2 <=? seasons_active a)%Z then EXIT_PROB_VETERAN else EXIT_PROB_BASE in
  let '(a, rng) :=
    if Rlt_dec daily_yield (exit_threshold a * OPPORTUNITY_COST) then
      let (r, rng) := rng_random rng in
      if Rlt_dec r exit_prob then (set_active a false, rng) else (a, rng)
    else (a, rng) in
  (* stake floor *)
  let a := if (stake a <=? 0)%Z then set_active a false else a in
  (a, slashed, fraud_captured, rng).

(** [for a in active: ...] over the shared list: operators inactive when the
    call begins are skipped and draw nothing. *)
Fixpoint operators_loop (sd sf per_op_emission per_op_fee P op_cost : R)
    (agents : list Agent) (slashed : Z) (fraud_captured : R) (rng : G)
    : list Agent * Z * R * G :=
  match agents with
  | [] => ([], slashed, fraud_captured, rng)
  | a :: rest =>
      let '(a', slashed, fraud_captured, rng) :=
        if active a
        then operator_day sd sf per_op_emission per_op_fee P op_cost
                          a slashed fraud_captured rng
        else (a, slashed, fraud_captured, rng) in
      let '(rest', slashed, fraud_captured, rng) :=
        operators_loop sd sf per_op_emission per_op_fee P op_cost
                       rest slashed fraud_captured rng in
      (a' :: rest', slashed, fraud_captured, rng)
  end.

(** Treasury yield stabilization (1E); [active_count] is the number of
    operators active when the call began. *)
Definition treasury_stabilization (per_op_emission per_op_fee P T : R)
    (active_count : Z) : R :=
  let per_op_yield_usd := (per_op_emission + per_op_fee) * P in
  if Rlt_dec per_op_yield_usd (0.5 * OPPORTUNITY_COST) then
    if Rlt_dec (TOTAL_SUPPLY * 0.02) T then
      let deficit_per_op := 0.5 * OPPORTUNITY_COST - per_op_yield_usd in
      let subsidy_tokens := deficit_per_op / Rmax P 0.001 in
      let total_subsidy := subsidy_tokens * active_count in
      if Rlt_dec total_subsidy (T * 0.01) then total_subsidy else 0
    else 0
  else 0.

Definition entry_factor (active_count : Z) : R :=
  if (N_TARGET <? active_count)%Z
  then Rmax 0.0 (1.0 - IZR (active_count - N_TARGET) / (N_TARGET * 0.2))
  else 1.0.

Definition base_new (active_count : Z) : Z :=
  Z.min (py_int (active_count * 0.03)) ENTRY_CAP_ABS.

Definition new_count (active_count : Z) : Z :=
  Z.max 0 (py_int (base_new active_count * entry_factor active_count)).

(** The dictionary appended for one entrant; the draws are in the order of
    the dictionary literal. *)
Definition new_entrant (next_id : Z) (rng : G) : Agent * G :=
  let (i, rng) := rng_choice [0.5; 0.35; 0.15] rng in
  let atype := nth i [high_commitment; casual; mercenary] mercenary in
  let (j, rng) := rng_choice [0.5; 0.35; 0.15] rng in
  let exit_t := nth j [0.3; 0.8; 1.2] 1.2 in
  let (price_s, rng) := rng_uniform 0.2 0.9 rng in
  let (d, rng) := rng_normal 0 0.02 rng in
  let (r, rng) := rng_random rng in
  let (k, rng) := rng_integers 0 20000 rng in
  (mkAgent next_id atype exit_t price_s (0.95 + d)
           (if Rlt_dec r 0.15 then 0.15 else 0.0)
           (10000 + k) 0.0 true 0, rng).

(** [for _ in range(k): agents.append({...})]. *)
Fixpoint append_entrants (k : nat) (agents : list Agent) (rng : G) : list Agent * G :=
  match k with
  | O => (agents, rng)
  | S k' =>
      let (a, rng) := new_entrant (Z.of_nat (List.length agents)) rng in
      append_entrants k' (agents ++ [a]) rng
  end.

Definition is_high_commitment (ty : OperatorType) : bool :=
  match ty with high_commitment => true | _ => false end.

(** The poach loop: the first [poach_n] active operators that are not
    high-commitment are deactivated. *)
Fixpoint poach (poach_n : Z) (agents : list Agent) (poached : Z)
    : list Agent :=
  match agents with
  | [] => []
  | a :: rest =>
      if active a && negb (is_high_commitment (agent_type a))
         && (poached <? poach_n)%Z
      then set_active a false :: poach poach_n rest (poached + 1)
      else a :: poach poach_n rest poached
  end.

(** [update_operators]; the parameter [N] is accepted and not read, as in
    the source.  Returns (agents, slashed, fraud_captured, treasury_subsidy)
    and the generator. *)
Definition update_operators (agents : list Agent) (E F_daily : R) (N : Z)
    (P : R) (scenario : Scenario) (t : Z) (rng : G) (T cost_mult : R)
    (slash_downtime slash_fraud : option R)
    : list Agent * Z * R * R * G :=
  let sd := or_default slash_downtime SLASH_DOWNTIME in
  let sf := or_default slash_fraud SLASH_FRAUD in
  let active_count := count_active agents in
  if (active_count =? 0)%Z then (agents, 0%Z, 0, 0, rng)
  else
    let per_op_emission := E / IZR (Z.max active_count 1) in
    let per_op_fee :=
      (F_daily * (1 - PROTOCOL_FEE)) / IZR (Z.max active_count 1) in
    let (z, rng) := rng_normal 0 0.5 rng in
    let op_cost := (3.0 + z) * cost_mult in
    let '(agents, slashed, fraud_captured, rng) :=
      operators_loop sd sf per_op_emission per_op_fee P op_cost
                     agents 0%Z 0 rng in
    let treasury_subsidy :=
      treasury_stabilization per_op_emission per_op_fee P T active_count in
    (* new entrants *)
    let active_count := count_active agents in
    let token_yield_usd := (per_op_emission + per_op_fee) * P in
    let (agents, rng) :=
      if Rlt_dec (2.0 * OPPORTUNITY_COST) token_yield_usd
      then append_entrants (Z.to_nat (new_count active_count)) agents rng
      else (agents, rng) in
    (* operator poach shock *)
    let agents :=
      if shock_type_is scenario operator_poach && (t =? shock_day scenario)%Z
      then
        let poach_n :=
          py_int (active_count * or_default (poach_rate scenario) 0.25) in
        poach poach_n agents 0
      else agents in
    (agents, slashed, fraud_captured, treasury_subsidy, rng).

(** The population, the two accumulators and the generator as
    [update_operators] has them on leaving the [for a in active] loop (the
    call is assumed past its early return). *)
Definition after_lifecycle_loop (agents : list Agent) (E F_daily P : R)
    (rng : G) (cost_mult : R) (slash_downtime slash_fraud : option R)
    : list Agent * Z * R * G :=
  let active_count := count_active agents in
  let per_op_emission := E / IZR (Z.max active_count 1) in
  let per_op_fee :=
    (F_daily * (1 - PROTOCOL_FEE)) / IZR (Z.max active_count 1) in
  let (z, rng) := rng_normal 0 0.5 rng in
  operators_loop (or_default slash_downtime SLASH_DOWNTIME)
                 (or_default slash_fraud SLASH_FRAUD)
                 per_op_emission per_op_fee P ((3.0 + z) * cost_mult)
                 agents 0%Z 0 rng.

(** ** Reputation updater (PSUB 6) *)

Definition reputation_season (a : Agent) : Agent :=
  let a := set_seasons_active a (seasons_active a + 1) in
  let a := if Rlt_dec 0.99 (uptime a)
           then set_reputation a (reputation a + 1.0) else a in
  let a := set_reputation a (reputation a * (1 - 0.15)) in
  set_reputation a (Rmin (reputation a) 5.0).

(** The median uptime the source computes here is never read and is left
    out. *)
Definition update_reputation (agents : list Agent) (t : Z) : list Agent :=
  if negb (t mod 90 =? 0)%Z || (t =? 0)%Z then agents
  else if (count_active agents =? 0)%Z then agents
  else map (fun a => if active a then reputation_season a else a) agents.

(** ** Price process (PSUB 7)

    [OU_KAPPA] and [OU_SIGMA] are read once, when the module is loaded, from
    the calibration file (defaults 2.8 and 0.049); they are parameters. *)
Context (OU_KAPPA OU_SIGMA : R).

Definition update_price (P F_daily C drift : R) (rng : G) : R * G :=
  let fundamental := (F_daily * 365) / Rmax C 1 * 1000 in
  let fundamental := Rmax 0.01 (Rmin 10.0 fundamental) in
  let (dW, rng) := rng_normal 0 1 rng in
  let log_P := ln (Rmax P 0.001) in
  let log_F := ln (Rmax fundamental 0.001) in
  let new_log_P :=
    log_P + OU_KAPPA / 365 * (log_F - log_P) + OU_SIGMA * dW + drift in
  (Rmax 0.001 (exp new_log_P), rng).

(** ** Simulation driver *)

(** One row of the output table (the dictionary appended to [records]). *)
Record SimulationRecord := mkRecord {
  rec_seed : Z;
  rec_run_id : string;
  rec_timestep : Z;
  rec_scenario : string;
  rec_emission_model : string;
  rec_N : Z;
  rec_E : R;
  rec_B : R;
  rec_F_daily : R;
  rec_P : R;
  rec_C : R;
  rec_T : R;
  rec_s2r : R;
  rec_bme : R;
  rec_slashed_total : Z;
  rec_fraud_captured_pct : R
}.

(** What the program writes to standard error: the yearly progress line of
    a run and the progress line of the Ki harness (the values they format). *)
Inductive LogLine :=
| YearLine (scenario model : string) (year N : Z) (P C : R)
| SweepLine (count total : nat) (ki : R) (seed : Z).

(** The local variables of [run_simulation] that live across iterations,
    the generator, and the standard-error stream of the process. *)
Record SimState := mkState {
  st_C : R;
  st_T : R;
  st_N : Z;
  st_F_daily : R;
  st_P : R;
  st_E : R;
  st_B : R;
  st_integral : R;
  st_prev_error : R;
  st_slashed_total : Z;
  st_fraud_total : R;
  st_cost_mult : R;
  st_agents : list Agent;
  st_whales : list Whale;
  st_rng : G;
  st_stderr : list LogLine
}.

Definition model_name (use_pid : bool) : string :=
  if use_pid then "pid"%string else "static"%string.

Definition model_label (use_pid : bool) : string :=
  if use_pid then "PID"%string else "static"%string.

Section Run.
Variables (scenario_name : string) (scenario : Scenario) (use_pid : bool)
          (seed : Z) (kp ki kd slash_downtime slash_fraud : option R).

(** The body of [for t in range(TIMESTEPS)]. *)
Definition day_step (st : SimState) (t : Z) : SimulationRecord * SimState :=
  (* cost shock *)
  let cost_mult :=
    if shock_type_is scenario cost_increase && (shock_day scenario <=? t)%Z
    then or_default (cost_multiplier scenario) 1.3
    else st_cost_mult st in
  (* PSUB 1: demand *)
  let (F_daily, rng) :=
    compute_demand t (st_N st) (st_P st) scenario (st_rng st) cost_mult in
  (* PSUB 2: emission *)
  let '(E, integral, prev_error) :=
    emission_stage use_pid (st_N st) (st_E st) (st_integral st)
                   (st_prev_error st) t kp ki kd in
  (* PSUB 3: burns *)
  let B := burn_tokens F_daily (st_P st) in
  (* PSUB 4+5: operators *)
  let '(agents, slashed, fraud, treas_subsidy, rng) :=
    update_operators (st_agents st) E F_daily (st_N st) (st_P st) scenario t
                     rng (st_T st) cost_mult slash_downtime slash_fraud in
  let slashed_total := (st_slashed_total st + slashed)%Z in
  let fraud_total := st_fraud_total st + fraud in
  (* PSUB 6: reputation *)
  let agents := update_reputation agents t in
  (* PSUB 7: price *)
  let (P, rng) :=
    update_price (st_P st) F_daily (st_C st)
                 (or_default (price_drift scenario) 0) rng in
  (* PSUB 8: supply accounting *)
  let C := st_C st + E - B - slashed in
  let C := Rmax 0 (Rmin TOTAL_SUPPLY C) in
  let T := st_T st + slashed - treas_subsidy in
  let T := Rmax 0 T in
  (* active node count *)
  let N := count_active agents in
  let N := Z.max 1 N in
  let bme := B / Rmax E 1 in
  (* progress logging *)
  let stderr :=
    if (t mod 365 =? 0)%Z
    then st_stderr st ++
         [YearLine scenario_name (model_label use_pid) (t / 365) N P C]
    else st_stderr st in
  (mkRecord seed
            (scenario_name ++ "_" ++ model_name use_pid)%string
            t scenario_name (model_name use_pid)
            N (py_round E 0) (py_round B 2) (py_round F_daily 2)
            (py_round P 6) (py_round C 0) (py_round T 0)
            (py_round bme 6) (py_round bme 6) slashed_total
            (py_round (fraud_total / Rmax (E * IZR (t + 1)) 1 * 100) 4),
   mkState C T N F_daily P E B integral prev_error slashed_total fraud_total
           cost_mult agents (st_whales st) rng stderr).

(** The loop over the days [ts], collecting the records in order. *)
Fixpoint sim_loop (ts : list Z) (st : SimState)
    : list SimulationRecord * SimState :=
  match ts with
  | [] => ([], st)
  | t :: ts' =>
      let (r, st) := day_step st t in
      let (rs, st) := sim_loop ts' st in
      (r :: rs, st)
  end.

(** [range(TIMESTEPS)]. *)
Definition days : list Z := map Z.of_nat (seq 0 TIMESTEPS).

(** The state on entry to the loop, given the process's standard error so
    far. *)
Definition initial_state (stderr : list LogLine) : SimState :=
  let rng := default_rng seed in
  let N := 2000%Z in
  let (agents, rng) := create_operators N rng in
  let (whales, rng) := create_whales rng in
  mkState 200000000 150000000 N 500.0 0.10 BASE_EMISSION 0.0 0.0 0.0 0%Z 0.0
          1.0 agents whales rng stderr.

(** [run_simulation]: the records, and what standard error holds after the
    run. *)
Definition run_simulation (stderr : list LogLine)
    : list SimulationRecord * list LogLine :=
  let (records, st) := sim_loop days (initial_state stderr) in
  (records, st_stderr st).

End Run.

(** ** Ki rank-consistency harness ([multi_seed.py]) *)

Definition N_SEEDS : nat := 30.
Definition BASE_SEED : Z := 1000.
Definition ki_values : list R := [0.05; 0.10; 0.15; 0.25; 0.35].

Inductive Verdict := STRUCTURAL | PATH_DEPENDENT.

(** [rank(axis=1, ascending=False)] with the default tie rule (average):
    the rank of [x] in its row is the number of larger entries plus the mean
    position of its tie group. *)
Definition rank_desc (row : list Z) (x : Z) : Q :=
  let gt := List.length (filter (fun y => (x <? y)%Z) row) in
  let eq := List.length (filter (fun y => (x =? y)%Z) row) in
  (2 * Z.of_nat gt + Z.of_nat eq + 1) # 2.

Definition rankings (pivot : list (list Z)) : list (list Q) :=
  map (fun row => map (rank_desc row) row) pivot.

Definition column (j : nat) (rows : list (list Q)) : list Q :=
  map (fun row => nth j row 0%Q) rows.

Definition count_eq (v : Q) (col : list Q) : nat :=
  List.length (filter (Qeq_bool v) col).

(** [mode().iloc[0]] of one column: the most frequent value, the smallest
    one when several are equally frequent. *)
Definition modal (col : list Q) : Q :=
  fold_left
    (fun best v =>
       if (count_eq best col <? count_eq v col)%nat then v
       else if (count_eq best col =? count_eq v col)%nat
               && negb (Qle_bool best v) then v
       else best)
    col (hd 0%Q col).

(** [(rankings == modal_rank).mean()] for one column. *)
Definition consistency (col : list Q) : Q :=
  Z.of_nat (count_eq (modal col) col) # Pos.of_nat (List.length col).

Definition Qmin (a b : Q) : Q := if Qle_bool a b then a else b.

(** The smallest per-column consistency, over the [width] columns. *)
Definition min_consistency (width : nat) (ranks : list (list Q)) : Q :=
  match map (fun j => consistency (column j ranks)) (seq 0 width) with
  | [] => 0%Q
  | c :: cs => fold_left Qmin cs c
  end.

(** ["STRUCTURAL" if min_consistency > 0.60 else "PATH-DEPENDENT"]. *)
Definition verdict_of (min_c : Q) : Verdict :=
  if negb (Qle_bool min_c (60 # 100)) then STRUCTURAL else PATH_DEPENDENT.

(** Lines 127-142 of the harness on the pivoted table (one row per seed,
    one column per Ki value). *)
Definition rank_consistency_verdict (pivot : list (list Z)) : Verdict :=
  verdict_of (min_consistency (List.length ki_values) (rankings pivot)).

(** [records[-1]["N"]]. *)
Definition final_N_of (records : list SimulationRecord) : Z :=
  match rev records with
  | r :: _ => rec_N r
  | [] => 0%Z
  end.

Definition ki_cases : list (R * Z) :=
  flat_map (fun ki => map (fun off => (ki, BASE_SEED + Z.of_nat off)%Z)
                          (seq 0 N_SEEDS)) ki_values.

(** The sweep: one PID run of the bear scenario per (Ki, seed). *)
Fixpoint ki_sweep (cases : list (R * Z)) (count : nat)
    (stderr : list LogLine) : list (R * Z * Z) * list LogLine :=
  match cases with
  | [] => ([], stderr)
  | (ki, seed) :: rest =>
      let count := S count in
      let stderr :=
        if (count mod 25 =? 0)%nat || (count =? 1)%nat
        then stderr ++ [SweepLine count (List.length ki_values * N_SEEDS)
                                  ki seed]
        else stderr in
      let (records, stderr) :=
        run_simulation "bear" bear true seed
                       (Some KP_NORM) (Some ki) (Some KD_NORM) None None
                       stderr in
      let (rows, stderr) := ki_sweep rest count stderr in
      ((ki, seed, final_N_of records) :: rows, stderr)
  end.

(** [df.pivot(index="seed", columns="ki", values="final_N")]. *)
Definition pivot (rows : list (R * Z * Z)) : list (list Z) :=
  map (fun off =>
         map (fun ki =>
                match find (fun row =>
                              (if Req_dec_T (fst (fst row)) ki
                               then true else false)
                              && (snd (fst row) =? BASE_SEED + Z.of_nat off)%Z)
                           rows with
                | Some row => snd row
                | None => 0%Z
                end) ki_values)
      (seq 0 N_SEEDS).

Definition ki_nonmonotonicity_test (stderr : list LogLine)
    : Verdict * list LogLine :=
  let (rows, stderr) := ki_sweep ki_cases 0 stderr in
  (rank_consistency_verdict (pivot rows), stderr).

End WithGenerator.

(** ** Batch drivers

    The callers of [run_simulation]: the core batch of [meshnet_model.py]
    and the seed ensemble of [multi_seed.py].  What they print to standard
    output is left out; standard error is threaded as before. *)

Definition SEED : Z := 42.

(** [SCENARIOS.items()], in insertion order. *)
Definition SCENARIOS : list (string * Scenario) :=
  [("bull"%string, bull); ("bear"%string, bear);
   ("competitor"%string, competitor); ("regulatory"%string, regulatory)].

(** [records[-1]], which raises on an empty list. *)
Definition final_record (records : list SimulationRecord)
    : option SimulationRecord :=
  nth_error records (List.length records - 1).

(** [max(...)] over floats, which raises on an empty sequence. *)
Definition max_of (xs : list R) : option R :=
  match xs with
  | [] => None
  | x :: rest => Some (fold_left Rmax rest x)
  end.

(** [sum(...)]. *)
Definition sum_of (xs : list R) : R := fold_left Rplus xs 0.

(** *** The adjustment count of [cadence_sweep.py] *)


(** *** Command line of the core batch *)





(** One row of [multi_seed_results.csv]. *)
Record EnsembleRow := mkEnsembleRow {
  ens_scenario : string;
  ens_emission_model : string;
  ens_seed : Z;
  ens_final_N : Z;
  ens_final_P : R;
  ens_final_C : R;
  ens_final_T : R;
  ens_bme_max : R;
  ens_total_emission : R;
  ens_total_burned : R;
  ens_slashed_total : Z
}.

(** Standard error of the ensemble: the lines of its runs and its own
    progress lines. *)
Inductive BatchLine :=
| RunLine (l : LogLine)
| EnsembleLine (run_count total_runs : nat) (sname model : string) (seed : Z).

(** The dictionary [final_record] of [run_ensemble]. *)
Definition ensemble_row (sname model : string) (seed : Z)
    (records : list SimulationRecord) : option EnsembleRow :=
  match final_record records with
  | None => None
  | Some final =>
      match max_of (map rec_bme records) with
      | None => None
      | Some bme_max =>
          Some (mkEnsembleRow sname model seed
                  (rec_N final) (rec_P final) (rec_C final) (rec_T final)
                  bme_max
                  (sum_of (map rec_E records))
                  (sum_of (map rec_B records))
                  (rec_slashed_total final))
      end
  end.

(** The three nested loops of [run_ensemble], flattened. *)
Definition ensemble_jobs : list (string * Scenario * bool * Z) :=
  flat_map
    (fun kv =>
       flat_map
         (fun use_pid =>
            map (fun off => (fst kv, snd kv, use_pid,
                             (BASE_SEED + Z.of_nat off)%Z))
                (seq 0 N_SEEDS))
         [true; false])
    SCENARIOS.

(** *** The gain sweep ([sensitivity_sweep]) *)

Definition kp_values : list R := [0.3; 0.5; 0.8; 1.2; 1.6].
Definition kd_values : list R := [0.05; 0.10; 0.20; 0.35; 0.50].

(** One row of [sensitivity_results.csv]. *)
Record SweepRow := mkSweepRow {
  sw_param : string;
  sw_value : R;
  sw_Ki : R;
  sw_Kd : R;
  sw_scenario : string;
  sw_final_N : Z;
  sw_dev_from_target : R;
  sw_mad : R;
  sw_max_N : Z;
  sw_min_N : Z;
  sw_final_P : R;
  sw_E_range : R
}.

(** [max(...)] and [min(...)], which raise on an empty sequence. *)
Definition max_Z (xs : list Z) : option Z :=
  match xs with
  | [] => None
  | x :: rest => Some (fold_left Z.max rest x)
  end.

Definition min_Z (xs : list Z) : option Z :=
  match xs with
  | [] => None
  | x :: rest => Some (fold_left Z.min rest x)
  end.

Definition min_of (xs : list R) : option R :=
  match xs with
  | [] => None
  | x :: rest => Some (fold_left Rmin rest x)
  end.

(** [np.mean([abs(n - N_TARGET) for n in n_series])]. *)
Definition mean_abs_deviation (n_series : list Z) : R :=
  IZR (fold_left Z.add (map (fun n => Z.abs (n - N_TARGET)) n_series) 0%Z)
  / INR (List.length n_series).

(** The dictionary appended to [results] for one run. *)
Definition sweep_row (param : string) (value ki kd : R) (sname : string)
    (records : list SimulationRecord) : option SweepRow :=
  match final_record records with
  | None => None
  | Some final =>
      let n_series := map rec_N records in
      match max_Z n_series, min_Z n_series,
            max_of (map rec_E records), min_of (map rec_E records) with
      | Some max_N, Some min_N, Some max_E, Some min_E =>
          Some (mkSweepRow param value ki kd sname
                  (rec_N final)
                  (IZR (Z.abs (rec_N final - N_TARGET)) / N_TARGET)
                  (mean_abs_deviation n_series)
                  max_N min_N (rec_P final) (max_E - min_E))
      | _, _, _, _ => None
      end
  end.

(** A run of the sweep: the swept parameter and its value, the three gains,
    the scenario and the seed. *)
Definition SweepJob : Type :=
  (string * R * (R * R * R) * string * Scenario * Z)%type.

(** [for v in values: for scenario_idx, (sname, scenario) in
    enumerate(SCENARIOS.items())], with [seed = SEED + scenario_idx]. *)
Definition sweep_jobs (param : string) (values : list R)
    (gains : R -> R * R * R) : list SweepJob :=
  flat_map
    (fun v =>
       map (fun ikv : nat * (string * Scenario) =>
              (param, v, gains v, fst (snd ikv), snd (snd ikv),
               (SEED + Z.of_nat (fst ikv))%Z))
           (combine (seq 0 (List.length SCENARIOS)) SCENARIOS))
    values.

(** The three sweeps in the order of the source. *)
Definition sensitivity_jobs : list SweepJob :=
  sweep_jobs "Kp" kp_values (fun kp => (kp, KI_NORM, KD_NORM))
  ++ sweep_jobs "Ki" ki_values (fun ki => (KP_NORM, ki, KD_NORM))
  ++ sweep_jobs "Kd" kd_values (fun kd => (KP_NORM, KI_NORM, kd)).

(** *** The governance exponent sweep ([exponent_sweep.py]) *)


(** The two calling conventions of [compute_governance_metrics]:
    [exponent=p] and [use_log=True]. *)
Inductive Formula := PowerFormula (exponent : R) | LogFormula.

(** [int(np.ceil(x))]. *)
Definition py_ceil (x : R) : Z := (- Int_part (- x))%Z.

(** The voting power [v] of one operator. *)
Definition voting_power (f : Formula) (a : Agent) : R :=
  let tau := IZR (stake a) in
  let R := reputation a in
  match f with
  | LogFormula => tau * (1 + ln (1 + R))
  | PowerFormula exponent => tau * Rpower (1 + R) exponent
  end.

(** [np.sort], ascending. *)
Fixpoint insert_sorted (x : R) (l : list R) : list R :=
  match l with
  | [] => [x]
  | y :: rest =>
      if Rle_dec x y then x :: l else y :: insert_sorted x rest
  end.

Definition np_sort (l : list R) : list R := fold_right insert_sorted [] l.

(** [np.cumsum]. *)
Fixpoint cumsum_from (acc : R) (l : list R) : list R :=
  match l with
  | [] => []
  | x :: rest => (acc + x) :: cumsum_from (acc + x) rest
  end.

Record GovernanceMetrics := mkMetrics {
  gm_gini : R;
  gm_hhi : R;
  gm_top1_pct_share : R;
  gm_top10_pct_share : R;
  gm_whale_20pct_power_share : R;
  gm_n_active : nat
}.

(** The power a holder of 20% of the supply with no reputation would
    have. *)
Definition whale_power (f : Formula) : R :=
  let whale_tokens := py_int (TOTAL_SUPPLY * 0.20) in
  match f with
  | LogFormula => whale_tokens * (1 + ln (1 + 0))
  | PowerFormula exponent => whale_tokens * Rpower (1 + 0) exponent
  end.

(** [compute_governance_metrics]; [None] stands for the empty dictionary
    it returns when nobody is active or the total power is zero. *)
Definition compute_governance_metrics (agents : list Agent) (f : Formula)
    : option GovernanceMetrics :=
  let active_agents := filter active agents in
  match active_agents with
  | [] => None
  | _ :: _ =>
      let powers := map (voting_power f) active_agents in
      let total_power := sum_of powers in
      if Req_dec_T total_power 0 then None
      else
        let shares := map (fun v => v / total_power) powers in
        let n := List.length shares in
        let sorted_shares := np_sort shares in
        let cumulative := cumsum_from 0 sorted_shares in
        let gini := 1 - 2 * sum_of cumulative / INR n + 1 / INR n in
        let hhi := sum_of (map (fun x => x ^ 2) shares) in
        let sorted_desc := rev (np_sort shares) in
        let top1_count := Z.max 1 (py_ceil (INR n * 0.01)) in
        let top10_count := Z.max 1 (py_ceil (INR n * 0.10)) in
        let top1_share := sum_of (firstn (Z.to_nat top1_count) sorted_desc) in
        let top10_share :=
          sum_of (firstn (Z.to_nat top10_count) sorted_desc) in
        let whale_share := whale_power f / (total_power + whale_power f) in
        Some (mkMetrics (py_round gini 4) (py_round hhi 6)
                        (py_round (top1_share * 100) 2)
                        (py_round (top10_share * 100) 2)
                        (py_round (whale_share * 100) 2) n)
  end.

Section Drivers.
Context {G : Type} `{Generator G}.
Context (OU_KAPPA OU_SIGMA : R).




(** The body of [run_ensemble] over the remaining jobs. *)
Fixpoint ensemble_loop (jobs : list (string * Scenario * bool * Z))
    (run_count : nat) (stderr : list BatchLine)
    : option (list EnsembleRow) * list BatchLine :=
  match jobs with
  | [] => (Some [], stderr)
  | (sname, scenario, use_pid, seed) :: rest =>
      let model := model_name use_pid in
      let run_count := S run_count in
      let stderr :=
        if (run_count mod 20 =? 0)%nat || (run_count =? 1)%nat
        then stderr ++ [EnsembleLine run_count
                          (List.length SCENARIOS * 2 * N_SEEDS)
                          sname model seed]
        else stderr in
      let (records, lines) :=
        run_simulation OU_KAPPA OU_SIGMA sname scenario use_pid seed
                       None None None None None [] in
      let stderr := stderr ++ map RunLine lines in
      match ensemble_row sname model seed records with
      | None => (None, stderr)
      | Some row =>
          let (rows, stderr) := ensemble_loop rest run_count stderr in
          (option_map (cons row) rows, stderr)
      end
  end.

(** [run_ensemble]: the rows of the table, or [None] if an exception is
    raised. *)
Definition run_ensemble (stderr : list BatchLine)
    : option (list EnsembleRow) * list BatchLine :=
  ensemble_loop ensemble_jobs 0 stderr.

(** The body of the three loops of [sensitivity_sweep]. *)
Fixpoint sweep_loop (jobs : list SweepJob) (stderr : list LogLine)
    : option (list SweepRow) * list LogLine :=
  match jobs with
  | [] => (Some [], stderr)
  | (param, value, (kp, ki, kd), sname, scenario, seed) :: rest =>
      let (records, stderr) :=
        run_simulation OU_KAPPA OU_SIGMA sname scenario true seed
                       (Some kp) (Some ki) (Some kd) None None stderr in
      match sweep_row param value ki kd sname records with
      | None => (None, stderr)
      | Some row =>
          let (rows, stderr) := sweep_loop rest stderr in
          (option_map (cons row) rows, stderr)
      end
  end.

(** [sensitivity_sweep]: the rows of the table, or [None] if an exception
    is raised. *)
Definition sensitivity_sweep (stderr : list LogLine)
    : option (list SweepRow) * list LogLine :=
  sweep_loop sensitivity_jobs stderr.

(** The local variables of the loop that [exponent_sweep.py] runs to obtain
    a population. *)
Record EsState := mkEsState {
  es_C : R;
  es_T : R;
  es_N : Z;
  es_F_daily : R;
  es_P : R;
  es_E : R;
  es_B : R;
  es_integral : R;
  es_prev_error : R;
  es_slashed_total : Z;
  es_cost_mult : R;
  es_agents : list Agent;
  es_whales : list Whale;
  es_rng : G
}.

(** The body of that loop (bull scenario, PID policy, default gains). *)
Definition es_day (st : EsState) (t : Z) : EsState :=
  let scenario := bull in
  let (F_daily, rng) :=
    compute_demand t (es_N st) (es_P st) scenario (es_rng st)
                   (es_cost_mult st) in
  let '(E, integral, prev_error) :=
    match pid_emission (es_N st) (es_integral st) (es_prev_error st) t
                       None None None with
    | (Some new_E, i, e) => (new_E, i, e)
    | (None, _, _) => (es_E st, es_integral st, es_prev_error st)
    end in
  let B := burn_tokens F_daily (es_P st) in
  let '(agents, slashed, fraud, treas_subsidy, rng) :=
    update_operators (es_agents st) E F_daily (es_N st) (es_P st) scenario t
                     rng (es_T st) (es_cost_mult st) None None in
  let slashed_total := (es_slashed_total st + slashed)%Z in
  let agents := update_reputation agents t in
  let (P, rng) :=
    update_price OU_KAPPA OU_SIGMA (es_P st) F_daily (es_C st)
                 (or_default (price_drift scenario) 0) rng in
  let C := Rmax 0 (Rmin TOTAL_SUPPLY (es_C st + E - B - slashed)) in
  let T := Rmax 0 (es_T st + slashed - treas_subsidy) in
  let N := Z.max 1 (count_active agents) in
  mkEsState C T N F_daily P E B integral prev_error slashed_total
            (es_cost_mult st) agents (es_whales st) rng.

(** The population the sweep analyses: the operators after the loop. *)
Definition es_population : list Agent :=
  let rng := default_rng SEED in
  let (agents, rng) := create_operators 2000 rng in
  let (whales, rng) := create_whales rng in
  es_agents
    (fold_left es_day days
       (mkEsState 200000000 150000000 2000 500.0 0.10 BASE_EMISSION 0.0
                  0.0 0.0 0%Z 1.0 agents whales rng)).


End Drivers.

(** ** Wash-trading Monte Carlo ([wash_trading_mc.py]) *)

Definition N_RUNS : nat := 100.
Definition N_NODES : nat := 1000.
Definition DAYS : nat := 365.
Definition DAILY_EMISSION : Z := 109589.
Definition CATCH_RATE : R := 0.97.
Definition SLASH_FRACTION : R := 0.50.
Definition MERCENARY_FRACTION : R := 0.15.
Definition INITIAL_STAKE : Z := 20000.

(** The two array operations of the NumPy generator that this script uses
    on top of the scalar ones: [shuffle] on a boolean array (a permutation:
    the length and the number of [True] entries are kept) and
    [uniform(lo, hi, n)]. *)
Class ArrayGenerator (G : Type) := {
  rng_shuffle : list bool -> G -> list bool * G;
  rng_uniform_n : R -> R -> nat -> G -> list R * G;
  rng_shuffle_length : forall l g,
    List.length (fst (rng_shuffle l g)) = List.length l;
  rng_shuffle_count : forall l g,
    List.length (filter (fun b => b) (fst (rng_shuffle l g)))
    = List.length (filter (fun b => b) l);
  rng_uniform_n_length : forall lo hi n g,
    List.length (fst (rng_uniform_n lo hi n g)) = n
}.

(** Entry [i] of the four parallel arrays [stakes], [is_merc], [active] and
    [fraud_probs]. *)
Record Node := mkNode {
  node_stake : R;
  node_is_merc : bool;
  node_active : bool;
  node_fraud_prob : R
}.

(** The four running totals of a simulation. *)
Record WashTotals := mkTotals {
  total_emission : R;
  total_fraud_emission : R;
  total_slashed : R;
  honest_earnings : R
}.

(** The dictionary [run_wash_trading_sim] returns. *)
Record WashResult := mkWashResult {
  fraud_rate_pct : R;
  wr_total_slashed : R;
  honest_yield_impact_pct : R;
  surviving_mercs : nat;
  surviving_honest : nat;
  total_active_final : nat
}.

Section WashTrading.
Context {G : Type} `{Generator G} `{ArrayGenerator G}.

(** The body of [for i in range(N_NODES)] for one node. *)
Definition node_claim (with_poc : bool) (per_op_emission : R) (nd : Node)
    (acc : WashTotals) (rng : G) : Node * WashTotals * G :=
  if negb (node_active nd) then (nd, acc, rng)
  else
    (* [is_merc[i] and rng.random() < fraud_probs[i]] *)
    let (fraud, rng) :=
      if node_is_merc nd then
        let (r, rng) := rng_random rng in
        (if Rlt_dec r (node_fraud_prob nd) then true else false, rng)
      else (false, rng) in
    if fraud then
      (* [with_poc and rng.random() < CATCH_RATE] *)
      let (caught, rng) :=
        if with_poc then
          let (r, rng) := rng_random rng in
          (if Rlt_dec r CATCH_RATE then true else false, rng)
        else (false, rng) in
      if caught then
        let slash_amount := node_stake nd * SLASH_FRACTION in
        let stake := node_stake nd - slash_amount in
        (mkNode stake (node_is_merc nd)
                (if Rle_dec stake 0 then false else node_active nd)
                (node_fraud_prob nd),
         mkTotals (total_emission acc) (total_fraud_emission acc)
                  (total_slashed acc + slash_amount) (honest_earnings acc),
         rng)
      else
        (nd,
         mkTotals (total_emission acc + per_op_emission)
                  (total_fraud_emission acc + per_op_emission)
                  (total_slashed acc) (honest_earnings acc),
         rng)
    else
      (nd,
       mkTotals (total_emission acc + per_op_emission)
                (total_fraud_emission acc)
                (total_slashed acc)
                (if node_is_merc nd then honest_earnings acc
                 else honest_earnings acc + per_op_emission),
       rng).

(** [for i in range(N_NODES)]. *)
Fixpoint claims_loop (with_poc : bool) (per_op_emission : R)
    (nodes : list Node) (acc : WashTotals) (rng : G)
    : list Node * WashTotals * G :=
  match nodes with
  | [] => ([], acc, rng)
  | nd :: rest =>
      let '(nd', acc, rng) := node_claim with_poc per_op_emission nd acc rng in
      let '(rest', acc, rng) :=
        claims_loop with_poc per_op_emission rest acc rng in
      (nd' :: rest', acc, rng)
  end.

(** [for day in range(DAYS)], with its [break] when nobody is active. *)
Fixpoint days_loop (with_poc : bool) (days_left : nat) (nodes : list Node)
    (acc : WashTotals) (rng : G) : list Node * WashTotals * G :=
  match days_left with
  | O => (nodes, acc, rng)
  | S days_left =>
      let n_active := List.length (filter node_active nodes) in
      if (n_active =? 0)%nat then (nodes, acc, rng)
      else
        let per_op_emission := DAILY_EMISSION / INR n_active in
        let '(nodes, acc, rng) :=
          claims_loop with_poc per_op_emission nodes acc rng in
        days_loop with_poc days_left nodes acc rng
  end.

(** The arrays as initialised, before the first day. *)
Definition initial_nodes (rng : G) : list Node * G :=
  let n_mercs := Z.to_nat (py_int (INR N_NODES * MERCENARY_FRACTION)) in
  let is_merc := repeat true n_mercs ++ repeat false (N_NODES - n_mercs) in
  let (is_merc, rng) := rng_shuffle is_merc rng in
  let (u, rng) := rng_uniform_n 0.1 0.3 N_NODES rng in
  (map (fun mu : bool * R =>
          mkNode INITIAL_STAKE (fst mu) true
                 (if fst mu then snd mu else 0.0))
       (combine is_merc u),
   rng).

Definition run_wash_trading_sim (seed : Z) (with_poc : bool) : WashResult :=
  let rng := default_rng seed in
  let n_mercs := Z.to_nat (py_int (INR N_NODES * MERCENARY_FRACTION)) in
  let n_honest := (N_NODES - n_mercs)%nat in
  let (nodes, rng) := initial_nodes rng in
  let '(nodes, acc, rng) :=
    days_loop with_poc DAYS nodes (mkTotals 0 0 0 0) rng in
  let total_emission := Rmax (total_emission acc) 1 in
  let fraud_rate := total_fraud_emission acc / total_emission in
  let surviving_mercs :=
    List.length
      (filter (fun nd => node_is_merc nd && node_active nd) nodes) in
  let surviving_honest :=
    List.length
      (filter (fun nd => negb (node_is_merc nd) && node_active nd) nodes) in
  let expected_honest :=
    DAILY_EMISSION * INR DAYS * (INR n_honest / INR N_NODES) in
  let yield_impact :=
    (honest_earnings acc - expected_honest) / Rmax expected_honest 1 in
  mkWashResult (py_round (fraud_rate * 100) 4)
               (py_round (total_slashed acc) 0)
               (py_round (yield_impact * 100) 2)
               surviving_mercs surviving_honest
               (List.length (filter node_active nodes)).

End WashTrading.

(** The array operations of a generator that leaves arrays in place and
    draws every uniform at the fraction [u] of the interval. *)
Definition fixed_arrays (u : R) : ArrayGenerator nat := {|
  rng_shuffle := fun l g => (l, S g);
  rng_uniform_n := fun lo hi n g => (repeat (lo + (hi - lo) * u) n, S g);
  rng_shuffle_length := fun l g => eq_refl;
  rng_shuffle_count := fun l g => eq_refl;
  rng_uniform_n_length := fun lo hi n g => repeat_length _ n
|}.

(** ** A concrete random source

    A generator whose every standard-normal draw is [z] and whose every
    uniform draw on [0, 1) is [u]; the state counts the draws.  It shows the
    interface is inhabited and serves to run the model on concrete inputs. *)
Definition fixed_generator (z u : R) : Generator nat := {|
  default_rng := fun _ => O;
  rng_normal := fun mu sigma g => (mu + sigma * z, S g);
  rng_integers := fun lo _ g => (lo, S g);
  rng_random := fun g => (u, S g);
  rng_uniform := fun lo hi g => (lo + (hi - lo) * u, S g);
  rng_choice := fun _ g => (O, S g);
  rng_integers_range := fun lo hi g (Hlt : (lo < hi)%Z) =>
    conj (Z.le_refl lo) Hlt;
  rng_choice_range := fun p g (Hp : (0 < List.length p)%nat) => Hp
|}.

(** A casual operator with a 15000-token stake, used to run the model on
    concrete inputs. *)
Definition sample_operator : Agent :=
  mkAgent 0 casual 0.8 0.6 0.95 0.0 15000 0.0 true 0.

(** ** Vocabulary of the invariants *)

(** The bounds of the global economic state. *)
Definition state_ok {G : Type} (st : SimState (G := G)) : Prop :=
  0 <= st_C st <= TOTAL_SUPPLY /\ 0 <= st_T st /\ (1 <= st_N st)%Z /\
  0.001 <= st_P st /\ PID_MIN <= st_E st <= PID_MAX.

(** The same bounds on a recorded row. *)
Definition record_ok (r : SimulationRecord) : Prop :=
  0 <= rec_C r <= TOTAL_SUPPLY /\ 0 <= rec_T r /\ (1 <= rec_N r)%Z /\
  0 < rec_P r /\ PID_MIN <= rec_E r <= PID_MAX.

(** Two driver states that agree on everything the pipeline reads: all
    fields but the whales and the standard-error stream. *)
Definition same_core {G : Type} (s1 s2 : SimState (G := G)) : Prop :=
  st_C s1 = st_C s2 /\ st_T s1 = st_T s2 /\ st_N s1 = st_N s2 /\
  st_F_daily s1 = st_F_daily s2 /\ st_P s1 = st_P s2 /\ st_E s1 = st_E s2 /\
  st_B s1 = st_B s2 /\ st_integral s1 = st_integral s2 /\
  st_prev_error s1 = st_prev_error s2 /\
  st_slashed_total s1 = st_slashed_total s2 /\
  st_fraud_total s1 = st_fraud_total s2 /\
  st_cost_mult s1 = st_cost_mult s2 /\ st_agents s1 = st_agents s2 /\
  st_rng s1 = st_rng s2.

(** The driver state with another list of whales. *)
Definition with_whales {G : Type} (st : SimState (G := G)) (ws : list Whale)
    : SimState (G := G) :=
  mkState (st_C st) (st_T st) (st_N st) (st_F_daily st) (st_P st) (st_E st)
          (st_B st) (st_integral st) (st_prev_error st) (st_slashed_total st)
          (st_fraud_total st) (st_cost_mult st) (st_agents st) ws (st_rng st)
          (st_stderr st).


(** ** Vocabulary for the population *)

Definition type_eqb (x y : OperatorType) : bool :=
  match x, y with
  | high_commitment, high_commitment => true
  | casual, casual => true
  | mercenary, mercenary => true
  | _, _ => false
  end.

(** How many operators of the list have the given archetype. *)
Definition count_type (ty : OperatorType) (agents : list Agent) : nat :=
  List.length (filter (fun a => type_eqb (agent_type a) ty) agents).

(** The tokens staked by the operators of the list. *)
Definition sum_stake (agents : list Agent) : Z :=
  fold_right (fun a s => (stake a + s)%Z) 0%Z agents.

(** Every operator's id is its position in the list. *)
Definition ids_are_positions (agents : list Agent) : Prop :=
  forall i a, nth_error agents i = Some a -> agent_id a = Z.of_nat i.

(** The operators the poach shock may take: active and not
    high-commitment. *)
Definition poachable (a : Agent) : bool :=
  active a && negb (is_high_commitment (agent_type a)).

(** The scenario with its shock removed, everything else as it was. *)
Definition without_shock (s : Scenario) : Scenario :=
  mkScenario (demand_growth_annual s) (price_drift s) (shock_month s) None
             (poach_rate s) (cost_multiplier s).

(** The parameters an operator is created with. *)
Definition same_traits (a a' : Agent) : Prop :=
  agent_id a' = agent_id a /\ agent_type a' = agent_type a /\
  exit_threshold a' = exit_threshold a /\
  price_sensitivity a' = price_sensitivity a /\
  fraud_prob a' = fraud_prob a.

(** What a yearly progress line says about the run: scenario, policy label
    and year. *)
Definition year_line_key (l : LogLine) : option (string * string * Z) :=
  match l with
  | YearLine scenario model year _ _ _ => Some (scenario, model, year)
  | SweepLine _ _ _ _ => None
  end.

(** Two rows of the gain sweep that report the same outcome. *)
Definition same_outcome (a b : SweepRow) : Prop :=
  sw_scenario a = sw_scenario b /\ sw_final_N a = sw_final_N b /\
  sw_dev_from_target a = sw_dev_from_target b /\ sw_mad a = sw_mad b /\
  sw_max_N a = sw_max_N b /\ sw_min_N a = sw_min_N b /\
  sw_final_P a = sw_final_P b /\ sw_E_range a = sw_E_range b.

(** The loop state of the exponent sweep and a driver state that hold the
    same values. *)
Definition es_matches {G : Type} (e : EsState (G := G))
    (st : SimState (G := G)) : Prop :=
  es_C e = st_C st /\ es_T e = st_T st /\ es_N e = st_N st /\
  es_F_daily e = st_F_daily st /\ es_P e = st_P st /\ es_E e = st_E st /\
  es_B e = st_B st /\ es_integral e = st_integral st /\
  es_prev_error e = st_prev_error st /\
  es_slashed_total e = st_slashed_total st /\
  es_cost_mult e = st_cost_mult st /\ es_agents e = st_agents st /\
  es_whales e = st_whales st /\ es_rng e = st_rng st.

(** The arrays of the wash-trading simulation in good order: every node
    active with a stake in (0, 20000], honest nodes at exactly 20000. *)
Definition node_ok (nd : Node) : Prop :=
  node_active nd = true /\ 0 < node_stake nd <= 20000 /\
  (node_is_merc nd = false -> node_stake nd = 20000).

(** The stake the nodes have lost since initialisation. *)
Definition stake_deficit (nodes : list Node) : R :=
  fold_right (fun nd s => (20000 - node_stake nd) + s) 0 nodes.

(** The number of honest nodes. *)
Definition count_honest_nodes (nodes : list Node) : nat :=
  List.length (filter (fun nd => negb (node_is_merc nd)) nodes).

(** What [create_from] builds from one row of the table. *)
Definition built_from (tpl : Template) (a : Agent) : Prop :=
  agent_type a = fst (fst (fst (fst tpl))) /\
  exit_threshold a = snd (fst (fst (fst tpl))) /\
  price_sensitivity a = snd (fst (fst tpl)) /\
  uptime a <= 1 /\
  fraud_prob a = snd tpl /\
  (10000 <= stake a < 30000)%Z /\
  reputation a = 0 /\ active a = true /\ seasons_active a = 0%Z.

(** * Properties *)

(** ** Facts about the numeric helpers *)

Lemma Int_part_bounds (x : R) : IZR (Int_part x) <= x < IZR (Int_part x) + 1.
Proof.
  destruct (base_Int_part x) as [Hlo Hhi]. split; lra.
Qed.

Lemma Int_part_unique (x : R) (z : Z) :
  IZR z <= x < IZR z + 1 -> Int_part x = z.
Proof.
  intros [Hlo Hhi]. symmetry. apply Int_part_spec. lra.
Qed.

Lemma Int_part_ge (x : R) (z : Z) : IZR z <= x -> (z <= Int_part x)%Z.
Proof.
  intros Hz. destruct (Int_part_bounds x) as [_ Hhi].
  assert (Hlt : IZR z < IZR (Int_part x + 1)) by (rewrite plus_IZR; lra).
  apply lt_IZR in Hlt. lia.
Qed.

Lemma Int_part_le (x : R) (z : Z) : x <= IZR z -> (Int_part x <= z)%Z.
Proof.
  intros Hz. destruct (Int_part_bounds x) as [Hlo _].
  apply le_IZR. lra.
Qed.

(** On a non-negative rational [p/q], [int] is integer division. *)
Lemma py_int_ratio (p q : Z) :
  (0 <= p)%Z -> (0 < q)%Z -> py_int (IZR p / IZR q) = (p / q)%Z.
Proof.
  intros Hp Hq.
  assert (HqR : 0 < IZR q) by (apply IZR_lt; lia).
  assert (Hdiv : (q * (p / q) <= p < q * (p / q) + q)%Z).
  { pose proof (Z.mul_div_le p q Hq).
    pose proof (Z.mul_succ_div_gt p q Hq). lia. }
  destruct Hdiv as [Hd1 Hd2].
  apply IZR_le in Hd1. apply IZR_lt in Hd2.
  rewrite mult_IZR in Hd1. rewrite plus_IZR, mult_IZR in Hd2.
  assert (Hlo : IZR (p / q) <= IZR p / IZR q).
  { apply Rmult_le_reg_r with (IZR q); [lra|].
    unfold Rdiv. rewrite Rmult_assoc, Rinv_l by lra. lra. }
  assert (Hhi : IZR p / IZR q < IZR (p / q) + 1).
  { apply Rmult_lt_reg_r with (IZR q); [lra|].
    unfold Rdiv. rewrite Rmult_assoc, Rinv_l by lra. lra. }
  unfold py_int. destruct (Rle_dec 0 (IZR p / IZR q)) as [_|Hneg].
  - apply Int_part_unique. split; assumption.
  - exfalso. apply Hneg.
    assert (0 <= IZR (p / q)) by (apply IZR_le, Z.div_pos; lia). lra.
Qed.

Lemma py_int_nonneg (x : R) : 0 <= x -> (0 <= py_int x)%Z.
Proof.
  intros Hx. unfold py_int. destruct (Rle_dec 0 x) as [_|Hn]; [|contradiction].
  apply (Int_part_ge x 0). exact Hx.
Qed.

(** [int] never moves its argument away from zero. *)
Lemma py_int_le (x : R) (z : Z) : x <= IZR z -> (0 <= z)%Z -> (py_int x <= z)%Z.
Proof.
  intros Hx Hz. unfold py_int. destruct (Rle_dec 0 x) as [Hpos|Hneg].
  - apply Int_part_le. exact Hx.
  - assert (H0 : (0 <= Int_part (- x))%Z) by (apply (Int_part_ge (- x) 0); lra).
    lia.
Qed.

Lemma round_half_even_ge (x : R) (a : Z) :
  IZR a <= x -> (a <= round_half_even x)%Z.
Proof.
  intros Ha. pose proof (Int_part_ge x a Ha) as Hf.
  unfold round_half_even.
  destruct (Rlt_dec (x - IZR (Int_part x)) (1 / 2)); [lia|].
  destruct (Rlt_dec (1 / 2) (x - IZR (Int_part x))); [lia|].
  destruct (Z.even (Int_part x)); lia.
Qed.

Lemma round_half_even_le (x : R) (b : Z) :
  x <= IZR b -> (round_half_even x <= b)%Z.
Proof.
  intros Hb. pose proof (Int_part_le x b Hb) as Hf.
  destruct (Int_part_bounds x) as [Hlo Hhi].
  assert (Hstep : 1 / 2 <= x - IZR (Int_part x) -> (Int_part x + 1 <= b)%Z).
  { intros Hd. assert (Hlt : IZR (Int_part x) < IZR b) by lra.
    apply lt_IZR in Hlt. lia. }
  unfold round_half_even.
  destruct (Rlt_dec (x - IZR (Int_part x)) (1 / 2)) as [|Hn1]; [lia|].
  assert (Hd : 1 / 2 <= x - IZR (Int_part x)) by lra.
  specialize (Hstep Hd).
  destruct (Rlt_dec (1 / 2) (x - IZR (Int_part x))); [lia|].
  destruct (Z.even (Int_part x)); lia.
Qed.

Lemma py_round_0 (x : R) : py_round x 0 = IZR (round_half_even x).
Proof.
  unfold py_round. simpl. replace (x * 1) with x by lra. lra.
Qed.

Lemma py_round_0_bounds (x : R) (a b : Z) :
  IZR a <= x <= IZR b -> IZR a <= py_round x 0 <= IZR b.
Proof.
  intros [Ha Hb]. rewrite py_round_0. split; apply IZR_le.
  - apply round_half_even_ge; assumption.
  - apply round_half_even_le; assumption.
Qed.

Lemma py_round_0_lower (x : R) (a : Z) : IZR a <= x -> IZR a <= py_round x 0.
Proof.
  intros Ha. rewrite py_round_0. apply IZR_le, round_half_even_ge, Ha.
Qed.

Lemma py_round_6_pos (x : R) : 0.001 <= x -> 0 < py_round x 6.
Proof.
  intros Hx. unfold py_round.
  assert (Hpow : 10 ^ 6 = 1000000) by (simpl; lra).
  rewrite Hpow.
  assert (Hr : (1000 <= round_half_even (x * 1000000))%Z).
  { apply round_half_even_ge. lra. }
  apply IZR_le in Hr. apply Rdiv_lt_0_compat; lra.
Qed.

Section Properties.
Context {G : Type} `{Generator G}.
Variables OU_KAPPA OU_SIGMA : R.

(** ** The emission controller *)

(** C3.  The PID controller only evaluates on cadence days.  When
    [t mod 14 <> 0] it reports no update and the driver keeps the emission
    rate, the integral accumulator and the previous error as they were.  When
    [t mod 14 = 0] the error is [(10000 - N) / 10000], the integral is
    [integral + error] clamped to [-5, 5], the derivative is
    [error - prev_error], and the rate is
    [109589 + 109589 * (Kp * error + Ki * integral + Kd * derivative)]
    clamped to [27397, 328767].  With [N = 20000], [Kp = 0.8] and integral and
    derivative terms that contribute nothing, the rate is exactly 27397. *)
Theorem pid_emission_cadence (N : Z) (E integral prev_error : R) (t : Z)
    (kp ki kd : option R) :
  let Kp := or_default kp 0.8 in
  let Ki := or_default ki 0.15 in
  let Kd := or_default kd 0.2 in
  let error := IZR (10000 - N) / 10000 in
  let integral' := Rmax (-5) (Rmin 5 (integral + error)) in
  let derivative := error - prev_error in
  let rate := Rmax 27397 (Rmin 328767
      (109589 + 109589 * (Kp * error + Ki * integral' + Kd * derivative))) in
  ((t mod 14 <> 0)%Z ->
     pid_emission N integral prev_error t kp ki kd
       = (None, integral, prev_error) /\
     emission_stage true N E integral prev_error t kp ki kd
       = (E, integral, prev_error)) /\
  ((t mod 14 = 0)%Z ->
     pid_emission N integral prev_error t kp ki kd
       = (Some rate, integral', error) /\
     emission_stage true N E integral prev_error t kp ki kd
       = (rate, integral', error)) /\
  ((t mod 14 = 0)%Z -> N = 20000%Z -> Kp = 0.8 ->
     Ki * integral' + Kd * derivative = 0 -> rate = 27397).
Proof.
  intros Kp Ki Kd error integral' derivative rate.
  assert (Hnoop : (t mod 14 <> 0)%Z ->
            pid_emission N integral prev_error t kp ki kd
              = (None, integral, prev_error)).
  { intros Ht. unfold pid_emission, PID_CADENCE.
    apply Z.eqb_neq in Ht. rewrite Ht. reflexivity. }
  assert (Heval : (t mod 14 = 0)%Z ->
            pid_emission N integral prev_error t kp ki kd
              = (Some rate, integral', error)).
  { intros Ht. unfold pid_emission, PID_CADENCE.
    apply Z.eqb_eq in Ht. rewrite Ht. cbn [negb].
    unfold rate, integral', derivative, error, Kp, Ki, Kd,
      KP_NORM, KI_NORM, KD_NORM, BASE_EMISSION, PID_MIN, PID_MAX, N_TARGET.
    replace (-5.0) with (-5) by lra. replace 5.0 with 5 by lra.
    reflexivity. }
  repeat split.
  - auto.
  - unfold emission_stage. rewrite (Hnoop H0). reflexivity.
  - auto.
  - unfold emission_stage. rewrite (Heval H0). reflexivity.
  - intros _ HN HKp Hzero. unfold rate.
    replace (Kp * error + Ki * integral' + Kd * derivative)
      with (Kp * error) by lra.
    rewrite HKp. unfold error. rewrite HN.
    rewrite minus_IZR.
    unfold Rmax, Rmin. repeat destruct Rle_dec; lra.
Qed.

(** ** The operator lifecycle update, stage by stage *)

Lemma update_operators_idle agents E F_daily N P scenario t (rng : G) T
    cost_mult slash_downtime slash_fraud :
  count_active agents = 0%Z ->
  update_operators agents E F_daily N P scenario t rng T cost_mult
                   slash_downtime slash_fraud
    = (agents, 0%Z, 0, 0, rng).
Proof.
  intros H0. unfold update_operators. rewrite H0. reflexivity.
Qed.

Lemma update_operators_stages agents E F_daily N P scenario t (rng : G) T
    cost_mult slash_downtime slash_fraud :
  count_active agents <> 0%Z ->
  forall looped slashed fraud g1,
  after_lifecycle_loop agents E F_daily P rng cost_mult
                       slash_downtime slash_fraud
    = (looped, slashed, fraud, g1) ->
  let n0 := count_active agents in
  let per_op_emission := E / IZR (Z.max n0 1) in
  let per_op_fee := (F_daily * (1 - PROTOCOL_FEE)) / IZR (Z.max n0 1) in
  let ac := count_active looped in
  let entered :=
    if Rlt_dec (2.0 * OPPORTUNITY_COST) ((per_op_emission + per_op_fee) * P)
    then append_entrants (Z.to_nat (new_count ac)) looped g1
    else (looped, g1) in
  update_operators agents E F_daily N P scenario t rng T cost_mult
                   slash_downtime slash_fraud
    = (if shock_type_is scenario operator_poach && (t =? shock_day scenario)%Z
       then poach (py_int (ac * or_default (poach_rate scenario) 0.25))
                  (fst entered) 0
       else fst entered,
       slashed, fraud,
       treasury_stabilization per_op_emission per_op_fee P T n0,
       snd entered).
Proof.
  intros Hn0 looped slashed fraud g1 Hloop. cbv zeta.
  unfold update_operators, after_lifecycle_loop in *.
  apply Z.eqb_neq in Hn0. rewrite Hn0.
  destruct (rng_normal 0 0.5 rng) as [z g0].
  rewrite Hloop.
  destruct (Rlt_dec _ _).
  - destruct (append_entrants _ looped g1) as [entered g2]. reflexivity.
  - reflexivity.
Qed.

(** One operator's day: what can and cannot change. *)

Lemma slash_keeps_stake (s : Z) (penalty : R) :
  (0 <= s)%Z -> penalty <= 1 -> (0 <= s - py_int (IZR s * penalty))%Z.
Proof.
  intros Hs Hp. assert (Hs' : 0 <= IZR s) by (apply IZR_le; lia).
  assert (Hle : (py_int (IZR s * penalty) <= s)%Z).
  { apply py_int_le; [nra | lia]. }
  lia.
Qed.

Ltac split_operator_day :=
  repeat match goal with
  | |- context [rng_normal ?m ?s ?g] => destruct (rng_normal m s g)
  | |- context [rng_random ?g] => destruct (rng_random g)
  | |- context [Rlt_dec ?x ?y] => destruct (Rlt_dec x y)
  | |- context [(?x <=? 0)%Z] => destruct (x <=? 0)%Z eqn:?
  end; cbn.

Lemma operator_day_frame sd sf poe pof P cost (a : Agent) sl fr (g : G) :
  let a' := fst (fst (fst (operator_day sd sf poe pof P cost a sl fr g))) in
  agent_id a' = agent_id a /\ agent_type a' = agent_type a /\
  exit_threshold a' = exit_threshold a /\
  price_sensitivity a' = price_sensitivity a /\
  fraud_prob a' = fraud_prob a /\ reputation a' = reputation a /\
  seasons_active a' = seasons_active a /\
  (active a = false -> active a' = false).
Proof.
  unfold operator_day. cbn. split_operator_day; repeat split; auto.
Qed.

Lemma operator_day_uptime sd sf poe pof P cost (a : Agent) sl fr (g : G) :
  let a' := fst (fst (fst (operator_day sd sf poe pof P cost a sl fr g))) in
  0.5 <= uptime a' <= 1.0.
Proof.
  unfold operator_day. cbn.
  destruct (rng_normal 0 0.005 g) as [d g1].
  assert (Hband : 0.5 <= Rmin 1.0 (Rmax 0.5 (uptime a + d)) <= 1.0).
  { unfold Rmin, Rmax. repeat destruct Rle_dec; lra. }
  cbn. split_operator_day; exact Hband.
Qed.

Lemma operator_day_stake sd sf poe pof P cost (a : Agent) sl fr (g : G) :
  sd <= 1 -> sf <= 1 -> (0 <= stake a)%Z ->
  (0 <= stake (fst (fst (fst (operator_day sd sf poe pof P cost a sl fr g)))))%Z.
Proof.
  intros Hsd Hsf Hst. unfold operator_day. cbn.
  pose proof (slash_keeps_stake (stake a) sd Hst Hsd) as H1.
  pose proof (slash_keeps_stake (stake a) sf Hst Hsf) as H2.
  pose proof (slash_keeps_stake _ sf H1 Hsf) as H3.
  split_operator_day; assumption.
Qed.

(** The loop visits every position once: an operator inactive on entry is
    left as it is, an operator active on entry is replaced by the outcome of
    its [operator_day]. *)
Lemma operators_loop_nth sd sf poe pof P cost (agents : list Agent) :
  forall sl fr (g : G) i a,
  nth_error agents i = Some a ->
  exists a',
    nth_error
      (fst (fst (fst (operators_loop sd sf poe pof P cost agents sl fr g)))) i
      = Some a' /\
    (active a = false -> a' = a) /\
    (active a = true -> exists sl0 fr0 g0,
       a' = fst (fst (fst (operator_day sd sf poe pof P cost a sl0 fr0 g0)))).
Proof.
  induction agents as [|b rest IH]; intros sl fr g i a Hnth.
  - destruct i; discriminate.
  - cbn [operators_loop].
    destruct (active b) eqn:Hb.
    + destruct (operator_day sd sf poe pof P cost b sl fr g)
        as [[[b' sl1] fr1] g1] eqn:Hday.
      specialize (IH sl1 fr1 g1).
      destruct (operators_loop sd sf poe pof P cost rest sl1 fr1 g1)
        as [[[rest' sl2] fr2] g2].
      destruct i as [|i]; cbn in *.
      * injection Hnth as <-. exists b'. split; [reflexivity|]. split.
        -- congruence.
        -- intros _. exists sl, fr, g. rewrite Hday. reflexivity.
      * exact (IH i a Hnth).
    + specialize (IH sl fr g).
      destruct (operators_loop sd sf poe pof P cost rest sl fr g)
        as [[[rest' sl2] fr2] g2].
      destruct i as [|i]; cbn in *.
      * injection Hnth as <-. exists b. split; [reflexivity|]. split.
        -- reflexivity.
        -- congruence.
      * exact (IH i a Hnth).
Qed.

Lemma operators_loop_length sd sf poe pof P cost (agents : list Agent) :
  forall sl fr (g : G),
  List.length
    (fst (fst (fst (operators_loop sd sf poe pof P cost agents sl fr g))))
    = List.length agents.
Proof.
  induction agents as [|b rest IH]; intros sl fr g; [reflexivity|].
  cbn [operators_loop].
  destruct (if active b then _ else _) as [[[b' sl1] fr1] g1].
  specialize (IH sl1 fr1 g1).
  destruct (operators_loop sd sf poe pof P cost rest sl1 fr1 g1)
    as [[[rest' sl2] fr2] g2].
  cbn in *. congruence.
Qed.

(** Entrants are appended behind the existing population, each one built by
    [new_entrant]. *)
Lemma append_entrants_app (k : nat) :
  forall (agents : list Agent) (g : G),
  exists ext,
    fst (append_entrants k agents g) = agents ++ ext /\
    List.length ext = k /\
    Forall (fun e => exists next_id g0, e = fst (new_entrant next_id g0)) ext.
Proof.
  induction k as [|k IH]; intros agents g.
  - exists []. cbn. rewrite app_nil_r. auto.
  - cbn [append_entrants].
    destruct (new_entrant (Z.of_nat (List.length agents)) g) as [e g1] eqn:He.
    destruct (IH (agents ++ [e]) g1) as [ext [Happ [Hlen Hall]]].
    exists (e :: ext). rewrite Happ, <- app_assoc. cbn.
    split; [reflexivity|]. split; [congruence|].
    constructor; [|exact Hall].
    exists (Z.of_nat (List.length agents)), g. rewrite He. reflexivity.
Qed.

Lemma poach_nth (poach_n : Z) (agents : list Agent) :
  forall poached i a,
  nth_error agents i = Some a ->
  exists a',
    nth_error (poach poach_n agents poached) i = Some a' /\
    (a' = a \/ (active a = true /\ a' = set_active a false)).
Proof.
  induction agents as [|b rest IH]; intros poached i a Hnth.
  - destruct i; discriminate.
  - cbn [poach].
    destruct (active b && negb (is_high_commitment (agent_type b))
              && (poached <? poach_n)%Z) eqn:Hc.
    + destruct i as [|i]; cbn in *.
      * injection Hnth as <-. exists (set_active b false). split; [auto|].
        right. apply andb_prop in Hc. destruct Hc as [Hc _].
        apply andb_prop in Hc. destruct Hc as [Hc _]. auto.
      * apply IH. exact Hnth.
    + destruct i as [|i]; cbn in *.
      * injection Hnth as <-. exists b. auto.
      * apply IH. exact Hnth.
Qed.

Lemma poach_length (poach_n : Z) (agents : list Agent) :
  forall poached,
  List.length (poach poach_n agents poached) = List.length agents.
Proof.
  induction agents as [|b rest IH]; intros poached; [reflexivity|].
  cbn [poach]. destruct (_ && _); cbn; rewrite IH; reflexivity.
Qed.

Lemma update_reputation_nth (agents : list Agent) (t : Z) i a :
  nth_error agents i = Some a ->
  exists a',
    nth_error (update_reputation agents t) i = Some a' /\
    (a' = a \/ (active a = true /\ a' = reputation_season a)).
Proof.
  intros Hnth. unfold update_reputation.
  destruct (negb (t mod 90 =? 0)%Z || (t =? 0)%Z); [exists a; auto|].
  destruct (count_active agents =? 0)%Z; [exists a; auto|].
  rewrite nth_error_map, Hnth. cbn.
  destruct (active a) eqn:Ha; eexists; split; eauto.
Qed.

Lemma update_reputation_length (agents : list Agent) (t : Z) :
  List.length (update_reputation agents t) = List.length agents.
Proof.
  unfold update_reputation.
  destruct (_ || _); [reflexivity|].
  destruct (_ =? _)%Z; [reflexivity|]. apply length_map.
Qed.

(** What [update_operators] does to an operator that was in the list on
    entry: at most one [operator_day] (if it was active), then at most a
    deactivation by the poach shock. *)
Lemma update_operators_nth agents E F_daily N P scenario t (rng : G) T
    cost_mult slash_downtime slash_fraud i a :
  nth_error agents i = Some a ->
  exists a1 a',
    nth_error (fst (fst (fst (fst
      (update_operators agents E F_daily N P scenario t rng T cost_mult
                        slash_downtime slash_fraud))))) i = Some a' /\
    (active a = false -> a1 = a) /\
    (active a = true -> count_active agents <> 0%Z /\
       exists poe pof cost sl fr g,
       a1 = fst (fst (fst (operator_day
              (or_default slash_downtime SLASH_DOWNTIME)
              (or_default slash_fraud SLASH_FRAUD)
              poe pof P cost a sl fr g)))) /\
    (a' = a1 \/ (active a1 = true /\ a' = set_active a1 false)).
Proof.
  intros Hnth.
  destruct (Z.eq_dec (count_active agents) 0) as [H0|Hn0].
  - rewrite update_operators_idle by exact H0. cbn [fst].
    exists a, a. split; [exact Hnth|]. split; [reflexivity|].
    split; [|left; reflexivity].
    intros Ha. exfalso.
    assert (Hin : In a (filter active agents)).
    { apply filter_In. split; [eapply nth_error_In; eauto | exact Ha]. }
    unfold count_active in H0.
    destruct (filter active agents); [contradiction | discriminate].
  - destruct (after_lifecycle_loop agents E F_daily P rng cost_mult
                slash_downtime slash_fraud) as [[[looped sl] fr] g1] eqn:Hloop.
    rewrite (update_operators_stages agents E F_daily N P scenario t rng T
               cost_mult slash_downtime slash_fraud Hn0 _ _ _ _ Hloop).
    cbn [fst].
    unfold after_lifecycle_loop in Hloop.
    destruct (rng_normal 0 0.5 rng) as [z g0].
    match type of Hloop with
    | operators_loop ?sd ?sf ?poe ?pof ?P ?cost ?l ?s0 ?f0 ?g = _ =>
        destruct (operators_loop_nth sd sf poe pof P cost l s0 f0 g i a Hnth)
          as [a1 [Hn1 [Hoff Hon]]]
    end.
    rewrite Hloop in Hn1. cbn [fst] in Hn1.
    assert (Hent : exists entered,
      nth_error entered i = Some a1 /\
      entered = fst (if Rlt_dec (2.0 * OPPORTUNITY_COST)
               ((E / IZR (Z.max (count_active agents) 1) +
                 F_daily * (1 - PROTOCOL_FEE)
                   / IZR (Z.max (count_active agents) 1)) * P)
            then append_entrants (Z.to_nat (new_count (count_active looped)))
                                 looped g1
            else (looped, g1))).
    { eexists. split; [|reflexivity].
      destruct (Rlt_dec _ _); [|exact Hn1].
      destruct (append_entrants_app (Z.to_nat (new_count (count_active looped)))
                  looped g1) as [ext [Happ _]].
      rewrite Happ. rewrite nth_error_app1; [exact Hn1|].
      apply nth_error_Some. congruence. }
    destruct Hent as [entered [Hn2 Heq]]. rewrite <- Heq.
    destruct (shock_type_is scenario operator_poach
              && (t =? shock_day scenario)%Z).
    + destruct (poach_nth
                  (py_int (count_active looped
                           * or_default (poach_rate scenario) 0.25))
                  entered 0 i a1 Hn2) as [a' [Hn3 Hrel]].
      exists a1, a'. split; [exact Hn3|]. split; [exact Hoff|].
      split; [|exact Hrel].
      intros Ha. split; [exact Hn0|].
      destruct (Hon Ha) as [s0 [f0 [g2 Heq1]]]. eauto 10.
    + exists a1, a1. split; [exact Hn2|]. split; [exact Hoff|].
      split; [|left; reflexivity].
      intros Ha. split; [exact Hn0|].
      destruct (Hon Ha) as [s0 [f0 [g2 Heq1]]]. eauto 10.
Qed.

(** The list after the call: the entry population, position by position,
    followed by the day's entrants. *)
Lemma update_operators_shape agents E F_daily N P scenario t (rng : G) T
    cost_mult slash_downtime slash_fraud :
  let agents' := fst (fst (fst (fst
      (update_operators agents E F_daily N P scenario t rng T cost_mult
                        slash_downtime slash_fraud)))) in
  let n0 := count_active agents in
  let looped := fst (fst (fst
      (after_lifecycle_loop agents E F_daily P rng cost_mult
                            slash_downtime slash_fraud))) in
  let token_yield_usd :=
    (E / IZR (Z.max n0 1) + F_daily * (1 - PROTOCOL_FEE) / IZR (Z.max n0 1))
    * P in
  exists ext,
    List.length agents' = (List.length agents + List.length ext)%nat /\
    List.length ext =
      (if (n0 =? 0)%Z then O
       else if Rlt_dec (2.0 * OPPORTUNITY_COST) token_yield_usd
            then Z.to_nat (new_count (count_active looped)) else O) /\
    Forall (fun e => exists next_id g0, e = fst (new_entrant next_id g0)) ext /\
    forall i e, nth_error ext i = Some e ->
      exists e', nth_error agents' (List.length agents + i) = Some e' /\
                 (e' = e \/ e' = set_active e false).
Proof.
  cbv zeta.
  destruct (Z.eq_dec (count_active agents) 0) as [H0|Hn0].
  - rewrite update_operators_idle by exact H0. cbn [fst].
    exists []. rewrite H0. cbn. rewrite Nat.add_0_r.
    repeat split; auto. intros i e Hi. destruct i; discriminate.
  - destruct (after_lifecycle_loop agents E F_daily P rng cost_mult
                slash_downtime slash_fraud) as [[[looped sl] fr] g1] eqn:Hloop.
    rewrite (update_operators_stages agents E F_daily N P scenario t rng T
               cost_mult slash_downtime slash_fraud Hn0 _ _ _ _ Hloop).
    cbn [fst].
    assert (Hlen : List.length looped = List.length agents).
    { unfold after_lifecycle_loop in Hloop.
      destruct (rng_normal 0 0.5 rng) as [z g0].
      match type of Hloop with
      | operators_loop ?sd ?sf ?poe ?pof ?P ?cost ?l ?s0 ?f0 ?g = _ =>
          pose proof (operators_loop_length sd sf poe pof P cost l s0 f0 g)
            as Hl
      end.
      rewrite Hloop in Hl. exact Hl. }
    apply Z.eqb_neq in Hn0. rewrite Hn0.
    assert (Hent : exists ext,
      fst (if Rlt_dec (2.0 * OPPORTUNITY_COST)
               ((E / IZR (Z.max (count_active agents) 1) +
                 F_daily * (1 - PROTOCOL_FEE)
                   / IZR (Z.max (count_active agents) 1)) * P)
            then append_entrants (Z.to_nat (new_count (count_active looped)))
                                 looped g1
            else (looped, g1)) = looped ++ ext /\
      List.length ext =
        (if Rlt_dec (2.0 * OPPORTUNITY_COST)
               ((E / IZR (Z.max (count_active agents) 1) +
                 F_daily * (1 - PROTOCOL_FEE)
                   / IZR (Z.max (count_active agents) 1)) * P)
         then Z.to_nat (new_count (count_active looped)) else O) /\
      Forall (fun e => exists next_id g0, e = fst (new_entrant next_id g0))
             ext).
    { destruct (Rlt_dec _ _).
      - apply append_entrants_app.
      - exists []. cbn. rewrite app_nil_r. auto. }
    destruct Hent as [ext [Happ [Hk Hall]]]. rewrite Happ.
    exists ext. split; [|split; [exact Hk | split; [exact Hall|]]].
    + destruct (_ && _); rewrite ?poach_length, length_app; congruence.
    + intros i e Hi.
      assert (Hn : nth_error (looped ++ ext) (List.length agents + i)
                   = Some e).
      { rewrite <- Hlen, nth_error_app2 by lia.
        replace (List.length looped + i - List.length looped)%nat with i
          by lia.
        exact Hi. }
      destruct (_ && _).
      * destruct (poach_nth
                    (py_int (count_active looped
                             * or_default (poach_rate scenario) 0.25))
                    _ 0 _ _ Hn) as [e' [Hn' Hrel]].
        exists e'. split; [exact Hn'|]. tauto.
      * exists e. auto.
Qed.

Lemma new_entrant_uptime (next_id : Z) (g : G) :
  exists g0, uptime (fst (new_entrant next_id g))
             = 0.95 + fst (rng_normal 0 0.02 g0).
Proof.
  unfold new_entrant.
  destruct (rng_choice [0.5; 0.35; 0.15] g) as [i g1].
  destruct (rng_choice [0.5; 0.35; 0.15] g1) as [j g2].
  destruct (rng_uniform 0.2 0.9 g2) as [ps g3].
  exists g3.
  destruct (rng_normal 0 0.02 g3) as [d g4].
  destruct (rng_random g4) as [r g5].
  destruct (rng_integers 0 20000 g5) as [k g6].
  reflexivity.
Qed.

Lemma new_entrant_stake (next_id : Z) (g : G) :
  (10000 <= stake (fst (new_entrant next_id g)) < 30000)%Z.
Proof.
  unfold new_entrant.
  destruct (rng_choice [0.5; 0.35; 0.15] g) as [i g1].
  destruct (rng_choice [0.5; 0.35; 0.15] g1) as [j g2].
  destruct (rng_uniform 0.2 0.9 g2) as [ps g3].
  destruct (rng_normal 0 0.02 g3) as [d g4].
  destruct (rng_random g4) as [r g5].
  pose proof (rng_integers_range 0 20000 g5 eq_refl) as Hk.
  destruct (rng_integers 0 20000 g5) as [k g6].
  cbn [fst stake] in *. lia.
Qed.

(** ** Entry of new operators *)

Lemma py_int_IZR (z : Z) : (0 <= z)%Z -> py_int (IZR z) = z.
Proof.
  intros Hz. replace (IZR z) with (IZR z / IZR 1) by (unfold Rdiv; lra).
  rewrite py_int_ratio by lia. apply Z.div_1_r.
Qed.

Lemma py_int_three_percent (ac : Z) :
  (0 <= ac)%Z -> py_int (IZR ac * 0.03) = (3 * ac / 100)%Z.
Proof.
  intros Hac.
  replace (IZR ac * 0.03) with (IZR (3 * ac) / IZR 100)
    by (rewrite mult_IZR; lra).
  apply py_int_ratio; lia.
Qed.

Lemma count_active_nonneg (agents : list Agent) : (0 <= count_active agents)%Z.
Proof. unfold count_active. lia. Qed.





(** ** Uptime band *)

Lemma update_reputation_uptime (agents : list Agent) (t : Z) :
  map uptime (update_reputation agents t) = map uptime agents.
Proof.
  unfold update_reputation.
  destruct (_ || _); [reflexivity|].
  destruct (_ =? _)%Z; [reflexivity|].
  rewrite map_map. apply map_ext. intros a.
  destruct (active a); [|reflexivity].
  unfold reputation_season. cbn. destruct (Rlt_dec _ _); reflexivity.
Qed.

(** C10.  After a call to the lifecycle update, every operator that was
    active when the call began has its uptime in [0.5, 1.0].  Every operator
    the call appended carries [0.95 + d], with [d] the raw normal draw: no
    clamp is applied (with a draw three standard deviations up, the entrant's
    uptime is 1.01).  The reputation update of the same day does not touch
    uptimes, so an entrant is first clamped by the next call, to which the
    first statement applies. *)
Theorem uptime_band agents E F_daily N P scenario t (rng : G) T
    cost_mult slash_downtime slash_fraud :
  let agents' := fst (fst (fst (fst
      (update_operators agents E F_daily N P scenario t rng T cost_mult
                        slash_downtime slash_fraud)))) in
  (forall i a, nth_error agents i = Some a -> active a = true ->
     exists a', nth_error agents' i = Some a' /\ 0.5 <= uptime a' <= 1.0) /\
  (forall i e, (List.length agents <= i)%nat -> nth_error agents' i = Some e ->
     exists g0, uptime e = 0.95 + fst (rng_normal 0 0.02 g0)) /\
  (forall t', map uptime (update_reputation agents' t') = map uptime agents') /\
  uptime (fst (@new_entrant nat (fixed_generator 3 0.99) 0 O)) = 1.01.
Proof.
  intros agents'. split; [|split; [|split]].
  - intros i a Hnth Ha.
    destruct (update_operators_nth agents E F_daily N P scenario t rng T
                cost_mult slash_downtime slash_fraud i a Hnth)
      as [a1 [a' [Hn' [_ [Hon Hrel]]]]].
    exists a'. split; [exact Hn'|].
    destruct (Hon Ha) as [_ [poe [pof [cost [sl [fr [g Heq]]]]]]].
    pose proof (operator_day_uptime
                  (or_default slash_downtime SLASH_DOWNTIME)
                  (or_default slash_fraud SLASH_FRAUD)
                  poe pof P cost a sl fr g) as Hband.
    cbv zeta in Hband. rewrite <- Heq in Hband.
    destruct Hrel as [-> | [_ ->]]; exact Hband.
  - intros i e Hi Hnth.
    destruct (update_operators_shape agents E F_daily N P scenario t rng T
                cost_mult slash_downtime slash_fraud)
      as [ext [Hlen [_ [Hall Htail]]]].
    fold agents' in Hlen, Htail.
    assert (Hlt : (i < List.length agents')%nat)
      by (apply nth_error_Some; congruence).
    destruct (nth_error ext (i - List.length agents)) as [e0|] eqn:He0.
    2:{ apply nth_error_None in He0. lia. }
    destruct (Htail _ _ He0) as [e' [Hn' Hrel]].
    replace (List.length agents + (i - List.length agents))%nat with i
      in Hn' by lia.
    assert (e' = e) by congruence. subst e'.
    rewrite Forall_forall in Hall.
    destruct (Hall e0 (nth_error_In _ _ He0)) as [next_id [g0 ->]].
    destruct (new_entrant_uptime next_id g0) as [g1 Hu].
    exists g1. destruct Hrel as [-> | ->]; exact Hu.
  - intros t'. apply update_reputation_uptime.
  - cbn. lra.
Qed.

(** ** Treasury stabilisation *)

Lemma count_active_repeat (a : Agent) (n : nat) :
  active a = true -> count_active (repeat a n) = Z.of_nat n.
Proof.
  intros Ha. unfold count_active. f_equal.
  induction n as [|n IH]; [reflexivity|].
  cbn. rewrite Ha. cbn. rewrite IH. reflexivity.
Qed.

Lemma update_operators_subsidy agents E F_daily N P scenario t (rng : G) T
    cost_mult slash_downtime slash_fraud :
  let n0 := count_active agents in
  snd (fst (update_operators agents E F_daily N P scenario t rng T cost_mult
                             slash_downtime slash_fraud))
    = if (n0 =? 0)%Z then 0
      else treasury_stabilization (E / IZR (Z.max n0 1))
             (F_daily * (1 - PROTOCOL_FEE) / IZR (Z.max n0 1)) P T n0.
Proof.
  cbv zeta. destruct (Z.eq_dec (count_active agents) 0) as [H0|Hn0].
  - rewrite update_operators_idle by exact H0. rewrite H0. reflexivity.
  - destruct (after_lifecycle_loop agents E F_daily P rng cost_mult
                slash_downtime slash_fraud) as [[[looped sl] fr] g1] eqn:Hloop.
    rewrite (update_operators_stages agents E F_daily N P scenario t rng T
               cost_mult slash_downtime slash_fraud Hn0 _ _ _ _ Hloop).
    apply Z.eqb_neq in Hn0. rewrite Hn0. reflexivity.
Qed.

(** The subsidy when the top-up fits under one percent of the treasury:
    exactly the tokens that lift every active operator to half the
    opportunity cost, and strictly less than one percent of the treasury. *)
Lemma treasury_stabilization_granted (poe pof P T : R) (n : Z) :
  let per_op_yield_usd := (poe + pof) * P in
  let needed := (0.5 * 5 - per_op_yield_usd) / Rmax P 0.001 * IZR n in
  per_op_yield_usd < 0.5 * 5 -> T > 0.02 * 1000000000 -> needed < 0.01 * T ->
  treasury_stabilization poe pof P T n = needed /\ needed < 0.01 * T.
Proof.
  intros y needed Hy HT Hcap. split; [|exact Hcap].
  unfold treasury_stabilization, OPPORTUNITY_COST, TOTAL_SUPPLY.
  fold y.
  destruct (Rlt_dec y (0.5 * 5.0)) as [_|Hn]; [|exfalso; apply Hn; lra].
  destruct (Rlt_dec (1000000000 * 0.02) T) as [_|Hn];
    [|exfalso; apply Hn; lra].
  replace ((0.5 * 5.0 - y) / Rmax P 0.001 * IZR n) with needed
    by (unfold needed; f_equal; f_equal; lra).
  destruct (Rlt_dec needed (T * 0.01)) as [_|Hn]; [reflexivity|].
  exfalso; apply Hn; lra.
Qed.

Lemma treasury_stabilization_off (poe pof P T : R) (n : Z) :
  ~ ((poe + pof) * P < 0.5 * 5 /\ T > 0.02 * 1000000000) ->
  treasury_stabilization poe pof P T n = 0.
Proof.
  intros Hoff. unfold treasury_stabilization, OPPORTUNITY_COST, TOTAL_SUPPLY.
  destruct (Rlt_dec ((poe + pof) * P) (0.5 * 5.0)) as [Hy|_]; [|reflexivity].
  destruct (Rlt_dec (1000000000 * 0.02) T) as [HT|_]; [|reflexivity].
  exfalso. apply Hoff. split; lra.
Qed.

(** C5 (where the code departs from it).  On a day when the per-operator
    yield is below half the opportunity cost and the treasury is above two
    percent of total supply, but the tokens needed to top every active
    operator up reach one percent of the treasury, [update_operators]
    returns a subsidy of zero: nothing is drawn, not even the one percent
    that the cap would allow. *)
Theorem treasury_subsidy_dropped_over_cap agents E F_daily N P scenario t
    (rng : G) T cost_mult slash_downtime slash_fraud :
  let n0 := count_active agents in
  let per_op_yield_usd := (E / IZR n0 + F_daily * (1 - 0.30) / IZR n0) * P in
  let needed := (0.5 * 5 - per_op_yield_usd) / Rmax P 0.001 * IZR n0 in
  n0 <> 0%Z ->
  per_op_yield_usd < 0.5 * 5 -> T > 0.02 * 1000000000 -> 0.01 * T <= needed ->
  snd (fst (update_operators agents E F_daily N P scenario t rng T cost_mult
                             slash_downtime slash_fraud)) = 0.
Proof.
  intros n0 y needed Hn0 Hy HT Hcap.
  rewrite update_operators_subsidy. fold n0.
  apply Z.eqb_neq in Hn0 as Hb. rewrite Hb.
  pose proof (count_active_nonneg agents) as Hpos. fold n0 in Hpos.
  replace (Z.max n0 1) with n0 by lia.
  unfold treasury_stabilization, OPPORTUNITY_COST, TOTAL_SUPPLY, PROTOCOL_FEE.
  fold y.
  destruct (Rlt_dec y (0.5 * 5.0)); [|reflexivity].
  destruct (Rlt_dec (1000000000 * 0.02) T); [|reflexivity].
  replace ((0.5 * 5.0 - y) / Rmax P 0.001 * IZR n0) with needed
    by (unfold needed; f_equal; f_equal; lra).
  destruct (Rlt_dec needed (T * 0.01)) as [Hlt|_]; [lra | reflexivity].
Qed.

(** ** Reputation updater *)

(** C7, as the code has it.  The reputation updater changes the population
    only on days [t > 0] with [t mod 90 = 0]: on such a day every active
    operator's season counter grows by one and its reputation becomes
    [min(5.0, (reputation + (1.0 if uptime > 0.99 else 0.0)) * 0.85)], all
    other fields and all inactive operators being left alone; on every other
    day, day 0 included, the population is returned unchanged. *)
Theorem reputation_update_schedule (agents : list Agent) (t : Z) :
  ((t mod 90 = 0)%Z -> t <> 0%Z ->
     update_reputation agents t
       = map (fun a =>
                if active a then
                  mkAgent (agent_id a) (agent_type a) (exit_threshold a)
                    (price_sensitivity a) (uptime a) (fraud_prob a) (stake a)
                    (Rmin 5.0 ((reputation a
                                + (if Rlt_dec 0.99 (uptime a) then 1.0 else 0.0))
                               * 0.85))
                    true (seasons_active a + 1)
                else a) agents) /\
  ((t mod 90 <> 0)%Z \/ t = 0%Z -> update_reputation agents t = agents).
Proof.
  split.
  - intros Hmod Hpos. unfold update_reputation.
    apply Z.eqb_eq in Hmod. apply Z.eqb_neq in Hpos. rewrite Hmod, Hpos. cbn.
    assert (Hmap : map (fun a => if active a then reputation_season a else a)
                       agents
                   = map (fun a =>
                if active a then
                  mkAgent (agent_id a) (agent_type a) (exit_threshold a)
                    (price_sensitivity a) (uptime a) (fraud_prob a) (stake a)
                    (Rmin 5.0 ((reputation a
                                + (if Rlt_dec 0.99 (uptime a) then 1.0 else 0.0))
                               * 0.85))
                    true (seasons_active a + 1)
                else a) agents).
    { apply map_ext. intros [id ty et ps up fp st rep act sea].
      cbn [active]. destruct act; [|reflexivity].
      unfold reputation_season, set_reputation, set_seasons_active. cbn.
      destruct (Rlt_dec 0.99 up); cbn; rewrite Rmin_comm; do 2 f_equal; lra. }
    destruct (count_active agents =? 0)%Z eqn:Hc; [|exact Hmap].
    rewrite <- Hmap. symmetry.
    apply Z.eqb_eq in Hc. unfold count_active in Hc.
    assert (Hnil : filter active agents = []).
    { destruct (filter active agents); [reflexivity | discriminate]. }
    clear Hmap Hc. induction agents as [|a rest IH]; [reflexivity|].
    cbn in Hnil. destruct (active a) eqn:Ha; [discriminate|].
    cbn. rewrite Ha. f_equal. apply IH. exact Hnil.
  - intros Hoff. unfold update_reputation.
    destruct Hoff as [Hmod | ->].
    + apply Z.eqb_neq in Hmod. rewrite Hmod. reflexivity.
    + reflexivity.
Qed.

(** ** The driver *)

Lemma static_emission_bounds (t : Z) :
  (0 <= t <= 1824)%Z -> PID_MIN <= static_emission t <= PID_MAX.
Proof.
  intros [Hlo Hhi]. unfold static_emission, PID_MIN, PID_MAX, BASE_EMISSION.
  apply IZR_le in Hlo, Hhi.
  set (year := IZR t / 365).
  assert (Hyear : 0 <= year <= 5) by (unfold year; split; lra).
  assert (Hln : ln 0.95 < 0).
  { rewrite <- ln_1. apply ln_increasing; lra. }
  assert (Hup : Rpower 0.95 year <= 1).
  { unfold Rpower. rewrite <- exp_0.
    destruct (Req_dec (year * ln 0.95) 0) as [-> | Hne]; [lra|].
    left. apply exp_increasing. nra. }
  assert (Hdown : 0.95 ^ 5 <= Rpower 0.95 year).
  { rewrite <- (Rpower_pow 5 0.95) by lra.
    replace (INR 5) with 5 by (simpl; lra).
    unfold Rpower.
    destruct (Req_dec (5 * ln 0.95) (year * ln 0.95)) as [-> | Hne]; [lra|].
    left. apply exp_increasing. nra. }
  assert (Hval : 0.7 <= 0.95 ^ 5) by (simpl; lra).
  split; nra.
Qed.

Lemma pid_emission_bounds N integral prev_error t kp ki kd new_E i e :
  pid_emission N integral prev_error t kp ki kd = (Some new_E, i, e) ->
  PID_MIN <= new_E <= PID_MAX.
Proof.
  unfold pid_emission. destruct (negb _); [discriminate|]. cbv zeta.
  match goal with
  | |- (Some (Rmax _ (Rmin _ ?x)), ?y, ?z) = _ -> _ => generalize x, y, z
  end.
  intros x y z Heq. injection Heq as <- _ _.
  split; [apply Rmax_l|].
  apply Rmax_lub; [apply IZR_le; discriminate | apply Rmin_l].
Qed.

Lemma emission_stage_bounds use_pid N E integral prev_error t kp ki kd :
  PID_MIN <= E <= PID_MAX ->
  use_pid = true \/ (0 <= t <= 1824)%Z ->
  PID_MIN
    <= fst (fst (emission_stage use_pid N E integral prev_error t kp ki kd))
    <= PID_MAX.
Proof.
  intros HE Hcase. unfold emission_stage. destruct use_pid.
  - destruct (pid_emission N integral prev_error t kp ki kd)
      as [[[new_E|] i] e] eqn:Hpid; cbn [fst].
    + eapply pid_emission_bounds; eauto.
    + exact HE.
  - cbn [fst]. apply static_emission_bounds.
    destruct Hcase as [Hpid | Ht]; [discriminate | exact Ht].
Qed.

Lemma update_price_floor P F_daily C drift (rng : G) :
  0.001 <= fst (update_price OU_KAPPA OU_SIGMA P F_daily C drift rng).
Proof.
  unfold update_price. destruct (rng_normal 0 1 rng) as [dW g].
  cbn [fst]. apply Rmax_l.
Qed.

(** *** Operators are only ever deactivated in place *)

Lemma create_from_stake (types : list Template) :
  forall (i : Z) (g : G),
  Forall (fun a => (0 <= stake a)%Z) (fst (create_from i types g)).
Proof.
  induction types as [|[[[[ty et] ps] ub] fp] rest IH]; intros i g.
  - constructor.
  - cbn [create_from].
    destruct (rng_normal 0 0.01 g) as [d g1].
    pose proof (rng_integers_range 0 20000 g1 eq_refl) as Hk.
    destruct (rng_integers 0 20000 g1) as [k g2].
    specialize (IH (i + 1)%Z g2).
    destruct (create_from (i + 1) rest g2) as [agents g3].
    cbn [fst stake] in *. constructor; [cbn [stake]; lia | exact IH].
Qed.

Lemma Forall_nth_error {A : Type} (Q : A -> Prop) (l : list A) :
  (forall i a, nth_error l i = Some a -> Q a) -> Forall Q l.
Proof.
  intros Hall. apply Forall_forall. intros a Hin.
  destruct (In_nth_error _ _ Hin) as [i Hi]. eauto.
Qed.

Lemma update_operators_stake agents E F_daily N P scenario t (rng : G) T
    cost_mult slash_downtime slash_fraud :
  or_default slash_downtime SLASH_DOWNTIME <= 1 ->
  or_default slash_fraud SLASH_FRAUD <= 1 ->
  Forall (fun a => (0 <= stake a)%Z) agents ->
  Forall (fun a => (0 <= stake a)%Z)
    (fst (fst (fst (fst
      (update_operators agents E F_daily N P scenario t rng T cost_mult
                        slash_downtime slash_fraud))))).
Proof.
  intros Hsd Hsf Hall. apply Forall_nth_error. intros i e Hnth.
  rewrite Forall_forall in Hall.
  destruct (nth_error agents i) as [a|] eqn:Ha.
  - destruct (update_operators_nth agents E F_daily N P scenario t rng T
                cost_mult slash_downtime slash_fraud i a Ha)
      as [a1 [a' [Hn' [Hoff [Hon Hrel]]]]].
    assert (a' = e) by congruence. subst a'.
    assert (Hst : (0 <= stake a)%Z) by (apply Hall; eapply nth_error_In; eauto).
    assert (H1 : (0 <= stake a1)%Z).
    { destruct (active a) eqn:Hact.
      - destruct (Hon eq_refl) as [_ [poe [pof [cost [sl [fr [g ->]]]]]]].
        apply operator_day_stake; assumption.
      - rewrite (Hoff eq_refl). exact Hst. }
    destruct Hrel as [-> | [_ ->]]; exact H1.
  - apply nth_error_None in Ha.
    destruct (update_operators_shape agents E F_daily N P scenario t rng T
                cost_mult slash_downtime slash_fraud)
      as [ext [Hlen [_ [Hent Htail]]]].
    assert (Hlt : (i < List.length agents + List.length ext)%nat).
    { rewrite <- Hlen. apply nth_error_Some. congruence. }
    destruct (nth_error ext (i - List.length agents)) as [e0|] eqn:He0.
    2:{ apply nth_error_None in He0. lia. }
    destruct (Htail _ _ He0) as [e' [Hn' Hrel]].
    replace (List.length agents + (i - List.length agents))%nat with i
      in Hn' by lia.
    assert (e' = e) by congruence. subst e'.
    rewrite Forall_forall in Hent.
    destruct (Hent e0 (nth_error_In _ _ He0)) as [next_id [g0 ->]].
    pose proof (new_entrant_stake next_id g0) as Hs.
    destruct Hrel as [-> | ->]; cbn [stake set_active]; lia.
Qed.

Lemma update_reputation_stake (agents : list Agent) (t : Z) :
  Forall (fun a => (0 <= stake a)%Z) agents ->
  Forall (fun a => (0 <= stake a)%Z) (update_reputation agents t).
Proof.
  intros Hall. unfold update_reputation.
  destruct (_ || _); [exact Hall|].
  destruct (_ =? _)%Z; [exact Hall|].
  apply Forall_map. eapply Forall_impl; [|exact Hall].
  intros a Ha. destruct (active a); [|exact Ha].
  unfold reputation_season. destruct (Rlt_dec _ _); exact Ha.
Qed.


Section RunProperties.
Variables (scenario_name : string) (scenario : Scenario) (use_pid : bool)
          (seed : Z) (kp ki kd slash_downtime slash_fraud : option R).

#[local] Abbreviation step :=
  (day_step OU_KAPPA OU_SIGMA scenario_name scenario use_pid seed
            kp ki kd slash_downtime slash_fraud).
#[local] Abbreviation loop :=
  (sim_loop OU_KAPPA OU_SIGMA scenario_name scenario use_pid seed
            kp ki kd slash_downtime slash_fraud).
#[local] Abbreviation start :=
  (initial_state (G := G) seed).
#[local] Abbreviation run :=
  (run_simulation OU_KAPPA OU_SIGMA scenario_name scenario use_pid seed
                  kp ki kd slash_downtime slash_fraud).

Ltac open_day_step :=
  unfold day_step;
  destruct (compute_demand _ _ _ _ _ _) as [F1 gd] eqn:Hdemand;
  destruct (emission_stage _ _ _ _ _ _ _ _ _) as [[E1 int1] pe1] eqn:Hemit;
  destruct (update_operators _ _ _ _ _ _ _ _ _ _ _ _)
    as [[[[ag1 sl1] fr1] ts1] gu] eqn:Hupd;
  destruct (update_price _ _ _ _ _ _ _) as [P1 gp] eqn:Hprice.

(** One day: the row written and the state left behind are within bounds,
    whatever the state before, provided the emission rate was. *)
Lemma day_step_ok (st : SimState) (t : Z) :
  PID_MIN <= st_E st <= PID_MAX ->
  use_pid = true \/ (0 <= t <= 1824)%Z ->
  rec_timestep (fst (step st t)) = t /\
  record_ok (fst (step st t)) /\ state_ok (snd (step st t)).
Proof.
  intros HE Hcase.
  pose proof (emission_stage_bounds use_pid (st_N st) (st_E st)
                (st_integral st) (st_prev_error st) t kp ki kd HE Hcase)
    as HE'.
  open_day_step.
  pose proof (update_price_floor (st_P st) F1
                (st_C st) (or_default (price_drift scenario) 0) gu) as HP.
  rewrite Hprice in HP. cbn [fst snd] in *.
  assert (HC : forall x, 0 <= Rmax 0 (Rmin TOTAL_SUPPLY x) <= TOTAL_SUPPLY).
  { intros x. unfold TOTAL_SUPPLY, Rmax, Rmin. repeat destruct Rle_dec; lra. }
  assert (HT : forall x, 0 <= Rmax 0 x) by (intros x; apply Rmax_l).
  split; [reflexivity|]. split.
  - unfold record_ok. cbn.
    split; [apply (py_round_0_bounds _ 0 TOTAL_SUPPLY); apply HC|].
    split; [apply (py_round_0_lower _ 0); apply HT|].
    split; [lia|].
    split; [apply py_round_6_pos; exact HP|].
    apply py_round_0_bounds. exact HE'.
  - unfold state_ok. cbn.
    split; [apply HC|]. split; [apply HT|]. split; [lia|].
    split; [exact HP | exact HE'].
Qed.

Lemma sim_loop_app (l1 l2 : list Z) (st : SimState) :
  fst (loop (l1 ++ l2) st)
    = fst (loop l1 st) ++ fst (loop l2 (snd (loop l1 st))) /\
  snd (loop (l1 ++ l2) st) = snd (loop l2 (snd (loop l1 st))).
Proof.
  revert st. induction l1 as [|t l1 IH]; intros st; [split; reflexivity|].
  cbn [app sim_loop].
  destruct (step st t) as [r st1].
  specialize (IH st1). destruct IH as [IH1 IH2].
  destruct (loop (l1 ++ l2) st1) as [rs st2].
  destruct (loop l1 st1) as [rs1 st1'].
  cbn [fst snd] in *. subst. split; reflexivity.
Qed.

Lemma run_records (stderr : list LogLine) :
  fst (run stderr) = fst (loop days (start stderr)).
Proof.
  unfold run_simulation.
  destruct (sim_loop _ _ _ _ _ _ _ _ _ _ _ days (start stderr)).
  reflexivity.
Qed.

Lemma days_length : List.length days = 1825%nat.
Proof. unfold days, TIMESTEPS. rewrite length_map, length_seq. reflexivity. Qed.

Lemma days_nth (t : nat) :
  (t < 1825)%nat -> nth_error days t = Some (Z.of_nat t).
Proof.
  intros Ht. unfold days, TIMESTEPS.
  rewrite nth_error_map.
  rewrite (nth_error_nth' _ O) by (rewrite length_seq; exact Ht).
  rewrite seq_nth by exact Ht. reflexivity.
Qed.

Lemma days_range : Forall (fun t => (0 <= t <= 1824)%Z) days.
Proof.
  apply Forall_forall. intros t Hin. unfold days, TIMESTEPS in Hin.
  apply in_map_iff in Hin. destruct Hin as [n [<- Hn]].
  apply in_seq in Hn. lia.
Qed.

Lemma sim_loop_ok (ts : list Z) :
  forall st : SimState,
  PID_MIN <= st_E st <= PID_MAX ->
  Forall (fun t => use_pid = true \/ (0 <= t <= 1824)%Z) ts ->
  Forall2 (fun t r => rec_timestep r = t /\ record_ok r)
          ts (fst (loop ts st)) /\
  (ts <> [] -> state_ok (snd (loop ts st))) /\
  PID_MIN <= st_E (snd (loop ts st)) <= PID_MAX.
Proof.
  induction ts as [|t ts IH]; intros st HE Hts.
  - cbn. split; [constructor|]. split; [congruence | exact HE].
  - inversion Hts as [|? ? Ht Hts']; subst.
    destruct (day_step_ok st t HE Ht) as [Htime [Hrec Hst]].
    cbn [sim_loop]. destruct (step st t) as [r st1]. cbn [fst snd] in *.
    assert (HE1 : PID_MIN <= st_E st1 <= PID_MAX) by apply Hst.
    destruct (IH st1 HE1 Hts') as [IHrec [IHst IHE]].
    assert (Hlast : state_ok (snd (loop ts st1))).
    { destruct ts as [|t' ts']; [exact Hst | apply IHst; discriminate]. }
    destruct (loop ts st1) as [rs st2]. cbn [fst snd] in *.
    split; [constructor; auto|]. split; [|exact IHE].
    intros _. exact Hlast.
Qed.

Lemma Forall2_nth_error {A B : Type} (Rel : A -> B -> Prop)
    (l : list A) (l' : list B) :
  Forall2 Rel l l' ->
  forall i a, nth_error l i = Some a ->
  exists b, nth_error l' i = Some b /\ Rel a b.
Proof.
  induction 1 as [|x y l l' Hxy Hrest IH]; intros i a Hnth.
  - destruct i; discriminate.
  - destruct i as [|i]; cbn in *.
    + injection Hnth as <-. eauto.
    + eauto.
Qed.

Lemma initial_state_E (stderr : list LogLine) :
  st_E (start stderr) = IZR BASE_EMISSION.
Proof.
  unfold initial_state.
  destruct (create_operators 2000 (default_rng seed)) as [agents g1].
  destruct (create_whales g1) as [whales g2]. reflexivity.
Qed.

Lemma firstn_days_range (n : nat) :
  Forall (fun t => use_pid = true \/ (0 <= t <= 1824)%Z) (firstn n days).
Proof.
  apply Forall_forall. intros t Hin. right.
  pose proof days_range as Hall. rewrite Forall_forall in Hall.
  apply Hall. rewrite <- (firstn_skipn n days).
  apply in_or_app. left. exact Hin.
Qed.

(** C1.  In every run (any scenario, either policy, any seed, gains and
    slashing penalties, any behaviour of the random source) and on every day
    [t] of 0..1824, the row recorded for day [t] has
    [0 <= C <= 1,000,000,000], [T >= 0], [N >= 1], [P > 0] and
    [27,397 <= E <= 328,767], and so has the state the driver carries out
    of day [t].  [use_pid] is universally quantified: the static schedule
    [109589 * 0.95^(t/365)] stays inside the emission band over the whole
    horizon although nothing clamps it. *)
Theorem run_invariants (stderr : list LogLine) (t : nat) :
  (t < 1825)%nat ->
  exists r,
    nth_error (fst (run stderr)) t = Some r /\
    rec_timestep r = Z.of_nat t /\
    (0 <= rec_C r <= 1000000000 /\ 0 <= rec_T r /\ (1 <= rec_N r)%Z /\
     0 < rec_P r /\ 27397 <= rec_E r <= 328767) /\
    let st := snd (loop (firstn (S t) days) (start stderr)) in
    0 <= st_C st <= 1000000000 /\ 0 <= st_T st /\ (1 <= st_N st)%Z /\
    0 < st_P st /\ 27397 <= st_E st <= 328767.
Proof.
  intros Ht.
  assert (HE0 : PID_MIN <= st_E (start stderr) <= PID_MAX).
  { rewrite initial_state_E. unfold PID_MIN, PID_MAX, BASE_EMISSION. lra. }
  assert (Hdays : Forall (fun t => use_pid = true \/ (0 <= t <= 1824)%Z) days).
  { rewrite <- (firstn_all days). apply firstn_days_range. }
  destruct (sim_loop_ok days (start stderr) HE0 Hdays) as [Hrec _].
  destruct (Forall2_nth_error _ _ _ Hrec t _ (days_nth t Ht))
    as [r [Hnth [Htime Hok]]].
  exists r. rewrite run_records. split; [exact Hnth|]. split; [exact Htime|].
  split; [exact Hok|].
  destruct (sim_loop_ok (firstn (S t) days) (start stderr) HE0
              (firstn_days_range (S t))) as [_ [Hst _]].
  assert (Hne : firstn (S t) days <> []).
  { intros Hnil. apply (f_equal (@List.length Z)) in Hnil.
    rewrite length_firstn, days_length in Hnil. cbn in Hnil. lia. }
  specialize (Hst Hne). unfold state_ok in Hst. cbv zeta.
  unfold TOTAL_SUPPLY, PID_MIN, PID_MAX in Hst.
  repeat split; try apply Hst. destruct Hst as [_ [_ [_ [HP _]]]]. lra.
Qed.


Lemma day_step_stake (st : SimState) (t : Z) :
  or_default slash_downtime SLASH_DOWNTIME <= 1 ->
  or_default slash_fraud SLASH_FRAUD <= 1 ->
  Forall (fun a => (0 <= stake a)%Z) (st_agents st) ->
  Forall (fun a => (0 <= stake a)%Z) (st_agents (snd (step st t))).
Proof.
  intros Hsd Hsf Hall. open_day_step. cbn [snd st_agents].
  apply update_reputation_stake.
  match type of Hupd with
  | update_operators ?ag0 ?E ?F ?N ?P ?sc ?t ?g ?T ?cm ?sd ?sf = _ =>
      pose proof (update_operators_stake ag0 E F N P sc t g T cm sd sf
                    Hsd Hsf Hall) as Hst;
      rewrite Hupd in Hst
  end.
  exact Hst.
Qed.


Lemma sim_loop_stake (ts : list Z) :
  or_default slash_downtime SLASH_DOWNTIME <= 1 ->
  or_default slash_fraud SLASH_FRAUD <= 1 ->
  forall st : SimState,
  Forall (fun a => (0 <= stake a)%Z) (st_agents st) ->
  Forall (fun a => (0 <= stake a)%Z) (st_agents (snd (loop ts st))).
Proof.
  intros Hsd Hsf. induction ts as [|t ts IH]; intros st Hall; [exact Hall|].
  pose proof (day_step_stake st t Hsd Hsf Hall) as H1.
  cbn [sim_loop]. destruct (step st t) as [r st1]. cbn [snd] in H1.
  specialize (IH st1 H1). destruct (loop ts st1) as [rs st2]. exact IH.
Qed.

Lemma initial_state_stake (stderr : list LogLine) :
  Forall (fun a => (0 <= stake a)%Z) (st_agents (start stderr)).
Proof.
  unfold initial_state.
  pose proof (create_from_stake (operator_templates 2000) 0 (default_rng seed))
    as Hinit.
  unfold create_operators.
  destruct (create_from 0 (operator_templates 2000) (default_rng seed))
    as [agents g1].
  destruct (create_whales g1) as [whales g2]. exact Hinit.
Qed.


(** *** What the records depend on *)

(** A day reads neither the whales nor the standard-error stream. *)
Lemma day_step_same_core (s1 s2 : SimState) (t : Z) :
  same_core s1 s2 ->
  fst (step s1 t) = fst (step s2 t) /\
  same_core (snd (step s1 t)) (snd (step s2 t)) /\
  st_whales (snd (step s1 t)) = st_whales s1.
Proof.
  destruct s1 as [C1 T1 N1 F1 P1 E1 B1 i1 pe1 sl1 fr1 cm1 ag1 w1 g1 e1].
  destruct s2 as [C2 T2 N2 F2 P2 E2 B2 i2 pe2 sl2 fr2 cm2 ag2 w2 g2 e2].
  unfold same_core. cbn.
  intros [-> [-> [-> [-> [-> [-> [-> [-> [-> [-> [-> [-> [-> ->]]]]]]]]]]]]].
  unfold day_step. cbn.
  destruct (compute_demand _ _ _ _ _ _) as [F g].
  destruct (emission_stage _ _ _ _ _ _ _ _ _) as [[E i] pe].
  destruct (update_operators _ _ _ _ _ _ _ _ _ _ _ _)
    as [[[[ag sl] fr] ts] g'].
  destruct (update_price _ _ _ _ _ _ _) as [P g''].
  cbn. repeat split; reflexivity.
Qed.

Lemma sim_loop_same_core (ts : list Z) :
  forall s1 s2 : SimState,
  same_core s1 s2 ->
  fst (loop ts s1) = fst (loop ts s2) /\
  st_whales (snd (loop ts s1)) = st_whales s1.
Proof.
  induction ts as [|t ts IH]; intros s1 s2 Hcore; [split; reflexivity|].
  destruct (day_step_same_core s1 s2 t Hcore) as [Hrec [Hcore' Hw]].
  cbn [sim_loop].
  destruct (step s1 t) as [r1 s1']. destruct (step s2 t) as [r2 s2'].
  cbn [fst snd] in *.
  destruct (IH s1' s2' Hcore') as [IHrec IHw].
  destruct (loop ts s1') as [rs1 s1'']. destruct (loop ts s2') as [rs2 s2''].
  cbn [fst snd] in *. split; congruence.
Qed.

Lemma initial_state_same_core (stderr1 stderr2 : list LogLine) :
  same_core (start stderr1) (start stderr2).
Proof.
  unfold initial_state.
  destruct (create_operators 2000 (default_rng seed)) as [agents g1].
  destruct (create_whales g1) as [whales g2].
  unfold same_core. cbn. repeat split; reflexivity.
Qed.

Lemma with_whales_same_core (st : SimState (G := G)) (ws : list Whale) :
  same_core (with_whales st ws) st.
Proof. unfold same_core, with_whales. cbn. repeat split; reflexivity. Qed.


(** C9.  The whales are created (consuming five draws) and then carried
    through the loop untouched and unread: replacing the whale list the loop
    starts from by any other leaves every record as it is, and the list is
    still the same after the last day. *)
Theorem whales_never_consulted (stderr : list LogLine)
    (whales1 whales2 : list Whale) :
  fst (loop days (with_whales (start stderr) whales1))
    = fst (loop days (with_whales (start stderr) whales2)) /\
  fst (loop days (with_whales (start stderr) whales1)) = fst (run stderr) /\
  st_whales (snd (loop days (with_whales (start stderr) whales1))) = whales1.
Proof.
  destruct (sim_loop_same_core days _ _
              (with_whales_same_core (start stderr) whales1)) as [H1 Hw].
  destruct (sim_loop_same_core days _ _
              (with_whales_same_core (start stderr) whales2)) as [H2 _].
  rewrite run_records. split; [congruence|]. split; [exact H1 | exact Hw].
Qed.

End RunProperties.

(** ** Where the harness gets its table *)

(** Every row of the sweep is the terminal population of a PID run of the
    bear scenario, with the default Kp and Kd and the row's Ki and seed. *)
Lemma ki_sweep_rows (cases : list (R * Z)) :
  forall count stderr,
  Forall2
    (fun case row =>
       fst (fst row) = fst case /\ snd (fst row) = snd case /\
       exists stderr',
         snd row = final_N_of (fst
           (run_simulation OU_KAPPA OU_SIGMA "bear" bear true (snd case)
              (Some KP_NORM) (Some (fst case)) (Some KD_NORM) None None
              stderr')))
    cases (fst (ki_sweep OU_KAPPA OU_SIGMA cases count stderr)).
Proof.
  induction cases as [|[ki seed] rest IH]; intros count stderr.
  - constructor.
  - cbn [ki_sweep].
    set (stderr0 := if (S count mod 25 =? 0)%nat || (S count =? 1)%nat
                    then _ else _).
    destruct (run_simulation OU_KAPPA OU_SIGMA "bear" bear true seed
                (Some KP_NORM) (Some ki) (Some KD_NORM) None None stderr0)
      as [records stderr1] eqn:Hrun.
    specialize (IH (S count) stderr1).
    destruct (ki_sweep OU_KAPPA OU_SIGMA rest (S count) stderr1)
      as [rows stderr2].
    cbn [fst snd] in *. constructor; [|exact IH].
    cbn [fst snd]. split; [reflexivity|]. split; [reflexivity|].
    exists stderr0. rewrite Hrun. reflexivity.
Qed.

Lemma ki_nonmonotonicity_test_verdict (stderr : list LogLine) :
  fst (ki_nonmonotonicity_test OU_KAPPA OU_SIGMA stderr)
    = rank_consistency_verdict
        (pivot (fst (ki_sweep OU_KAPPA OU_SIGMA ki_cases 0 stderr))).
Proof.
  unfold ki_nonmonotonicity_test.
  destruct (ki_sweep OU_KAPPA OU_SIGMA ki_cases 0 stderr) as [rows stderr'].
  reflexivity.
Qed.

End Properties.

(** ** The rank-consistency harness *)









(** C7 as stated fails on day 0: [0 mod 90 = 0], yet an active operator's
    season counter is not incremented. *)
Lemma reputation_day_zero_counterexample :
  ~ (forall (agents : list Agent) (t : Z) (i : nat) (a : Agent),
       (t mod 90 = 0)%Z -> nth_error agents i = Some a -> active a = true ->
       exists a', nth_error (update_reputation agents t) i = Some a' /\
                  seasons_active a' = (seasons_active a + 1)%Z).
Proof.
  intros Hclaim.
  destruct (Hclaim [sample_operator] 0%Z O sample_operator
              eq_refl eq_refl eq_refl) as [a' [Hnth Hseasons]].
  unfold update_reputation in Hnth. cbn in Hnth.
  injection Hnth as <-. cbn in Hseasons. discriminate.
Qed.

(** C3, at a concrete input: day 15 leaves the controller alone; on day 14
    with 20000 operators, [Kp = 0.8] and [Ki = Kd = 0] the rate is 27397. *)
Lemma pid_emission_cadence_witness :
  pid_emission 20000 0 0 15 (Some 0.8) (Some 0) (Some 0) = (None, 0, 0)
  /\ fst (fst (pid_emission 20000 0 0 14 (Some 0.8) (Some 0) (Some 0)))
     = Some 27397.
Proof.
  pose proof (pid_emission_cadence 20000 109589 0 0 15
                (Some 0.8) (Some 0) (Some 0)) as H15.
  pose proof (pid_emission_cadence 20000 109589 0 0 14
                (Some 0.8) (Some 0) (Some 0)) as H14.
  cbv zeta in H15, H14.
  destruct H15 as [Hno _]. destruct H14 as [_ [Hev Hsat]].
  split.
  - apply Hno. discriminate.
  - destruct (Hev eq_refl) as [Hpid _]. rewrite Hpid. cbn [fst].
    f_equal. apply Hsat; try reflexivity.
    cbn [or_default]. lra.
Defined.

(** ** The statements at concrete inputs

    The generator below draws the mean for every normal variate and 0.99 for
    every uniform one. *)

(** C1 on day 0 of a static-policy bear run with seed 42. *)
Lemma run_invariants_witness :
  exists r,
    nth_error
      (fst (run_simulation (H := fixed_generator 0 0.99) 2.8 0.049
              "bear" bear false 42 None None None None None [])) 0
      = Some r /\
    (1 <= rec_N r)%Z /\ 0 < rec_P r /\ 27397 <= rec_E r <= 328767.
Proof.
  destruct (run_invariants (H := fixed_generator 0 0.99) 2.8 0.049
              "bear" bear false 42 None None None None None [] 0)
    as [r [Hnth [_ [Hbounds _]]]]; [lia|].
  exists r. split; [exact Hnth|].
  destruct Hbounds as [_ [_ [HN [HP HE]]]]. auto.
Defined.


(** C5 at a failing input: 2000 active operators, emission 109589, fee
    revenue 500, price 0.001, treasury 150,000,000.  The yield (about 0.055
    USD) is below 2.5 and the treasury is above 20,000,000, the top-up would
    take about 4.89 million tokens against a cap of 1.5 million, and the
    subsidy returned is 0. *)
Lemma treasury_subsidy_dropped_over_cap_witness :
  snd (fst (update_operators (H := fixed_generator 0 0.99)
              (repeat sample_operator 2000)
              109589 500 2000 0.001 bull 400 O 150000000 1 None None)) = 0.
Proof.
  pose proof (count_active_repeat sample_operator 2000 eq_refl) as Hc.
  change (Z.of_nat 2000) with 2000%Z in Hc.
  apply treasury_subsidy_dropped_over_cap; cbv zeta; rewrite ?Hc.
  - discriminate.
  - lra.
  - lra.
  - unfold Rmax. destruct Rle_dec; lra.
Defined.

(** C7 on day 90 and on day 45, for one active operator. *)
Lemma reputation_update_schedule_witness :
  map seasons_active (update_reputation [sample_operator] 90) = [1%Z] /\
  update_reputation [sample_operator] 45 = [sample_operator].
Proof.
  destruct (reputation_update_schedule [sample_operator] 90) as [Hon _].
  destruct (reputation_update_schedule [sample_operator] 45) as [_ Hoff].
  split.
  - rewrite Hon; [reflexivity | reflexivity | discriminate].
  - apply Hoff. left. discriminate.
Defined.


(** Under the three-sigma generator a sample operator with a comfortable
    yield goes through its day without being slashed or leaving. *)
Lemma sample_operator_stays sd sf poe pof cost sl fr (g : nat) :
  0.8 * 5 <= (poe + pof) * 0.10 - cost ->
  active (fst (fst (fst
    (operator_day (H := fixed_generator 3 0.99) sd sf poe pof 0.10 cost
                  sample_operator sl fr g)))) = true.
Proof.
  intros Hyield. unfold operator_day, sample_operator.
  cbn [rng_normal rng_random fixed_generator set_uptime uptime stake
       fraud_prob exit_threshold seasons_active active agent_id agent_type
       price_sensitivity reputation].
  assert (Hup : Rmin 1.0 (Rmax 0.5 (0.95 + (0 + 0.005 * 3))) = 0.965).
  { unfold Rmin, Rmax. repeat destruct Rle_dec; lra. }
  rewrite Hup.
  destruct (Rlt_dec 0.965 0.90) as [Hbad|_]; [lra|].
  cbn [fraud_prob set_uptime].
  destruct (Rlt_dec 0 0.0) as [Hbad|_]; [lra|].
  cbn [seasons_active exit_threshold stake set_uptime active].
  destruct (Rlt_dec ((poe + pof) * 0.10 - cost) (0.8 * OPPORTUNITY_COST))
    as [Hbad|_]; [unfold OPPORTUNITY_COST in Hbad; lra|].
  reflexivity.
Qed.

Lemma count_active_all (l : list Agent) :
  (forall a, In a l -> active a = true) ->
  count_active l = Z.of_nat (List.length l).
Proof.
  intros Hall. unfold count_active. f_equal.
  induction l as [|a l IH]; [reflexivity|].
  cbn. rewrite (Hall a (or_introl eq_refl)). cbn. f_equal.
  apply IH. intros b Hb. apply Hall. right. exact Hb.
Qed.

(** C10 on a call that admits an entrant: 34 active operators with a high
    yield, every normal draw three standard deviations up.  The operator at
    position 0 ends the call with its uptime in the band; the entrant
    appended at position 34 ends it with uptime 1.01. *)
Lemma uptime_band_witness :
  let agents' :=
    fst (fst (fst (fst
      (update_operators (H := fixed_generator 3 0.99)
         (repeat sample_operator 34)
         109589 500 34 0.10 bull 1 O 150000000 1 None None)))) in
  (exists a', nth_error agents' 0 = Some a' /\ 0.5 <= uptime a' <= 1.0) /\
  (exists e, nth_error agents' 34 = Some e /\ uptime e = 1.01).
Proof.
  intros agents'.
  destruct (uptime_band (H := fixed_generator 3 0.99)
              (repeat sample_operator 34)
              109589 500 34 0.10 bull 1 O 150000000 1 None None)
    as [Hband [Htail _]].
  fold agents' in Hband, Htail.
  split; [apply (Hband O sample_operator); reflexivity|].
  assert (Hlen : List.length agents' = 35%nat).
  { destruct (update_operators_shape (H := fixed_generator 3 0.99)
                (repeat sample_operator 34)
                109589 500 34 0.10 bull 1 O 150000000 1 None None)
      as [ext [Hlen [Hk _]]].
    cbv zeta in Hlen, Hk. fold agents' in Hlen.
    rewrite Hlen, repeat_length, Hk.
    rewrite (count_active_repeat sample_operator 34 eq_refl).
    change (Z.of_nat 34) with 34%Z. change (34 =? 0)%Z with false.
    change (Z.max 34 1) with 34%Z.
    destruct (Rlt_dec (2.0 * OPPORTUNITY_COST)
                ((109589 / 34 + 500 * (1 - PROTOCOL_FEE) / 34) * 0.10))
      as [_|Hno];
      [|exfalso; apply Hno; unfold OPPORTUNITY_COST, PROTOCOL_FEE; lra].
    assert (Hcount : count_active (fst (fst (fst
              (after_lifecycle_loop (H := fixed_generator 3 0.99)
                 (repeat sample_operator 34) 109589 500 0.10 O 1
                 None None)))) = 34%Z).
    { unfold after_lifecycle_loop.
      rewrite (count_active_repeat sample_operator 34 eq_refl).
      change (Z.of_nat 34) with 34%Z. change (Z.max 34 1) with 34%Z.
      destruct (rng_normal (Generator := fixed_generator 3 0.99) 0 0.5 O)
        as [z g1] eqn:Hz.
      assert (Hzv : z = 1.5).
      { cbn in Hz. injection Hz as <- _. lra. }
      match goal with
      | |- count_active (fst (fst (fst
             (@operators_loop _ ?inst ?sd ?sf ?poe ?pof ?P ?cost
                              ?l ?s0 ?f0 ?g)))) = _ =>
          pose proof (@operators_loop_nth nat inst sd sf poe pof P cost
                        l s0 f0 g) as Hnth;
          pose proof (@operators_loop_length nat inst sd sf poe pof P cost
                        l s0 f0 g) as Hll;
          set (looped := fst (fst (fst
             (@operators_loop nat inst sd sf poe pof P cost l s0 f0 g))))
            in *
      end.
      rewrite count_active_all.
      - rewrite Hll, repeat_length. reflexivity.
      - intros a Hin. destruct (In_nth_error _ _ Hin) as [i Hi].
        assert (Hi0 : nth_error (repeat sample_operator 34) i
                      = Some sample_operator).
        { destruct (nth_error (repeat sample_operator 34) i) as [b|] eqn:Hb.
          - f_equal. eapply repeat_spec. eapply nth_error_In. exact Hb.
          - apply nth_error_None in Hb.
            assert (i < List.length looped)%nat
              by (apply nth_error_Some; congruence).
            lia. }
        destruct (Hnth i sample_operator Hi0) as [a' [Ha' [_ Hon]]].
        assert (a' = a) by congruence. subst a'.
        destruct (Hon eq_refl) as [sl0 [fr0 [g0 ->]]].
        apply sample_operator_stays. rewrite Hzv. unfold PROTOCOL_FEE.
        lra. }
    rewrite Hcount.
    assert (Hnew : new_count 34 = 1%Z).
    { unfold new_count, base_new, entry_factor, ENTRY_CAP_ABS.
      rewrite py_int_three_percent by lia.
      change (Z.min (3 * 34 / 100) 30) with 1%Z.
      change (N_TARGET <? 34)%Z with false. cbv iota.
      replace (1 * 1.0) with (IZR 1) by lra.
      rewrite py_int_IZR by lia. reflexivity. }
    rewrite Hnew. reflexivity. }
  destruct (nth_error agents' 34) as [e|] eqn:He.
  2:{ apply nth_error_None in He. lia. }
  exists e. split; [reflexivity|].
  destruct (Htail 34%nat e) as [g0 Hu];
    [rewrite repeat_length; lia | exact He |].
  rewrite Hu. cbn [rng_normal fixed_generator fst]. lra.
Defined.

(** * Further properties of the code base *)

(** ** Lists, position by position *)

Lemma Forall2_of_nth_error {A B : Type} (Rel : A -> B -> Prop)
    (l : list A) (l' : list B) :
  List.length l' = List.length l ->
  (forall i a, nth_error l i = Some a ->
     exists b, nth_error l' i = Some b /\ Rel a b) ->
  Forall2 Rel l l'.
Proof.
  revert l'. induction l as [|x l IH]; intros l' Hlen Hnth.
  - destruct l'; [constructor | discriminate].
  - destruct l' as [|y l']; [discriminate|].
    constructor.
    + destruct (Hnth O x eq_refl) as [b [Hb Hrel]].
      cbn in Hb. injection Hb as <-. exact Hrel.
    + apply IH; [cbn in Hlen; lia|].
      intros i a Hi. exact (Hnth (S i) a Hi).
Qed.

Lemma count_active_app (l1 l2 : list Agent) :
  count_active (l1 ++ l2) = (count_active l1 + count_active l2)%Z.
Proof.
  unfold count_active. rewrite filter_app, length_app. lia.
Qed.

Lemma count_active_le_length (l : list Agent) :
  (count_active l <= Z.of_nat (List.length l))%Z.
Proof.
  unfold count_active. pose proof (filter_length_le active l). lia.
Qed.

(** A position-wise change that never switches an operator on cannot raise
    the active count. *)
Lemma count_active_Forall2_le (l l' : list Agent) :
  Forall2 (fun a a' => active a' = true -> active a = true) l l' ->
  (count_active l' <= count_active l)%Z.
Proof.
  unfold count_active. induction 1 as [|a a' l l' Hrel Hrest IH]; [lia|].
  cbn. destruct (active a') eqn:Ha'.
  - rewrite (Hrel eq_refl). cbn. lia.
  - destruct (active a); cbn; lia.
Qed.

Section Coverage.
Context {G : Type} `{Generator G}.
Variables OU_KAPPA OU_SIGMA : R.

(** ** The initial population *)

Lemma py_int_forty_percent (n : Z) :
  (0 <= n)%Z -> py_int (IZR n * 0.40) = (2 * n / 5)%Z.
Proof.
  intros Hn.
  replace (IZR n * 0.40) with (IZR (2 * n) / IZR 5)
    by (rewrite mult_IZR; lra).
  apply py_int_ratio; lia.
Qed.

Lemma py_int_thirty_percent (n : Z) :
  (0 <= n)%Z -> py_int (IZR n * 0.30) = (3 * n / 10)%Z.
Proof.
  intros Hn.
  replace (IZR n * 0.30) with (IZR (3 * n) / IZR 10)
    by (rewrite mult_IZR; lra).
  apply py_int_ratio; lia.
Qed.

Lemma py_int_fifteen_percent (n : Z) :
  (0 <= n)%Z -> py_int (IZR n * 0.15) = (3 * n / 20)%Z.
Proof.
  intros Hn.
  replace (IZR n * 0.15) with (IZR (3 * n) / IZR 20)
    by (rewrite mult_IZR; lra).
  apply py_int_ratio; lia.
Qed.

Lemma create_from_built (types : list Template) :
  forall (i : Z) (g : G),
  Forall2 built_from types (fst (create_from i types g)) /\
  (forall k a, nth_error (fst (create_from i types g)) k = Some a ->
     agent_id a = (i + Z.of_nat k)%Z).
Proof.
  induction types as [|[[[[ty et] ps] ub] fp] rest IH]; intros i g.
  - split; [constructor|]. intros k a Hk. destruct k; discriminate.
  - cbn [create_from].
    destruct (rng_normal 0 0.01 g) as [d g1].
    pose proof (rng_integers_range 0 20000 g1 eq_refl) as Hk.
    destruct (rng_integers 0 20000 g1) as [k0 g2].
    destruct (IH (i + 1)%Z g2) as [IHb IHid].
    destruct (create_from (i + 1) rest g2) as [agents g3].
    cbn [fst] in *. split.
    + constructor; [|exact IHb].
      unfold built_from. cbn [agent_type exit_threshold price_sensitivity
        uptime fraud_prob stake reputation active seasons_active fst snd].
      repeat split; try reflexivity; try lia; try lra.
      eapply Rle_trans; [apply Rmin_l | lra].
    + intros k a Hnth. destruct k as [|k]; cbn in Hnth.
      * injection Hnth as <-. cbn. lia.
      * rewrite (IHid k a Hnth). lia.
Qed.

Lemma filter_repeat {A : Type} (f : A -> bool) (x : A) (n : nat) :
  List.length (filter f (repeat x n)) = if f x then n else O.
Proof.
  induction n as [|n IH]; cbn.
  - destruct (f x); reflexivity.
  - destruct (f x) eqn:Hf; cbn; [rewrite IH; reflexivity | exact IH].
Qed.

Lemma count_type_built (ty : OperatorType) (types : list Template)
    (agents : list Agent) :
  Forall2 built_from types agents ->
  count_type ty agents
    = List.length
        (filter (fun tpl => type_eqb (fst (fst (fst (fst tpl)))) ty) types).
Proof.
  unfold count_type. induction 1 as [|tpl a types agents Hb Hrest IH].
  - reflexivity.
  - cbn. destruct Hb as [Hty _]. rewrite Hty.
    destruct (type_eqb _ ty); cbn; rewrite IH; reflexivity.
Qed.

Lemma operator_templates_length (n : Z) :
  (0 <= n)%Z -> List.length (operator_templates n) = Z.to_nat n.
Proof.
  intros Hn.
  assert (H40 : (0 <= 2 * n / 5)%Z) by (apply Z.div_pos; lia).
  assert (H30 : (0 <= 3 * n / 10)%Z) by (apply Z.div_pos; lia).
  assert (H15 : (0 <= 3 * n / 20)%Z) by (apply Z.div_pos; lia).
  pose proof (Z.mul_div_le (2 * n) 5 ltac:(lia)).
  pose proof (Z.mul_div_le (3 * n) 10 ltac:(lia)).
  pose proof (Z.mul_div_le (3 * n) 20 ltac:(lia)).
  unfold operator_templates.
  rewrite py_int_forty_percent, py_int_thirty_percent,
    py_int_fifteen_percent by exact Hn.
  rewrite !length_app, !repeat_length. lia.
Qed.

(** The seeded population: [create_operators n] returns exactly [n]
    operators, numbered by position; two fifths (rounded down) are
    high-commitment and three twentieths mercenary, the rest casual; only
    mercenaries have a fraud probability; every operator starts active, with
    no reputation or season, a stake in [10000, 30000) and an uptime of at
    most 1. *)
Theorem create_operators_population (n : Z) (rng : G) :
  (0 <= n)%Z ->
  let agents := fst (create_operators n rng) in
  List.length agents = Z.to_nat n /\
  ids_are_positions agents /\
  count_type high_commitment agents = Z.to_nat (2 * n / 5) /\
  count_type mercenary agents = Z.to_nat (3 * n / 20) /\
  count_type casual agents = Z.to_nat (n - 2 * n / 5 - 3 * n / 20) /\
  Forall (fun a =>
            active a = true /\ reputation a = 0 /\ seasons_active a = 0%Z /\
            (10000 <= stake a < 30000)%Z /\ uptime a <= 1 /\
            (0 < fraud_prob a <-> agent_type a = mercenary)) agents.
Proof.
  intros Hn agents.
  destruct (create_from_built (operator_templates n) 0 rng) as [Hb Hid].
  fold (create_operators n rng) in Hb, Hid. fold agents in Hb, Hid.
  assert (H40 : (0 <= 2 * n / 5)%Z) by (apply Z.div_pos; lia).
  assert (H30 : (0 <= 3 * n / 10)%Z) by (apply Z.div_pos; lia).
  assert (H15 : (0 <= 3 * n / 20)%Z) by (apply Z.div_pos; lia).
  assert (Hsum : (2 * n / 5 + 3 * n / 10 + 3 * n / 20 <= n)%Z).
  { pose proof (Z.mul_div_le (2 * n) 5 ltac:(lia)).
    pose proof (Z.mul_div_le (3 * n) 10 ltac:(lia)).
    pose proof (Z.mul_div_le (3 * n) 20 ltac:(lia)). lia. }
  assert (Hcount : forall ty,
            count_type ty agents
            = ((if type_eqb high_commitment ty then Z.to_nat (2 * n / 5)
                else O)
               + ((if type_eqb casual ty then Z.to_nat (3 * n / 10) else O)
                  + ((if type_eqb mercenary ty then Z.to_nat (3 * n / 20)
                      else O)
                     + (if type_eqb casual ty
                        then Z.to_nat (n - 2 * n / 5 - 3 * n / 10
                                       - 3 * n / 20)
                        else O))))%nat).
  { intros ty. rewrite (count_type_built ty _ _ Hb).
    unfold operator_templates.
    rewrite py_int_forty_percent, py_int_thirty_percent,
      py_int_fifteen_percent by exact Hn.
    rewrite !filter_app, !length_app, !filter_repeat. reflexivity. }
  split; [|split; [|split; [|split; [|split]]]].
  - rewrite <- (Forall2_length Hb). unfold operator_templates.
    rewrite py_int_forty_percent, py_int_thirty_percent,
      py_int_fifteen_percent by exact Hn.
    rewrite !length_app, !repeat_length. lia.
  - intros i a Hi. rewrite (Hid i a Hi). lia.
  - rewrite Hcount. cbn [type_eqb]. lia.
  - rewrite Hcount. cbn [type_eqb]. lia.
  - rewrite Hcount. cbn [type_eqb]. lia.
  - apply Forall_forall. intros a Hin.
    assert (Hex : exists tpl, In tpl (operator_templates n)
                              /\ built_from tpl a).
    { clear -Hb Hin. induction Hb as [|t0 a0 ts as0 Hb0 Hrest IH].
      - contradiction.
      - destruct Hin as [<- | Hin].
        + exists t0. split; [left; reflexivity | exact Hb0].
        + destruct (IH Hin) as [t1 [Ht1 Hb1]].
          exists t1. split; [right; exact Ht1 | exact Hb1]. }
    destruct Hex as [tpl [Htpl Hbuilt]].
    destruct Hbuilt as [Hty [_ [_ [Hup [Hfp [Hst [Hrep [Hact Hsea]]]]]]]].
    assert (Hcases : tpl = (high_commitment, 0.3, 0.2, 0.995, 0.0)
                     \/ tpl = (casual, 0.8, 0.6, 0.95, 0.0)
                     \/ tpl = (mercenary, 1.2, 0.9, 0.85, 0.15)).
    { unfold operator_templates in Htpl.
      repeat (apply in_app_or in Htpl; destruct Htpl as [Htpl | Htpl]);
        apply repeat_spec in Htpl; auto. }
    split; [exact Hact|]. split; [exact Hrep|]. split; [exact Hsea|].
    split; [exact Hst|]. split; [exact Hup|].
    rewrite Hty, Hfp.
    destruct Hcases as [-> | [-> | ->]]; cbn [fst snd]; split; intros Hx;
      try reflexivity; try discriminate; lra.
Qed.

(** ** Invariants of the population, stage by stage *)

(** A property of the operator list that each stage of the lifecycle update
    keeps is kept by [update_operators]. *)
Lemma update_operators_invariant (Inv : list Agent -> Prop) :
  (forall sd sf poe pof P cost l sl fr (g : G),
     Inv l ->
     Inv (fst (fst (fst (operators_loop sd sf poe pof P cost l sl fr g))))) ->
  (forall k l (g : G), Inv l -> Inv (fst (append_entrants k l g))) ->
  (forall n l p, Inv l -> Inv (poach n l p)) ->
  forall agents E F_daily N P scenario t (rng : G) T cost_mult
         slash_downtime slash_fraud,
  Inv agents ->
  Inv (fst (fst (fst (fst
    (update_operators agents E F_daily N P scenario t rng T cost_mult
                      slash_downtime slash_fraud))))).
Proof.
  intros Hloop Happ Hpoach agents E F_daily N P scenario t rng T cost_mult
         slash_downtime slash_fraud Hinv.
  destruct (Z.eq_dec (count_active agents) 0) as [H0|Hn0].
  - rewrite update_operators_idle by exact H0. exact Hinv.
  - destruct (after_lifecycle_loop agents E F_daily P rng cost_mult
                slash_downtime slash_fraud) as [[[looped sl] fr] g1] eqn:Hl.
    rewrite (update_operators_stages agents E F_daily N P scenario t rng T
               cost_mult slash_downtime slash_fraud Hn0 _ _ _ _ Hl).
    cbn [fst].
    assert (Hlooped : Inv looped).
    { unfold after_lifecycle_loop in Hl.
      destruct (rng_normal 0 0.5 rng) as [z g0].
      match type of Hl with
      | operators_loop ?sd ?sf ?poe ?pof ?P ?cost ?l ?s0 ?f0 ?g = _ =>
          pose proof (Hloop sd sf poe pof P cost l s0 f0 g Hinv) as Hx
      end.
      rewrite Hl in Hx. exact Hx. }
    assert (Hentered : Inv (fst
      (if Rlt_dec (2.0 * OPPORTUNITY_COST)
            ((E / IZR (Z.max (count_active agents) 1) +
              F_daily * (1 - PROTOCOL_FEE)
                / IZR (Z.max (count_active agents) 1)) * P)
       then append_entrants (Z.to_nat (new_count (count_active looped)))
                            looped g1
       else (looped, g1)))).
    { destruct (Rlt_dec _ _); [apply Happ; exact Hlooped | exact Hlooped]. }
    destruct (_ && _); [apply Hpoach; exact Hentered | exact Hentered].
Qed.

Lemma operators_loop_Forall (Q : Agent -> Prop) sd sf poe pof P cost :
  (forall a sl fr (g : G),
     Q a -> Q (fst (fst (fst (operator_day sd sf poe pof P cost a sl fr g))))) ->
  forall l sl fr (g : G),
  Forall Q l ->
  Forall Q (fst (fst (fst (operators_loop sd sf poe pof P cost l sl fr g)))).
Proof.
  intros Hday l sl fr g Hall. apply Forall_nth_error. intros i a' Hi.
  rewrite Forall_forall in Hall.
  destruct (nth_error l i) as [a|] eqn:Ha.
  - destruct (operators_loop_nth sd sf poe pof P cost l sl fr g i a Ha)
      as [a1 [H1 [Hoff Hon]]].
    assert (a1 = a') by congruence. subst a1.
    assert (HQ : Q a) by (apply Hall; eapply nth_error_In; eauto).
    destruct (active a) eqn:Hact.
    + destruct (Hon eq_refl) as [sl0 [fr0 [g0 ->]]]. apply Hday. exact HQ.
    + rewrite (Hoff eq_refl). exact HQ.
  - apply nth_error_None in Ha.
    pose proof (operators_loop_length sd sf poe pof P cost l sl fr g) as Hlen.
    assert (i < List.length l)%nat.
    { rewrite <- Hlen. apply nth_error_Some. congruence. }
    lia.
Qed.

Lemma append_entrants_Forall (Q : Agent -> Prop) :
  (forall next_id (g : G), Q (fst (new_entrant next_id g))) ->
  forall k l (g : G),
  Forall Q l -> Forall Q (fst (append_entrants k l g)).
Proof.
  intros Hnew k l g Hall.
  destruct (append_entrants_app k l g) as [ext [-> [_ Hext]]].
  apply Forall_app. split; [exact Hall|].
  eapply Forall_impl; [|exact Hext].
  intros e [next_id [g0 ->]]. apply Hnew.
Qed.

Lemma poach_Forall (Q : Agent -> Prop) :
  (forall a, Q a -> Q (set_active a false)) ->
  forall n l p, Forall Q l -> Forall Q (poach n l p).
Proof.
  intros Hoff n l. induction l as [|a l IH]; intros p Hall; [constructor|].
  inversion Hall as [|? ? Ha Hl]; subst. cbn [poach].
  destruct (_ && _); constructor; auto.
Qed.

Lemma update_operators_Forall (Q : Agent -> Prop) :
  (forall sd sf poe pof P cost a sl fr (g : G),
     Q a -> Q (fst (fst (fst (operator_day sd sf poe pof P cost a sl fr g))))) ->
  (forall next_id (g : G), Q (fst (new_entrant next_id g))) ->
  (forall a, Q a -> Q (set_active a false)) ->
  forall agents E F_daily N P scenario t (rng : G) T cost_mult
         slash_downtime slash_fraud,
  Forall Q agents ->
  Forall Q (fst (fst (fst (fst
    (update_operators agents E F_daily N P scenario t rng T cost_mult
                      slash_downtime slash_fraud))))).
Proof.
  intros Hday Hnew Hoff.
  apply (update_operators_invariant (Forall Q)).
  - intros. apply operators_loop_Forall; auto.
  - intros. apply append_entrants_Forall; auto.
  - intros. apply poach_Forall; auto.
Qed.


(** *** Ids *)

Lemma ids_preserved (l l' : list Agent) :
  List.length l' = List.length l ->
  (forall i a, nth_error l i = Some a ->
     exists a', nth_error l' i = Some a' /\ agent_id a' = agent_id a) ->
  ids_are_positions l -> ids_are_positions l'.
Proof.
  intros Hlen Hnth Hids i a' Hi.
  destruct (nth_error l i) as [a|] eqn:Ha.
  - destruct (Hnth i a Ha) as [a1 [H1 Hid]].
    assert (a1 = a') by congruence. subst a1.
    rewrite Hid. apply Hids. exact Ha.
  - apply nth_error_None in Ha.
    assert (i < List.length l')%nat by (apply nth_error_Some; congruence).
    lia.
Qed.

Lemma new_entrant_id (next_id : Z) (g : G) :
  agent_id (fst (new_entrant next_id g)) = next_id.
Proof.
  unfold new_entrant.
  destruct (rng_choice [0.5; 0.35; 0.15] g) as [i g1].
  destruct (rng_choice [0.5; 0.35; 0.15] g1) as [j g2].
  destruct (rng_uniform 0.2 0.9 g2) as [ps g3].
  destruct (rng_normal 0 0.02 g3) as [d g4].
  destruct (rng_random g4) as [r g5].
  destruct (rng_integers 0 20000 g5) as [k g6].
  reflexivity.
Qed.

Lemma append_entrants_ids (k : nat) :
  forall l (g : G),
  ids_are_positions l -> ids_are_positions (fst (append_entrants k l g)).
Proof.
  induction k as [|k IH]; intros l g Hids; [exact Hids|].
  cbn [append_entrants].
  destruct (new_entrant (Z.of_nat (List.length l)) g) as [e g1] eqn:He.
  apply IH. intros i a Hi.
  destruct (Nat.lt_ge_cases i (List.length l)) as [Hlt | Hge].
  - rewrite nth_error_app1 in Hi by exact Hlt. apply Hids. exact Hi.
  - rewrite nth_error_app2 in Hi by exact Hge.
    destruct (i - List.length l)%nat as [|m] eqn:Hm; cbn in Hi.
    + injection Hi as <-.
      pose proof (new_entrant_id (Z.of_nat (List.length l)) g) as Hid.
      rewrite He in Hid. cbn [fst] in Hid. rewrite Hid. f_equal. lia.
    + destruct m; discriminate.
Qed.

Lemma update_operators_ids agents E F_daily N P scenario t (rng : G) T
    cost_mult slash_downtime slash_fraud :
  ids_are_positions agents ->
  ids_are_positions (fst (fst (fst (fst
    (update_operators agents E F_daily N P scenario t rng T cost_mult
                      slash_downtime slash_fraud))))).
Proof.
  apply (update_operators_invariant ids_are_positions).
  - intros sd sf poe pof P0 cost l sl fr g Hids.
    apply (ids_preserved l); [apply operators_loop_length | | exact Hids].
    intros i a Ha.
    destruct (operators_loop_nth sd sf poe pof P0 cost l sl fr g i a Ha)
      as [a1 [H1 [Hoff Hon]]].
    exists a1. split; [exact H1|].
    destruct (active a) eqn:Hact.
    + destruct (Hon eq_refl) as [sl0 [fr0 [g0 ->]]]. apply operator_day_frame.
    + rewrite (Hoff eq_refl). reflexivity.
  - intros. apply append_entrants_ids. assumption.
  - intros n l p Hids.
    apply (ids_preserved l); [apply poach_length | | exact Hids].
    intros i a Ha. destruct (poach_nth n l p i a Ha) as [a' [Ha' Hrel]].
    exists a'. split; [exact Ha'|].
    destruct Hrel as [-> | [_ ->]]; reflexivity.
Qed.

Lemma update_reputation_ids (l : list Agent) (t : Z) :
  ids_are_positions l -> ids_are_positions (update_reputation l t).
Proof.
  intros Hids.
  apply (ids_preserved l); [apply update_reputation_length | | exact Hids].
  intros i a Ha. destruct (update_reputation_nth l t i a Ha) as [a' [Ha' Hr]].
  exists a'. split; [exact Ha'|].
  destruct Hr as [-> | [_ ->]]; [reflexivity|].
  unfold reputation_season. destruct (Rlt_dec _ _); reflexivity.
Qed.

Lemma new_entrant_fresh (next_id : Z) (g : G) :
  reputation (fst (new_entrant next_id g)) = 0 /\
  seasons_active (fst (new_entrant next_id g)) = 0%Z /\
  active (fst (new_entrant next_id g)) = true.
Proof.
  unfold new_entrant.
  destruct (rng_choice [0.5; 0.35; 0.15] g) as [i g1].
  destruct (rng_choice [0.5; 0.35; 0.15] g1) as [j g2].
  destruct (rng_uniform 0.2 0.9 g2) as [ps g3].
  destruct (rng_normal 0 0.02 g3) as [d g4].
  destruct (rng_random g4) as [r g5].
  destruct (rng_integers 0 20000 g5) as [k g6].
  cbn. repeat split; lra.
Qed.

(** ** How the active count moves *)

Lemma count_active_Forall (l : list Agent) :
  Forall (fun a => active a = true) l ->
  count_active l = Z.of_nat (List.length l).
Proof.
  unfold count_active. induction 1 as [|a l Ha Hl IH]; [reflexivity|].
  cbn. rewrite Ha. cbn. lia.
Qed.

(** The daily loop only ever switches operators off. *)
Lemma operators_loop_count sd sf poe pof P cost (l : list Agent) :
  forall sl fr (g : G),
  (count_active
     (fst (fst (fst (operators_loop sd sf poe pof P cost l sl fr g))))
   <= count_active l)%Z.
Proof.
  intros sl fr g. apply count_active_Forall2_le, Forall2_of_nth_error.
  - apply operators_loop_length.
  - intros i a Hi.
    destruct (operators_loop_nth sd sf poe pof P cost l sl fr g i a Hi)
      as [a' [H1 [Hoff Hon]]].
    exists a'. split; [exact H1|]. intros Ha'.
    destruct (active a) eqn:Hact; [reflexivity|].
    rewrite (Hoff eq_refl) in Ha'. congruence.
Qed.

Lemma append_entrants_count (k : nat) (l : list Agent) (g : G) :
  count_active (fst (append_entrants k l g))
    = (count_active l + Z.of_nat k)%Z.
Proof.
  destruct (append_entrants_app k l g) as [ext [-> [Hlen Hext]]].
  rewrite count_active_app. f_equal. rewrite <- Hlen.
  apply count_active_Forall. eapply Forall_impl; [|exact Hext].
  intros e [next_id [g0 ->]]. apply new_entrant_fresh.
Qed.

Lemma poach_count_le (n : Z) (l : list Agent) (p : Z) :
  (count_active (poach n l p) <= count_active l)%Z.
Proof.
  apply count_active_Forall2_le, Forall2_of_nth_error.
  - apply poach_length.
  - intros i a Hi. destruct (poach_nth n l p i a Hi) as [a' [H1 Hc]].
    exists a'. split; [exact H1|].
    destruct Hc as [-> | [Ha ->]]; [auto | intros _; exact Ha].
Qed.

Lemma reputation_season_active (a : Agent) :
  active (reputation_season a) = active a.
Proof. unfold reputation_season. destruct (Rlt_dec _ _); reflexivity. Qed.

Lemma update_reputation_count (l : list Agent) (t : Z) :
  count_active (update_reputation l t) = count_active l.
Proof.
  unfold update_reputation.
  destruct (_ || _); [reflexivity|].
  destruct (_ =? _)%Z; [reflexivity|].
  unfold count_active. f_equal.
  induction l as [|a l IH]; [reflexivity|].
  cbn [map filter]. destruct (active a) eqn:Ha.
  - rewrite reputation_season_active, Ha. cbn. f_equal. exact IH.
  - rewrite Ha. exact IH.
Qed.

(** The entrant count: never above 30, nothing at 33 active operators or
    fewer (3% of them rounds down to zero), nothing from 12000 on, and never
    enough to carry the count past 12000. *)
Lemma new_count_bounds (ac : Z) :
  (0 <= ac)%Z ->
  (0 <= new_count ac <= 30)%Z /\
  (ac <= 33 -> new_count ac = 0)%Z /\
  (12000 <= ac -> new_count ac = 0)%Z /\
  (ac <= 12000 -> ac + new_count ac <= 12000)%Z.
Proof.
  intros Hac. unfold new_count.
  assert (Hb : (0 <= base_new ac <= 30)%Z /\ (ac <= 33 -> base_new ac = 0)%Z).
  { unfold base_new, ENTRY_CAP_ABS. rewrite py_int_three_percent by exact Hac.
    assert (0 <= 3 * ac / 100)%Z by (apply Z.div_pos; lia).
    split; [lia|]. intros Hsmall.
    assert (3 * ac / 100 < 1)%Z by (apply Z.div_lt_upper_bound; lia). lia. }
  destruct Hb as [[Hb0 Hb30] Hbz].
  assert (Hf : 0 <= entry_factor ac <= 1 /\
               ((12000 <= ac)%Z -> entry_factor ac = 0) /\
               ((10000 < ac <= 12000)%Z ->
                entry_factor ac = IZR (12000 - ac) / 2000)).
  { unfold entry_factor, N_TARGET.
    destruct (10000 <? ac)%Z eqn:Hlt.
    - apply Z.ltb_lt in Hlt. apply IZR_lt in Hlt.
      rewrite !minus_IZR. unfold Rmax.
      destruct (Rle_dec _ _) as [Hle | Hgt].
      + split; [split; lra|]. split.
        * intros Hge. apply IZR_le in Hge. lra.
        * intros [_ Hle']. apply IZR_le in Hle'. lra.
      + split; [lra|]. split; [intros _; lra|].
        intros [_ Hle']. apply IZR_le in Hle'. lra.
    - apply Z.ltb_ge in Hlt. split; [lra|]. split; intros; lia. }
  destruct Hf as [[Hf0 Hf1] [Hfz Hft]].
  apply IZR_le in Hb0 as Hb0R. apply IZR_le in Hb30 as Hb30R.
  set (x := IZR (base_new ac) * entry_factor ac) in *.
  assert (Hx0 : 0 <= x) by (apply Rmult_le_pos; assumption).
  assert (Hx30 : x <= 30).
  { unfold x. replace 30 with (30 * 1) by lra.
    apply Rmult_le_compat; lra. }
  pose proof (py_int_nonneg x Hx0) as Hp0.
  pose proof (py_int_le x 30 Hx30 ltac:(lia)) as Hp30.
  rewrite Z.max_r by exact Hp0.
  assert (Hzero : x = 0 -> py_int x = 0%Z).
  { intros ->. apply (py_int_IZR 0). lia. }
  split; [lia|]. split; [|split].
  - intros Hsmall. apply Hzero. unfold x. rewrite (Hbz Hsmall). lra.
  - intros Hbig. apply Hzero. unfold x. rewrite (Hfz Hbig). lra.
  - intros Hle. destruct (Z_le_gt_dec ac 10000) as [Hlow | Hhigh]; [lia|].
    assert (Hef : entry_factor ac = IZR (12000 - ac) / 2000)
      by (apply Hft; lia).
    assert (Hroom : 0 <= IZR (12000 - ac)) by (apply IZR_le; lia).
    assert (Hxle : x <= IZR (12000 - ac)).
    { unfold x. rewrite Hef.
      replace (IZR (12000 - ac)) with (2000 * (IZR (12000 - ac) / 2000))
        at 2 by lra.
      apply Rmult_le_compat_r; lra. }
    pose proof (py_int_le x (12000 - ac) Hxle ltac:(lia)). lia.
Qed.

(** One lifecycle call and the active count: at most 30 more than on
    entry, not more than on entry when that was 33 or fewer, and not above
    12000 if it was not on entry. *)
Lemma update_operators_count agents E F_daily N P scenario t (rng : G) T
    cost_mult slash_downtime slash_fraud :
  let n0 := count_active agents in
  let n1 := count_active (fst (fst (fst (fst
      (update_operators agents E F_daily N P scenario t rng T cost_mult
                        slash_downtime slash_fraud))))) in
  (n1 <= n0 + 30)%Z /\ (n0 <= 33 -> n1 <= n0)%Z /\
  (n0 <= 12000 -> n1 <= 12000)%Z.
Proof.
  cbv zeta. destruct (Z.eq_dec (count_active agents) 0) as [H0|Hn0].
  - rewrite update_operators_idle by exact H0. cbn [fst]. lia.
  - destruct (after_lifecycle_loop agents E F_daily P rng cost_mult
                slash_downtime slash_fraud) as [[[looped sl] fr] g1] eqn:Hloop.
    rewrite (update_operators_stages agents E F_daily N P scenario t rng T
               cost_mult slash_downtime slash_fraud Hn0 looped sl fr g1 Hloop).
    cbn [fst].
    assert (HL : (count_active looped <= count_active agents)%Z).
    { unfold after_lifecycle_loop in Hloop.
      destruct (rng_normal 0 0.5 rng) as [z g0].
      match type of Hloop with
      | operators_loop ?sd ?sf ?poe ?pof ?P0 ?c ?l ?s0 ?f0 ?g = _ =>
          pose proof (operators_loop_count sd sf poe pof P0 c l s0 f0 g) as Hc;
          rewrite Hloop in Hc
      end.
      exact Hc. }
    pose proof (count_active_nonneg looped) as HL0.
    destruct (new_count_bounds (count_active looped) HL0)
      as [[Hn0' Hn30] [Hsmall [Hbig Hroom]]].
    match goal with
    | |- context [fst (if ?c then _ else _)] =>
        assert (HE : (count_active (fst (if c
                        then append_entrants
                               (Z.to_nat (new_count (count_active looped)))
                               looped g1
                        else (looped, g1)))
                      <= count_active looped
                         + new_count (count_active looped))%Z)
    end.
    { destruct (Rlt_dec _ _); cbn [fst].
      - rewrite append_entrants_count. lia.
      - lia. }
    match goal with
    | |- context [count_active (if ?c then poach ?n ?l 0 else ?l)] =>
        assert (HP : (count_active (if c then poach n l 0 else l)
                      <= count_active l)%Z)
          by (destruct c; [apply poach_count_le | lia])
    end.
    split; [lia|]. split; [intros Hs; specialize (Hsmall ltac:(lia)); lia|].
    intros Hcap. specialize (Hroom ltac:(lia)). lia.
Qed.

(** ** Slashing moves stake, it does not create or destroy it *)

Ltac split_day :=
  repeat match goal with
  | |- context [rng_normal ?m ?s ?g] => destruct (rng_normal m s g)
  | |- context [rng_random ?g] => destruct (rng_random g)
  | |- context [Rlt_dec ?x ?y] => destruct (Rlt_dec x y)
  | |- context [(?x <=? 0)%Z] => destruct (x <=? 0)%Z eqn:?
  end; cbn.

Lemma operator_day_conserves sd sf poe pof P cost (a : Agent) sl fr (g : G) :
  let out := operator_day sd sf poe pof P cost a sl fr g in
  (stake (fst (fst (fst out))) + snd (fst (fst out)) = stake a + sl)%Z.
Proof.
  unfold operator_day. cbn. split_day; lia.
Qed.

Lemma slash_amount_nonneg (s : Z) (penalty : R) :
  (0 <= s)%Z -> 0 <= penalty -> (0 <= py_int (IZR s * penalty))%Z.
Proof.
  intros Hs Hp. apply py_int_nonneg. apply Rmult_le_pos; [|exact Hp].
  apply IZR_le. exact Hs.
Qed.

Lemma operator_day_slashed sd sf poe pof P cost (a : Agent) sl fr (g : G) :
  0 <= sd <= 1 -> 0 <= sf <= 1 -> (0 <= stake a)%Z ->
  (sl <= snd (fst (fst (operator_day sd sf poe pof P cost a sl fr g))))%Z.
Proof.
  intros [Hsd0 Hsd1] [Hsf0 Hsf1] Hst. unfold operator_day. cbn.
  pose proof (slash_amount_nonneg (stake a) sd Hst Hsd0) as H1.
  pose proof (slash_amount_nonneg (stake a) sf Hst Hsf0) as H2.
  pose proof (slash_keeps_stake (stake a) sd Hst Hsd1) as H3.
  pose proof (slash_amount_nonneg _ sf H3 Hsf0) as H4.
  split_day; lia.
Qed.

Lemma sum_stake_cons (a : Agent) (l : list Agent) :
  sum_stake (a :: l) = (stake a + sum_stake l)%Z.
Proof. reflexivity. Qed.

Lemma operators_loop_conserves sd sf poe pof P cost (l : list Agent) :
  forall sl fr (g : G),
  let out := operators_loop sd sf poe pof P cost l sl fr g in
  (sum_stake (fst (fst (fst out))) + snd (fst (fst out))
   = sum_stake l + sl)%Z.
Proof.
  induction l as [|a l IH]; intros sl fr g; [reflexivity|].
  cbv zeta. cbn [operators_loop].
  pose proof (operator_day_conserves sd sf poe pof P cost a sl fr g) as Hday.
  cbv zeta in Hday.
  destruct (operator_day sd sf poe pof P cost a sl fr g)
    as [[[a1 sl1] fr1] g1].
  cbn [fst snd] in Hday.
  destruct (active a).
  - specialize (IH sl1 fr1 g1). cbv zeta in IH.
    destruct (operators_loop sd sf poe pof P cost l sl1 fr1 g1)
      as [[[l' sl2] fr2] g2].
    cbn [fst snd] in *. rewrite !sum_stake_cons. lia.
  - specialize (IH sl fr g). cbv zeta in IH.
    destruct (operators_loop sd sf poe pof P cost l sl fr g)
      as [[[l' sl2] fr2] g2].
    cbn [fst snd] in *. rewrite !sum_stake_cons. lia.
Qed.

Lemma operators_loop_slashed sd sf poe pof P cost (l : list Agent) :
  0 <= sd <= 1 -> 0 <= sf <= 1 ->
  Forall (fun a => (0 <= stake a)%Z) l ->
  forall sl fr (g : G),
  (sl <= snd (fst (fst (operators_loop sd sf poe pof P cost l sl fr g))))%Z.
Proof.
  intros Hsd Hsf. induction 1 as [|a l Ha Hl IH]; intros sl fr g.
  - cbn. lia.
  - cbn [operators_loop].
    pose proof (operator_day_slashed sd sf poe pof P cost a sl fr g
                  Hsd Hsf Ha) as Hday.
    destruct (operator_day sd sf poe pof P cost a sl fr g)
      as [[[a1 sl1] fr1] g1].
    cbn [fst snd] in Hday.
    destruct (active a).
    + specialize (IH sl1 fr1 g1).
      destruct (operators_loop sd sf poe pof P cost l sl1 fr1 g1)
        as [[[l' sl2] fr2] g2].
      cbn [fst snd] in *. lia.
    + specialize (IH sl fr g).
      destruct (operators_loop sd sf poe pof P cost l sl fr g)
        as [[[l' sl2] fr2] g2].
      cbn [fst snd] in *. lia.
Qed.

Lemma sum_stake_map (l l' : list Agent) :
  map stake l = map stake l' -> sum_stake l = sum_stake l'.
Proof.
  revert l'. induction l as [|a l IH]; intros [|b l'] Heq;
    try discriminate; [reflexivity|].
  cbn in Heq. injection Heq as Hab Hrest.
  rewrite !sum_stake_cons, Hab, (IH l' Hrest). reflexivity.
Qed.

Lemma poach_stakes (n : Z) (l : list Agent) :
  forall p, map stake (poach n l p) = map stake l.
Proof.
  induction l as [|a l IH]; intros p; [reflexivity|].
  cbn [poach]. destruct (_ && _); cbn [map]; rewrite IH; reflexivity.
Qed.

(** The slashed total of a call is non-negative when the penalties are
    fractions and no stake is negative. *)
Lemma update_operators_slashed agents E F_daily N P scenario t (rng : G) T
    cost_mult slash_downtime slash_fraud :
  0 <= or_default slash_downtime SLASH_DOWNTIME <= 1 ->
  0 <= or_default slash_fraud SLASH_FRAUD <= 1 ->
  Forall (fun a => (0 <= stake a)%Z) agents ->
  (0 <= snd (fst (fst (fst
     (update_operators agents E F_daily N P scenario t rng T cost_mult
                       slash_downtime slash_fraud)))))%Z.
Proof.
  intros Hsd Hsf Hall.
  destruct (Z.eq_dec (count_active agents) 0) as [H0|Hn0].
  - rewrite update_operators_idle by exact H0. cbn. lia.
  - destruct (after_lifecycle_loop agents E F_daily P rng cost_mult
                slash_downtime slash_fraud) as [[[looped sl] fr] g1] eqn:Hloop.
    rewrite (update_operators_stages agents E F_daily N P scenario t rng T
               cost_mult slash_downtime slash_fraud Hn0 looped sl fr g1 Hloop).
    cbn [fst snd].
    unfold after_lifecycle_loop in Hloop.
    destruct (rng_normal 0 0.5 rng) as [z g0].
    match type of Hloop with
    | operators_loop ?sd ?sf ?poe ?pof ?P0 ?c ?l ?s0 ?f0 ?g = _ =>
        pose proof (operators_loop_slashed sd sf poe pof P0 c l Hsd Hsf Hall
                      s0 f0 g) as Hc;
        rewrite Hloop in Hc
    end.
    exact Hc.
Qed.

Lemma firstn_length_app {A : Type} (l ext : list A) :
  firstn (List.length l) (l ++ ext) = l.
Proof.
  induction l as [|x l IH]; [destruct ext; reflexivity|].
  cbn. f_equal. exact IH.
Qed.

(** Slashing is a transfer out of the operators' stakes: the amount one
    lifecycle call reports as slashed is exactly the stake that the
    operators present on entry have lost during the call; nothing else
    (exit, poaching, the arrival of entrants) touches their stake. *)
Theorem slashing_conserves_stake agents E F_daily N P scenario t (rng : G) T
    cost_mult slash_downtime slash_fraud :
  let out := update_operators agents E F_daily N P scenario t rng T cost_mult
                              slash_downtime slash_fraud in
  let agents' := fst (fst (fst (fst out))) in
  let slashed := snd (fst (fst (fst out))) in
  (slashed + sum_stake (firstn (List.length agents) agents')
   = sum_stake agents)%Z.
Proof.
  cbv zeta. destruct (Z.eq_dec (count_active agents) 0) as [H0|Hn0].
  - rewrite update_operators_idle by exact H0. cbn [fst snd].
    rewrite firstn_all. lia.
  - destruct (after_lifecycle_loop agents E F_daily P rng cost_mult
                slash_downtime slash_fraud) as [[[looped sl] fr] g1] eqn:Hloop.
    rewrite (update_operators_stages agents E F_daily N P scenario t rng T
               cost_mult slash_downtime slash_fraud Hn0 looped sl fr g1 Hloop).
    cbn [fst snd].
    unfold after_lifecycle_loop in Hloop.
    destruct (rng_normal 0 0.5 rng) as [z g0].
    match type of Hloop with
    | operators_loop ?sd ?sf ?poe ?pof ?P0 ?c ?l ?s0 ?f0 ?g = _ =>
        pose proof (operators_loop_conserves sd sf poe pof P0 c l s0 f0 g)
          as Hc;
        pose proof (operators_loop_length sd sf poe pof P0 c l s0 f0 g)
          as Hlen;
        cbv zeta in Hc; rewrite Hloop in Hc, Hlen
    end.
    cbn [fst snd] in Hc, Hlen.
    match goal with
    | |- context [fst (if ?c then _ else _)] =>
        assert (HE : firstn (List.length agents)
                       (fst (if c
                             then append_entrants
                                    (Z.to_nat (new_count (count_active looped)))
                                    looped g1
                             else (looped, g1))) = looped)
    end.
    { rewrite <- Hlen. destruct (Rlt_dec _ _); cbn [fst].
      - destruct (append_entrants_app
                    (Z.to_nat (new_count (count_active looped))) looped g1)
          as [ext [-> _]].
        apply firstn_length_app.
      - apply firstn_all. }
    match goal with
    | |- context [firstn ?k (if ?c then poach ?n ?l 0 else ?l)] =>
        assert (HP : sum_stake (firstn k (if c then poach n l 0 else l))
                     = sum_stake (firstn k l))
    end.
    { destruct (_ && _); [|reflexivity].
      apply sum_stake_map. rewrite <- !firstn_map, poach_stakes. reflexivity. }
    rewrite HP, HE. lia.
Qed.

(** ** The poach shock *)

(** The poach loop switches off exactly
    [min(max(poach_n - poached, 0), eligible)] operators, where [eligible]
    counts the active operators that are not high-commitment; every
    operator is left as it was or, if it was eligible, only deactivated. *)
Lemma poach_count_from (n : Z) (l : list Agent) :
  forall p,
  count_active (poach n l p)
    = (count_active l
       - Z.min (Z.max (n - p) 0)
               (Z.of_nat (List.length (filter poachable l))))%Z.
Proof.
  unfold count_active.
  induction l as [|a l IH]; intros p; [cbn; lia|].
  cbn [poach filter]. unfold poachable at 1.
  destruct (active a) eqn:Ha; cbn [andb].
  - destruct (negb (is_high_commitment (agent_type a))) eqn:Hhc; cbn [andb].
    + destruct (p <? n)%Z eqn:Hp.
      * apply Z.ltb_lt in Hp. cbn [filter set_active active length].
        rewrite IH. cbn [length]. lia.
      * apply Z.ltb_ge in Hp. cbn [filter]. rewrite Ha. cbn [length].
        rewrite !Nat2Z.inj_succ, IH. lia.
    + cbn [filter]. rewrite Ha. cbn [length].
      rewrite !Nat2Z.inj_succ, IH. lia.
  - cbn [filter]. rewrite Ha. rewrite IH. lia.
Qed.

(** The poach shock takes exactly [min(poach_n, eligible)] operators out of
    service ([eligible]: active and not high-commitment; a negative
    [poach_n] takes none), never a high-commitment operator, and changes
    nothing but the [active] flag of the ones it takes. *)
Theorem poach_takes_eligible_only (poach_n : Z) (agents : list Agent) :
  let agents' := poach poach_n agents 0 in
  count_active agents'
    = (count_active agents
       - Z.min (Z.max poach_n 0)
               (Z.of_nat (List.length (filter poachable agents))))%Z /\
  Forall2 (fun a a' =>
             a' = a \/
             (active a = true /\ agent_type a <> high_commitment /\
              a' = set_active a false)) agents agents'.
Proof.
  cbv zeta. split.
  - rewrite poach_count_from. rewrite Z.sub_0_r. reflexivity.
  - generalize 0%Z. induction agents as [|a l IH]; intros p; [constructor|].
    cbn [poach].
    destruct (active a && negb (is_high_commitment (agent_type a))
              && (p <? poach_n)%Z) eqn:Hc.
    + constructor; [|apply IH]. right.
      apply andb_prop in Hc. destruct Hc as [Hc _].
      apply andb_prop in Hc. destruct Hc as [Ha Hhc].
      split; [exact Ha|]. split; [|reflexivity].
      intros Heq. rewrite Heq in Hhc. discriminate.
    + constructor; [left; reflexivity | apply IH].
Qed.

(** ** The treasury subsidy and the burn *)

Lemma Rmax_floor_pos (P : R) : 0 < Rmax P 0.001.
Proof. unfold Rmax. destruct (Rle_dec _ _); lra. Qed.

Lemma treasury_stabilization_range (poe pof P T : R) (n : Z) :
  (0 <= n)%Z -> 0 <= T ->
  0 <= treasury_stabilization poe pof P T n <= 0.01 * T.
Proof.
  intros Hn HT. apply IZR_le in Hn.
  unfold treasury_stabilization, OPPORTUNITY_COST.
  destruct (Rlt_dec _ _) as [Hy|_]; [|lra].
  destruct (Rlt_dec _ _) as [_|_]; [|lra].
  destruct (Rlt_dec _ _) as [Hcap|_]; [|lra].
  split; [|lra].
  pose proof (Rmax_floor_pos P) as HP.
  apply Rmult_le_pos; [|exact Hn].
  apply Rmult_le_pos; [lra|]. left. apply Rinv_0_lt_compat. exact HP.
Qed.

Lemma compute_demand_floor t N P scenario (rng : G) cost_mult :
  50 <= fst (compute_demand t N P scenario rng cost_mult).
Proof.
  unfold compute_demand. destruct (rng_normal 0 0.05 rng) as [z g].
  cbn [fst]. apply Rmax_l.
Qed.

Lemma burn_tokens_nonneg (F_daily P : R) :
  0 <= F_daily -> 0 <= burn_tokens F_daily P.
Proof.
  intros HF. unfold burn_tokens, PROTOCOL_FEE.
  pose proof (Rmax_floor_pos P) as HP.
  apply Rmult_le_pos; [lra|]. left. apply Rinv_0_lt_compat. exact HP.
Qed.

(** ** The controller's memory *)

Lemma emission_stage_memory use_pid N E integral prev_error t kp ki kd :
  (1 <= N <= 12000)%Z ->
  -5 <= integral <= 5 -> -0.2 <= prev_error < 1 ->
  let out := emission_stage use_pid N E integral prev_error t kp ki kd in
  -5 <= snd (fst out) <= 5 /\ -0.2 <= snd out < 1.
Proof.
  intros [HN1 HN2] Hi He. cbv zeta.
  unfold emission_stage. destruct use_pid; [|cbn [fst snd]; split; assumption].
  unfold pid_emission.
  destruct (negb _); [cbn [fst snd]; split; assumption|].
  cbv zeta. cbn [fst snd]. apply IZR_le in HN1, HN2. split.
  - match goal with
    | |- _ <= Rmax _ (Rmin _ ?x) <= _ => generalize x
    end.
    intros x. unfold Rmax, Rmin. repeat destruct (Rle_dec _ _); lra.
  - unfold N_TARGET. rewrite minus_IZR. lra.
Qed.

(** ** The emission rules *)

Lemma clamp_mono (a b x y : R) :
  x <= y -> Rmax a (Rmin b x) <= Rmax a (Rmin b y).
Proof.
  intros Hxy. apply Rle_max_compat_l, Rle_min_compat_l. exact Hxy.
Qed.

(** Negative feedback: on an evaluation day, with gains that are not
    negative and the same controller memory, a larger network never gets a
    larger emission rate. *)
Theorem pid_emission_negative_feedback (N1 N2 : Z) (integral prev_error : R)
    (t : Z) (kp ki kd : option R) :
  (t mod 14 = 0)%Z ->
  0 <= or_default kp KP_NORM -> 0 <= or_default ki KI_NORM ->
  0 <= or_default kd KD_NORM ->
  (N1 <= N2)%Z ->
  exists E1 E2,
    fst (fst (pid_emission N1 integral prev_error t kp ki kd)) = Some E1 /\
    fst (fst (pid_emission N2 integral prev_error t kp ki kd)) = Some E2 /\
    E2 <= E1.
Proof.
  intros Ht Hkp Hki Hkd HN. unfold pid_emission, PID_CADENCE.
  replace (t mod 14 =? 0)%Z with true by (symmetry; apply Z.eqb_eq; exact Ht).
  cbn [negb]. cbv zeta. cbn [fst].
  do 2 eexists. split; [reflexivity|]. split; [reflexivity|].
  apply clamp_mono.
  set (e1 := IZR (N_TARGET - N1) / N_TARGET).
  set (e2 := IZR (N_TARGET - N2) / N_TARGET).
  assert (He : e2 <= e1).
  { unfold e1, e2, N_TARGET. rewrite !minus_IZR. apply IZR_le in HN. lra. }
  assert (Hc : Rmax (-5.0) (Rmin 5.0 (integral + e2))
               <= Rmax (-5.0) (Rmin 5.0 (integral + e1)))
    by (apply clamp_mono; lra).
  generalize dependent (Rmax (-5.0) (Rmin 5.0 (integral + e2))).
  generalize dependent (Rmax (-5.0) (Rmin 5.0 (integral + e1))).
  intros c1 c2 Hc.
  generalize dependent (or_default kp KP_NORM).
  generalize dependent (or_default ki KI_NORM).
  generalize dependent (or_default kd KD_NORM).
  intros gd Hgd gi Hgi gp Hgp.
  assert (H1 : gp * e2 <= gp * e1) by (apply Rmult_le_compat_l; assumption).
  assert (H2 : gi * c2 <= gi * c1) by (apply Rmult_le_compat_l; assumption).
  assert (H3 : gd * (e2 - prev_error) <= gd * (e1 - prev_error))
    by (apply Rmult_le_compat_l; [assumption | lra]).
  unfold BASE_EMISSION.
  apply Rplus_le_compat_l. apply Rmult_le_compat_l; lra.
Qed.


(** ** The price process *)

Lemma exp_mono (x y : R) : x <= y -> exp x <= exp y.
Proof.
  intros [Hlt | ->]; [left; apply exp_increasing; exact Hlt | lra].
Qed.

Lemma ln_mono (x y : R) : 0 < x -> x <= y -> ln x <= ln y.
Proof.
  intros Hx [Hlt | ->]; [left; apply ln_increasing; assumption | lra].
Qed.

(** Mean reversion: when the day's noise and drift cancel (in particular
    when both are zero) and the reversion speed is between 0 and 365, the
    new price lies between the floored old price and the clamped
    fundamental value; it never overshoots the fundamental and never moves
    away from it. *)
Theorem update_price_mean_reverts P F_daily C drift (rng : G) :
  let p := Rmax P 0.001 in
  let f := Rmax 0.01 (Rmin 10.0 (F_daily * 365 / Rmax C 1 * 1000)) in
  0 <= OU_KAPPA <= 365 ->
  OU_SIGMA * fst (rng_normal 0 1 rng) + drift = 0 ->
  Rmin p f <= fst (update_price OU_KAPPA OU_SIGMA P F_daily C drift rng)
           <= Rmax p f.
Proof.
  intros p f Hk Hnoise. unfold update_price.
  destruct (rng_normal 0 1 rng) as [dW g]. cbn [fst] in *.
  fold f. fold p.
  assert (Hp : 0.001 <= p) by apply Rmax_r.
  assert (Hf : 0.01 <= f) by apply Rmax_l.
  rewrite (Rmax_left f 0.001) by lra.
  set (k := OU_KAPPA / 365).
  assert (Hk01 : 0 <= k <= 1) by (unfold k; lra).
  replace (ln p + k * (ln f - ln p) + OU_SIGMA * dW + drift)
    with (ln p + k * (ln f - ln p)) by lra.
  set (x := ln p + k * (ln f - ln p)).
  destruct (Rle_dec p f) as [Hpf | Hfp].
  - pose proof (ln_mono p f ltac:(lra) Hpf) as Hln.
    assert (Hx : ln p <= x <= ln f) by (unfold x; nra).
    pose proof (exp_mono _ _ (proj1 Hx)) as H1.
    pose proof (exp_mono _ _ (proj2 Hx)) as H2.
    rewrite exp_ln in H1, H2 by lra.
    rewrite (Rmin_left p f), (Rmax_right p f) by lra.
    split; [eapply Rle_trans; [exact H1 | apply Rmax_r]|].
    apply Rmax_lub; lra.
  - pose proof (ln_mono f p ltac:(lra) ltac:(lra)) as Hln.
    assert (Hx : ln f <= x <= ln p) by (unfold x; nra).
    pose proof (exp_mono _ _ (proj1 Hx)) as H1.
    pose proof (exp_mono _ _ (proj2 Hx)) as H2.
    rewrite exp_ln in H1, H2 by lra.
    rewrite (Rmin_right p f), (Rmax_left p f) by lra.
    split; [eapply Rle_trans; [exact H1 | apply Rmax_r]|].
    apply Rmax_lub; lra.
Qed.

(** ** Demand *)

Lemma scaled_demand_le (base m noise : R) :
  0 <= base -> 0 <= m <= 1 ->
  Rmax 50 (base * m * noise) <= Rmax 50 (base * noise).
Proof.
  intros Hb Hm. destruct (Rle_dec 0 noise) as [Hn | Hn].
  - apply Rle_max_compat_l.
    assert (0 <= base * noise) by (apply Rmult_le_pos; assumption).
    nra.
  - apply Rmax_lub; [apply Rmax_l|].
    eapply Rle_trans; [|apply Rmax_l].
    assert (0 <= base * m) by (apply Rmult_le_pos; lra).
    nra.
Qed.

(** A shock never raises demand: for a non-negative operator count and a
    cost multiplier of at least 1, the fee revenue of a day is at most what
    the same scenario without its shock yields from the same draw, and the
    two coincide up to and including the shock day. *)
Theorem shocks_never_raise_demand (t N : Z) (P : R) (scenario : Scenario)
    (rng : G) (cost_mult : R) :
  (0 <= N)%Z -> 1 <= cost_mult ->
  fst (compute_demand t N P scenario rng cost_mult)
    <= fst (compute_demand t N P (without_shock scenario) rng cost_mult) /\
  ((t <= shock_day scenario)%Z ->
   compute_demand t N P scenario rng cost_mult
     = compute_demand t N P (without_shock scenario) rng cost_mult).
Proof.
  intros HN Hcm. unfold compute_demand.
  change (shock_day (without_shock scenario)) with (shock_day scenario).
  change (demand_growth_annual (without_shock scenario))
    with (demand_growth_annual scenario).
  assert (Hoff : forall k, shock_type_is (without_shock scenario) k = false)
    by (intros []; reflexivity).
  rewrite !Hoff. cbn [andb].
  destruct (rng_normal 0 0.05 rng) as [z g]. cbn [fst].
  match goal with
  | |- context [1000 * ?cf * powerRZ ?b t] =>
      set (base := 1000 * cf * powerRZ b t);
      assert (Hbase : 0 <= base);
      [ assert (Hcf : 0 <= cf); [| assert (Hpow : 0 < powerRZ b t) ] |]
  end.
  - apply IZR_le in HN. unfold N_TARGET.
    destruct (Rlt_dec _ _); [lra|].
    destruct (Rlt_dec _ _).
    + left. unfold Rpower. apply exp_pos.
    + apply Rmin_glb; [|lra]. left. unfold Rpower. apply exp_pos.
  - apply powerRZ_lt. unfold Rpower.
    pose proof (exp_pos (1 / 365 * ln (1 + demand_growth_annual scenario))).
    lra.
  - unfold base. apply Rmult_le_pos; [|lra]. apply Rmult_le_pos; lra.
  - clearbody base.
    destruct (Z.ltb_spec (shock_day scenario) t) as [Hlt | Hge].
    + rewrite !andb_true_r. split; [|intros; lia].
      apply IZR_lt in Hlt. rewrite !minus_IZR.
      destruct (shock_type_is scenario demand_contraction).
      { apply scaled_demand_le; [exact Hbase|].
        split; [eapply Rle_trans; [|apply Rmax_l]; lra|].
        apply Rmax_lub; lra. }
      destruct (shock_type_is scenario cost_increase).
      { apply scaled_demand_le; [exact Hbase|].
        assert (0 < / cost_mult) by (apply Rinv_0_lt_compat; lra).
        split; [lra|].
        replace (1 / cost_mult) with (/ cost_mult) by lra.
        rewrite <- Rinv_1. apply Rinv_le_contravar; lra. }
      destruct (shock_type_is scenario operator_poach).
      { apply scaled_demand_le; [exact Hbase|].
        assert (Hloss : 0 <= Rmin 0.30 (0.05 * ((IZR t - IZR (shock_day scenario)) / 30))
                        <= 0.30).
        { split; [apply Rmin_glb; lra | apply Rmin_l]. }
        lra. }
      apply Rle_refl.
    + rewrite !andb_false_r. split; [apply Rle_refl | reflexivity].
Qed.

(** ** The population over a run *)

Section RunCoverage.
Variables (scenario_name : string) (scenario : Scenario) (use_pid : bool)
          (seed : Z) (kp ki kd slash_downtime slash_fraud : option R).

#[local] Abbreviation step' :=
  (day_step OU_KAPPA OU_SIGMA scenario_name scenario use_pid seed
            kp ki kd slash_downtime slash_fraud).
#[local] Abbreviation loop' :=
  (sim_loop OU_KAPPA OU_SIGMA scenario_name scenario use_pid seed
            kp ki kd slash_downtime slash_fraud).
#[local] Abbreviation start' :=
  (initial_state (G := G) seed).
#[local] Abbreviation run' :=
  (run_simulation OU_KAPPA OU_SIGMA scenario_name scenario use_pid seed
                  kp ki kd slash_downtime slash_fraud).

(** The state after the first [n] days of the run. *)
#[local] Abbreviation after' stderr n :=
  (snd (loop' (firstn n days) (start' stderr))).

Ltac open_step :=
  unfold day_step;
  destruct (compute_demand _ _ _ _ _ _) as [F1 gd] eqn:Hdemand;
  destruct (emission_stage _ _ _ _ _ _ _ _ _) as [[E1 int1] pe1] eqn:Hemit;
  destruct (update_operators _ _ _ _ _ _ _ _ _ _ _ _)
    as [[[[ag1 sl1] fr1] ts1] gu] eqn:Hupd;
  destruct (update_price _ _ _ _ _ _ _) as [P1 gp] eqn:Hprice.

Lemma firstn_seq_le (n m s : nat) :
  (n <= m)%nat -> firstn n (seq s m) = seq s n.
Proof.
  revert m s. induction n as [|n IH]; intros m s Hn; [reflexivity|].
  destruct m as [|m]; [lia|]. cbn [seq firstn]. f_equal. apply IH. lia.
Qed.

Lemma firstn_days_S (n : nat) :
  (n < 1825)%nat -> firstn (S n) days = firstn n days ++ [Z.of_nat n].
Proof.
  intros Hn. unfold days, TIMESTEPS.
  rewrite !firstn_map, !firstn_seq_le by lia.
  rewrite seq_S, map_app. reflexivity.
Qed.

Lemma firstn_days_all (n : nat) :
  (1825 <= n)%nat -> firstn n days = days.
Proof.
  intros Hn. apply firstn_all2.
  unfold days, TIMESTEPS. rewrite length_map, length_seq. exact Hn.
Qed.

(** Day [n] takes the state after [n] days to the state after [n + 1]. *)
Lemma after_S (stderr : list LogLine) (n : nat) :
  (n < 1825)%nat ->
  after' stderr (S n) = snd (step' (after' stderr n) (Z.of_nat n)).
Proof.
  intros Hn. rewrite firstn_days_S by exact Hn.
  destruct (sim_loop_app OU_KAPPA OU_SIGMA scenario_name scenario use_pid seed
              kp ki kd slash_downtime slash_fraud
              (firstn n days) [Z.of_nat n] (start' stderr)) as [_ Hsnd].
  rewrite Hsnd. cbn [sim_loop].
  destruct (step' (after' stderr n) (Z.of_nat n)) as [r st1]. reflexivity.
Qed.

Lemma after_beyond (stderr : list LogLine) (n : nat) :
  (1825 <= n)%nat -> after' stderr n = after' stderr 1825.
Proof.
  intros Hn. rewrite (firstn_days_all n), (firstn_days_all 1825) by lia.
  reflexivity.
Qed.

(** A property of the operator list kept by a day's lifecycle and
    reputation updates is kept by the driver's day. *)
Lemma day_step_population (Inv : list Agent -> Prop) :
  (forall agents E F_daily N P t (g : G) T cost_mult,
     Inv agents ->
     Inv (update_reputation (fst (fst (fst (fst
            (update_operators agents E F_daily N P scenario t g T cost_mult
                              slash_downtime slash_fraud))))) t)) ->
  forall (st : SimState) t,
  Inv (st_agents st) -> Inv (st_agents (snd (step' st t))).
Proof.
  intros Hday st t Hinv. open_step. cbn [snd st_agents].
  match type of Hupd with
  | update_operators ?ag0 ?E ?F ?N ?P ?sc ?t0 ?g ?T ?cm ?sd ?sf = _ =>
      pose proof (Hday ag0 E F N P t0 g T cm Hinv) as Hx;
      rewrite Hupd in Hx
  end.
  exact Hx.
Qed.

Lemma sim_loop_population (Inv : list Agent -> Prop) :
  (forall agents E F_daily N P t (g : G) T cost_mult,
     Inv agents ->
     Inv (update_reputation (fst (fst (fst (fst
            (update_operators agents E F_daily N P scenario t g T cost_mult
                              slash_downtime slash_fraud))))) t)) ->
  forall ts (st : SimState),
  Inv (st_agents st) -> Inv (st_agents (snd (loop' ts st))).
Proof.
  intros Hday ts. induction ts as [|t ts IH]; intros st Hinv; [exact Hinv|].
  pose proof (day_step_population Inv Hday st t Hinv) as H1.
  cbn [sim_loop]. destruct (step' st t) as [r st1]. cbn [snd] in H1.
  specialize (IH st1 H1). destruct (loop' ts st1) as [rs st2]. exact IH.
Qed.

Lemma initial_population (stderr : list LogLine) :
  st_agents (start' stderr) = fst (create_operators 2000 (default_rng seed)).
Proof.
  unfold initial_state.
  destruct (create_operators 2000 (default_rng seed)) as [agents g1].
  destruct (create_whales g1) as [whales g2]. reflexivity.
Qed.

(** Ids are stable and unique: after any number of simulated days, the
    operator at position [i] of the population has id [i], so no two
    operators share an id. *)
Theorem operator_ids_are_positions (stderr : list LogLine) (n : nat) :
  let population := st_agents (after' stderr n) in
  ids_are_positions population /\
  forall i j a b,
    nth_error population i = Some a -> nth_error population j = Some b ->
    agent_id a = agent_id b -> i = j.
Proof.
  intros population.
  assert (Hids : ids_are_positions population).
  { unfold population. apply (sim_loop_population ids_are_positions).
    - intros. apply update_reputation_ids, update_operators_ids. assumption.
    - rewrite initial_population. intros i a Hi.
      destruct (create_from_built (operator_templates 2000) 0
                  (default_rng seed)) as [_ Hid].
      rewrite (Hid i a Hi). lia. }
  split; [exact Hids|].
  intros i j a b Hi Hj Heq.
  rewrite (Hids i a Hi), (Hids j b Hj) in Heq. lia.
Qed.

(** *** Reputation and seasons *)

Lemma reputation_season_fields (a : Agent) :
  seasons_active (reputation_season a) = (seasons_active a + 1)%Z /\
  (0 <= reputation a -> 0 <= reputation (reputation_season a) <= 5).
Proof.
  destruct a as [id ty et ps up fp st rep act sea].
  unfold reputation_season, set_reputation, set_seasons_active. cbn.
  split.
  - destruct (Rlt_dec 0.99 up); reflexivity.
  - intros Hrep. destruct (Rlt_dec 0.99 up); cbn;
      unfold Rmin; destruct Rle_dec; lra.
Qed.

(** Seasons completed by the start of day [n]: the season days are 90, 180,
    ..., so none before day 91. *)
Lemma seasons_bound_step (n : nat) :
  (0 <= (Z.of_nat n - 1) / 90 <= (Z.of_nat (S n) - 1) / 90)%Z
  \/ n = O.
Proof.
  destruct n as [|n]; [right; reflexivity | left].
  split.
  - apply Z.div_pos; lia.
  - apply Z.div_le_mono; lia.
Qed.

(** Reputation and seasons over a run: after [n] simulated days every
    operator has a reputation in [0, 5] and has completed at most
    [(n - 1) / 90] seasons (none before day 91, at most 20 over the whole
    horizon); in particular nobody has the two seasons that make a veteran
    until day 180 has been simulated. *)
Theorem reputation_and_seasons_bounded (stderr : list LogLine) (n : nat) :
  let population := st_agents (after' stderr n) in
  Forall (fun a =>
            0 <= reputation a <= 5 /\
            (0 <= seasons_active a <= Z.max 0 ((Z.of_nat n - 1) / 90))%Z /\
            (seasons_active a <= 20)%Z /\
            ((n <= 180)%nat -> (seasons_active a < 2)%Z)) population.
Proof.
  intros population.
  assert (Hmain : forall m,
    Forall (fun a =>
              0 <= reputation a <= 5 /\
              (0 <= seasons_active a
               <= Z.max 0 ((Z.of_nat (Nat.min m 1825) - 1) / 90))%Z)
           (st_agents (after' stderr m))).
  { induction m as [|m IH].
    - cbn [firstn sim_loop snd]. rewrite initial_population.
      destruct (create_from_built (operator_templates 2000) 0
                  (default_rng seed)) as [Hb _].
      fold (create_operators 2000 (default_rng seed)) in Hb.
      apply Forall_forall. intros a Hin.
      assert (Hf : reputation a = 0 /\ seasons_active a = 0%Z).
      { clear -Hb Hin.
        induction Hb as [|t0 a0 ts as0 Hb0 Hrest IHb]; [contradiction|].
        destruct Hin as [<- | Hin]; [|auto].
        destruct Hb0 as [_ [_ [_ [_ [_ [_ [Hr [_ Hs]]]]]]]]. auto. }
      destruct Hf as [-> ->]. cbn. split; [lra | lia].
    - destruct (Nat.lt_ge_cases m 1825) as [Hlt | Hge].
      2:{ rewrite (after_beyond stderr (S m)) by lia.
          rewrite (after_beyond stderr m) in IH by lia.
          replace (Nat.min (S m) 1825) with (Nat.min m 1825) by lia.
          exact IH. }
      rewrite after_S by exact Hlt.
      replace (Nat.min (S m) 1825) with (S m) by lia.
      replace (Nat.min m 1825) with m in IH by lia.
      revert IH. generalize (after' stderr m). intros st IH.
      unfold day_step.
      destruct (compute_demand _ _ _ _ _ _) as [F1 gd].
      destruct (emission_stage _ _ _ _ _ _ _ _ _) as [[E1 int1] pe1].
      destruct (update_operators _ _ _ _ _ _ _ _ _ _ _ _)
        as [[[[ag1 sl1] fr1] ts1] gu] eqn:Hupd.
      destruct (update_price _ _ _ _ _ _ _) as [P1 gp].
      cbn [snd st_agents].
      assert (Hag : Forall (fun a =>
                0 <= reputation a <= 5 /\
                (0 <= seasons_active a
                 <= Z.max 0 ((Z.of_nat m - 1) / 90))%Z) ag1).
      { match type of Hupd with
        | update_operators ?ag0 ?E ?F ?N ?P ?sc ?t0 ?g ?T ?cm ?sd ?sf = _ =>
            pose proof (update_operators_Forall
              (fun a => 0 <= reputation a <= 5 /\
                 (0 <= seasons_active a
                  <= Z.max 0 ((Z.of_nat m - 1) / 90))%Z)) as Hx;
            specialize (fun h1 h2 h3 =>
              Hx h1 h2 h3 ag0 E F N P sc t0 g T cm sd sf IH)
        end.
        rewrite Hupd in Hx. apply Hx.
        - intros sd sf poe pof P0 cost a sl fr g HQ.
          destruct (operator_day_frame sd sf poe pof P0 cost a sl fr g)
            as [_ [_ [_ [_ [_ [Hr [Hs _]]]]]]].
          rewrite Hr, Hs. exact HQ.
        - intros next_id g.
          destruct (new_entrant_fresh next_id g) as [-> [-> _]].
          split; [lra | lia].
        - intros a HQ. exact HQ. }
      unfold update_reputation.
      destruct (negb (Z.of_nat m mod 90 =? 0)%Z || (Z.of_nat m =? 0)%Z)
        eqn:Hgate.
      + eapply Forall_impl; [|exact Hag].
        intros a [Hr [Hs0 Hs1]]. split; [exact Hr|]. split; [exact Hs0|].
        assert ((Z.of_nat m - 1) / 90 <= (Z.of_nat (S m) - 1) / 90)%Z
          by (apply Z.div_le_mono; lia).
        lia.
      + apply orb_false_elim in Hgate. destruct Hgate as [Hmod Hm0].
        apply negb_false_iff in Hmod. apply Z.eqb_eq in Hmod.
        apply Z.eqb_neq in Hm0.
        assert (Hdiv : ((Z.of_nat (S m) - 1) / 90
                        = (Z.of_nat m - 1) / 90 + 1)%Z).
        { replace (Z.of_nat (S m) - 1)%Z with (Z.of_nat m) by lia.
          apply Z.mod_divide in Hmod; [|lia].
          destruct Hmod as [q Hq]. rewrite Hq.
          rewrite Z.div_mul by lia.
          replace (q * 90 - 1)%Z with (89 + (q - 1) * 90)%Z by lia.
          rewrite Z.div_add by lia.
          change (89 / 90)%Z with 0%Z. lia. }
        assert (Hnonneg : (0 <= (Z.of_nat m - 1) / 90)%Z)
          by (apply Z.div_pos; lia).
        assert (Hstep : Forall (fun a =>
                  0 <= reputation a <= 5 /\
                  (0 <= seasons_active a
                   <= Z.max 0 ((Z.of_nat (S m) - 1) / 90))%Z)
                 (map (fun a => if active a then reputation_season a else a)
                      ag1)).
        { apply Forall_map. eapply Forall_impl; [|exact Hag].
          intros a [Hr [Hs0 Hs1]].
          destruct (active a).
          - destruct (reputation_season_fields a) as [Hsea Hrep].
            rewrite Hsea. split; [apply Hrep; lra | lia].
          - split; [exact Hr | lia]. }
        destruct (count_active ag1 =? 0)%Z; [|exact Hstep].
        eapply Forall_impl; [|exact Hag].
        intros a [Hr [Hs0 Hs1]]. split; [exact Hr | lia]. }
  unfold population. specialize (Hmain n).
  eapply Forall_impl; [|exact Hmain].
  intros a [Hr [Hs0 Hs1]].
  assert (Hcap : ((Z.of_nat (Nat.min n 1825) - 1) / 90
                  <= (Z.of_nat n - 1) / 90)%Z)
    by (apply Z.div_le_mono; lia).
  assert (H20 : ((Z.of_nat (Nat.min n 1825) - 1) / 90 < 21)%Z).
  { apply Z.div_lt_upper_bound; lia. }
  split; [exact Hr|]. split; [lia|]. split; [lia|].
  intros H180.
  assert (((Z.of_nat (Nat.min n 1825) - 1) / 90 < 2)%Z).
  { apply Z.div_lt_upper_bound; lia. }
  lia.
Qed.

(** *** Rows and states *)

(** A property of the driver state that every day keeps holds after any
    number of days. *)
Lemma after_invariant (Inv : SimState (G := G) -> Prop)
    (stderr : list LogLine) :
  Inv (start' stderr) ->
  (forall st t, Inv st -> Inv (snd (step' st t))) ->
  forall n, Inv (after' stderr n).
Proof.
  intros H0 Hstep n. generalize (firstn n days). intros ts.
  revert H0. generalize (start' stderr).
  induction ts as [|t ts IH]; intros st Hst; [exact Hst|].
  cbn [sim_loop]. pose proof (Hstep st t Hst) as H1.
  destruct (step' st t) as [r st1]. cbn [snd] in H1.
  specialize (IH st1 H1). destruct (loop' ts st1) as [rs st2]. exact IH.
Qed.

Lemma sim_loop_nth (ts : list Z) :
  forall (st : SimState) i t,
  nth_error ts i = Some t ->
  nth_error (fst (loop' ts st)) i
    = Some (fst (step' (snd (loop' (firstn i ts) st)) t)).
Proof.
  induction ts as [|a ts IH]; intros st i t Hi; [destruct i; discriminate|].
  destruct i as [|i].
  - cbn in Hi. injection Hi as ->. cbn [firstn sim_loop snd].
    destruct (step' st t) as [r st1]. destruct (loop' ts st1) as [rs st2].
    reflexivity.
  - cbn [nth_error] in Hi. cbn [firstn sim_loop].
    destruct (step' st a) as [r st1]. specialize (IH st1 i t Hi).
    destruct (loop' ts st1) as [rs st2].
    destruct (loop' (firstn i ts) st1) as [rs' st']. exact IH.
Qed.

(** The row of day [t] is written by the day's step from the state after
    [t] days. *)
Lemma run_row (stderr : list LogLine) (t : nat) :
  (t < 1825)%nat ->
  nth_error (fst (run' stderr)) t
    = Some (fst (step' (after' stderr t) (Z.of_nat t))).
Proof.
  intros Ht. rewrite run_records. apply sim_loop_nth. apply days_nth. exact Ht.
Qed.

Lemma run_length (stderr : list LogLine) :
  List.length (fst (run' stderr)) = 1825%nat.
Proof.
  rewrite run_records. rewrite <- days_length.
  generalize (start' stderr). generalize days. intros ts.
  induction ts as [|t ts IH]; intros st; [reflexivity|].
  cbn [sim_loop]. destruct (step' st t) as [r st1]. specialize (IH st1).
  destruct (loop' ts st1) as [rs st2]. cbn in *. congruence.
Qed.

(** Every row of the run is the row of some day. *)
Lemma run_rows (Q : SimulationRecord -> Prop) (stderr : list LogLine) :
  (forall t, (t < 1825)%nat ->
     Q (fst (step' (after' stderr t) (Z.of_nat t)))) ->
  Forall Q (fst (run' stderr)).
Proof.
  intros Hall. apply Forall_nth_error. intros i r Hi.
  assert (Hlt : (i < 1825)%nat).
  { rewrite <- (run_length stderr). apply nth_error_Some. congruence. }
  rewrite (run_row stderr i Hlt) in Hi. injection Hi as <-. apply Hall, Hlt.
Qed.

Lemma day_step_fields (st : SimState) (t : Z) :
  let r := fst (step' st t) in
  let st' := snd (step' st t) in
  rec_timestep r = t /\ rec_N r = st_N st' /\
  st_N st' = Z.max 1 (count_active (st_agents st')) /\
  rec_E r = py_round (st_E st') 0 /\
  rec_slashed_total r = st_slashed_total st'.
Proof.
  cbv zeta. open_step. cbn. repeat split; reflexivity.
Qed.

Lemma day_step_count (st : SimState) (t : Z) :
  let n0 := count_active (st_agents st) in
  let n1 := count_active (st_agents (snd (step' st t))) in
  (n1 <= n0 + 30)%Z /\ (n0 <= 33 -> n1 <= n0)%Z /\
  (n0 <= 12000 -> n1 <= 12000)%Z.
Proof.
  cbv zeta. open_step. cbn [snd st_agents].
  rewrite update_reputation_count.
  match type of Hupd with
  | update_operators ?ag0 ?E ?F ?N ?P ?sc ?t0 ?g ?T ?cm ?sd ?sf = _ =>
      pose proof (update_operators_count ag0 E F N P sc t0 g T cm sd sf) as Hx;
      cbv zeta in Hx; rewrite Hupd in Hx
  end.
  exact Hx.
Qed.

Lemma initial_count (stderr : list LogLine) :
  count_active (st_agents (start' stderr)) = 2000%Z /\
  st_N (start' stderr) = 2000%Z.
Proof.
  split.
  - rewrite initial_population.
    destruct (create_from_built (operator_templates 2000) 0
                (default_rng seed)) as [Hb _].
    fold (create_operators 2000 (default_rng seed)) in Hb.
    rewrite count_active_Forall.
    + apply Forall2_length in Hb. rewrite <- Hb.
      rewrite operator_templates_length by lia. reflexivity.
    + clear -Hb. induction Hb as [|t0 a0 ts as0 Hb0 Hrest IHb];
        constructor; [apply Hb0 | exact IHb].
  - unfold initial_state.
    destruct (create_operators 2000 (default_rng seed)) as [agents g1].
    destruct (create_whales g1) as [whales g2]. reflexivity.
Qed.

Lemma after_count_step (stderr : list LogLine) (n : nat) :
  let N k := count_active (st_agents (after' stderr k)) in
  (N (S n) <= N n + 30)%Z /\ (N n <= 33 -> N (S n) <= N n)%Z.
Proof.
  cbv zeta. destruct (Nat.lt_ge_cases n 1825) as [Hlt | Hge].
  - rewrite after_S by exact Hlt.
    destruct (day_step_count (after' stderr n) (Z.of_nat n)) as [H1 [H2 _]].
    split; assumption.
  - rewrite (after_beyond stderr (S n)), (after_beyond stderr n) by lia. lia.
Qed.

Lemma after_count_cap (stderr : list LogLine) (n : nat) :
  (count_active (st_agents (after' stderr n)) <= 12000)%Z.
Proof.
  apply (after_invariant
           (fun st => (count_active (st_agents st) <= 12000)%Z)).
  - destruct (initial_count stderr) as [-> _]. lia.
  - intros st t Hst. apply day_step_count. exact Hst.
Qed.

Lemma row_N (stderr : list LogLine) (t : nat) :
  (t < 1825)%nat ->
  rec_N (fst (step' (after' stderr t) (Z.of_nat t)))
    = Z.max 1 (count_active (st_agents (after' stderr (S t)))).
Proof.
  intros Ht. rewrite after_S by exact Ht.
  destruct (day_step_fields (after' stderr t) (Z.of_nat t))
    as [_ [HN [Hmax _]]].
  rewrite HN. exact Hmax.
Qed.

(** The network never outgrows the entry taper: no row of any run records
    more than 12000 active operators (1.2 times the target), whatever the
    yields and the random draws. *)
Theorem active_operators_capped (stderr : list LogLine) :
  Forall (fun r => (rec_N r <= 12000)%Z) (fst (run' stderr)).
Proof.
  apply run_rows. intros t Ht. rewrite row_N by exact Ht.
  pose proof (after_count_cap stderr (S t)). lia.
Qed.

(** From one row to the next the recorded operator count rises by at most
    30, the absolute entry cap. *)
Theorem network_growth_capped (stderr : list LogLine) (t : nat) :
  (S t < 1825)%nat ->
  exists r r',
    nth_error (fst (run' stderr)) t = Some r /\
    nth_error (fst (run' stderr)) (S t) = Some r' /\
    (rec_N r' <= rec_N r + 30)%Z.
Proof.
  intros Ht. do 2 eexists.
  split; [apply run_row; lia|]. split; [apply run_row; exact Ht|].
  rewrite !row_N by lia.
  destruct (after_count_step stderr (S t)) as [Hstep _]. lia.
Qed.


(** *** The controller's memory over a run *)

(** Anti-windup holds over whole runs: after any number of days the
    integral term is within [-5, 5] and the remembered normalized error is
    within [-0.2, 1), the range that populations between 1 and 12000
    allow. *)
Theorem controller_memory_bounded (stderr : list LogLine) (n : nat) :
  let st := after' stderr n in
  -5 <= st_integral st <= 5 /\ -0.2 <= st_prev_error st < 1.
Proof.
  cbv zeta.
  assert (Hinv : (fun st : SimState =>
            ((count_active (st_agents st) <= 12000)%Z /\
             (1 <= st_N st <= 12000)%Z) /\
            -5 <= st_integral st <= 5 /\ -0.2 <= st_prev_error st < 1)
          (after' stderr n)).
  { apply after_invariant.
    - destruct (initial_count stderr) as [-> ->].
      split; [lia|]. unfold initial_state.
      destruct (create_operators 2000 (default_rng seed)) as [agents g1].
      destruct (create_whales g1) as [whales g2]. cbn. lra.
    - intros st t [[Hc HN] [Hi He]].
      destruct (day_step_count st t) as [_ [_ Hcap]]. specialize (Hcap Hc).
      destruct (day_step_fields st t) as [_ [_ [Hmax _]]].
      split; [split; [exact Hcap | lia]|].
      pose proof (emission_stage_memory use_pid (st_N st) (st_E st)
                    (st_integral st) (st_prev_error st) t kp ki kd HN Hi He)
        as Hmem.
      cbv zeta in Hmem. clear Hcap Hmax. open_step.
      cbn [snd st_integral st_prev_error]. cbn [fst snd] in Hmem. exact Hmem. }
  apply Hinv.
Qed.

(** *** Token flows *)

Lemma day_step_flows (st : SimState) (t : Z) :
  0 <= or_default slash_downtime SLASH_DOWNTIME <= 1 ->
  0 <= or_default slash_fraud SLASH_FRAUD <= 1 ->
  Forall (fun a => (0 <= stake a)%Z) (st_agents st) ->
  0 <= st_C st -> 0 <= st_T st -> PID_MIN <= st_E st <= PID_MAX ->
  use_pid = true \/ (0 <= t <= 1824)%Z ->
  let st' := snd (step' st t) in
  0.99 * st_T st <= st_T st' /\
  st_C st' <= st_C st + st_E st' /\
  (st_slashed_total st <= st_slashed_total st')%Z /\
  st_T st' <= st_T st + IZR (st_slashed_total st' - st_slashed_total st).
Proof.
  intros Hsd Hsf Hall HC HT HE Hcase. cbv zeta.
  pose proof (emission_stage_bounds use_pid (st_N st) (st_E st)
                (st_integral st) (st_prev_error st) t kp ki kd HE Hcase)
    as HE'.
  open_step. cbn [snd st_T st_C st_E st_slashed_total].
  cbn [fst] in HE'. unfold PID_MIN in HE'.
  assert (HF : 50 <= F1).
  { match type of Hdemand with
    | compute_demand ?t0 ?N ?P ?sc ?g ?cm = _ =>
        pose proof (compute_demand_floor t0 N P sc g cm) as HF;
        rewrite Hdemand in HF
    end.
    exact HF. }
  pose proof (burn_tokens_nonneg F1 (st_P st) ltac:(lra)) as HB.
  match type of Hupd with
  | update_operators ?ag0 ?E ?F ?N ?P ?sc ?t0 ?g ?T ?cm ?sd ?sf = _ =>
      pose proof (update_operators_slashed ag0 E F N P sc t0 g T cm sd sf
                    Hsd Hsf Hall) as Hsl;
      pose proof (update_operators_subsidy ag0 E F N P sc t0 g T cm sd sf)
        as Hsub;
      cbv zeta in Hsub; rewrite Hupd in Hsl, Hsub
  end.
  cbn [fst snd] in Hsl, Hsub.
  assert (Hts : 0 <= ts1 <= 0.01 * st_T st).
  { rewrite Hsub. destruct (_ =? _)%Z; [lra|].
    apply treasury_stabilization_range;
      [apply count_active_nonneg | exact HT]. }
  apply IZR_le in Hsl as HslR.
  generalize dependent (burn_tokens F1 (st_P st)). intros B HB.
  replace (st_slashed_total st + sl1 - st_slashed_total st)%Z with sl1
    by lia.
  split; [|split; [|split]].
  - eapply Rle_trans; [|apply Rmax_r]. lra.
  - apply Rmax_lub; [lra|].
    eapply Rle_trans; [apply Rmin_r|]. lra.
  - lia.
  - apply Rmax_lub; lra.
Qed.

(** Token flows of a run when the slashing penalties are fractions (as the
    defaults 0.10 and 1.00 are): from each day to the next the treasury
    keeps at least 99% of its balance and gains at most the day's slashed
    stake, so after [n] days it still holds at least [150,000,000 * 0.99^n]
    tokens and is never exhausted; circulating supply rises by at most the
    day's emission; and the running total of slashed stake never
    decreases. *)
Theorem token_flows_bounded (stderr : list LogLine) (n : nat) :
  0 <= or_default slash_downtime SLASH_DOWNTIME <= 1 ->
  0 <= or_default slash_fraud SLASH_FRAUD <= 1 ->
  let st := after' stderr n in
  let st' := after' stderr (S n) in
  0.99 * st_T st <= st_T st' /\
  st_T st' <= st_T st + IZR (st_slashed_total st' - st_slashed_total st) /\
  150000000 * 0.99 ^ n <= st_T st /\
  st_C st' <= st_C st + st_E st' /\
  (st_slashed_total st <= st_slashed_total st')%Z.
Proof.
  intros Hsd Hsf. cbv zeta.
  assert (Hinv : forall k,
    (fun st : SimState =>
       Forall (fun a => (0 <= stake a)%Z) (st_agents st) /\
       0 <= st_C st /\ 0 <= st_T st /\ PID_MIN <= st_E st <= PID_MAX)
    (after' stderr k)).
  { intros k.
    destruct k as [|k].
    - cbn [firstn sim_loop snd]. split; [apply initial_state_stake|].
      unfold initial_state.
      destruct (create_operators 2000 (default_rng seed)) as [agents g1].
      destruct (create_whales g1) as [whales g2]. cbn.
      unfold PID_MIN, PID_MAX, BASE_EMISSION. lra.
    - split.
      + apply sim_loop_stake; [lra | lra | apply initial_state_stake].
      + destruct (sim_loop_ok OU_KAPPA OU_SIGMA scenario_name scenario use_pid
                    seed kp ki kd slash_downtime slash_fraud
                    (firstn (S k) days) (start' stderr)) as [_ [Hst HE]].
        * rewrite initial_state_E. unfold PID_MIN, PID_MAX, BASE_EMISSION. lra.
        * apply firstn_days_range.
        * destruct (Nat.lt_ge_cases k 1825) as [Hlt | Hge].
          -- assert (Hne : firstn (S k) days <> []).
             { intros Hnil. apply (f_equal (@List.length Z)) in Hnil.
               rewrite length_firstn, days_length in Hnil. cbn in Hnil. lia. }
             specialize (Hst Hne). unfold state_ok in Hst.
             split; [apply Hst|]. split; [apply Hst | exact HE].
          -- assert (Hne : firstn (S k) days <> []).
             { intros Hnil. apply (f_equal (@List.length Z)) in Hnil.
               rewrite length_firstn, days_length in Hnil. cbn in Hnil. lia. }
             specialize (Hst Hne). unfold state_ok in Hst.
             split; [apply Hst|]. split; [apply Hst | exact HE]. }
  assert (Hstep : forall k,
    0.99 * st_T (after' stderr k) <= st_T (after' stderr (S k)) /\
    st_C (after' stderr (S k))
      <= st_C (after' stderr k) + st_E (after' stderr (S k)) /\
    (st_slashed_total (after' stderr k)
     <= st_slashed_total (after' stderr (S k)))%Z /\
    st_T (after' stderr (S k))
      <= st_T (after' stderr k)
         + IZR (st_slashed_total (after' stderr (S k))
                - st_slashed_total (after' stderr k))).
  { intros k. destruct (Hinv k) as [Hall [HC [HT HE]]].
    destruct (Nat.lt_ge_cases k 1825) as [Hlt | Hge].
    - rewrite after_S by exact Hlt.
      apply day_step_flows; try assumption. right. lia.
    - destruct (Hinv (S k)) as [_ [_ [_ HE']]]. unfold PID_MIN in HE'.
      rewrite (after_beyond stderr (S k)) in * by lia.
      rewrite (after_beyond stderr k) in * by lia.
      rewrite Z.sub_diag. split; [lra|]. split; [lra|]. split; [lia | lra]. }
  destruct (Hstep n) as [H1 [H2 [H3 H4]]].
  split; [exact H1|]. split; [exact H4|]. split; [|split; assumption].
  clear H1 H2 H3 H4. induction n as [|n IH].
  - cbn [firstn sim_loop snd pow]. unfold initial_state.
    destruct (create_operators 2000 (default_rng seed)) as [agents g1].
    destruct (create_whales g1) as [whales g2]. cbn. lra.
  - destruct (Hstep n) as [H1 _]. cbn [pow]. lra.
Qed.

(** *** Emission between evaluations *)

Lemma day_step_held (st : SimState) (t : Z) :
  use_pid = true -> (t mod 14 <> 0)%Z ->
  st_E (snd (step' st t)) = st_E st /\
  st_integral (snd (step' st t)) = st_integral st /\
  st_prev_error (snd (step' st t)) = st_prev_error st.
Proof.
  intros Hpid Hday. open_step. cbn [snd st_E st_integral st_prev_error].
  rewrite Hpid in Hemit. unfold emission_stage, pid_emission, PID_CADENCE in Hemit.
  apply Z.eqb_neq in Hday. rewrite Hday in Hemit. cbn [negb] in Hemit.
  injection Hemit as <- <- <-. repeat split; reflexivity.
Qed.

(** Under the PID policy the emission rate is a step function of time: on a
    day that is not a multiple of 14 the recorded rate equals that of the
    day before, and the controller's integral and remembered error are the
    ones it had. *)
Theorem pid_emission_held_between_evaluations (stderr : list LogLine)
    (t : nat) :
  use_pid = true -> (t < 1825)%nat -> (Z.of_nat t mod 14 <> 0)%Z ->
  exists r r',
    nth_error (fst (run' stderr)) (t - 1) = Some r' /\
    nth_error (fst (run' stderr)) t = Some r /\
    rec_E r = rec_E r' /\
    st_integral (after' stderr (S t)) = st_integral (after' stderr t) /\
    st_prev_error (after' stderr (S t)) = st_prev_error (after' stderr t).
Proof.
  intros Hpid Ht Hday.
  assert (Hpos : (0 < t)%nat).
  { destruct t; [exfalso; apply Hday; reflexivity | lia]. }
  do 2 eexists.
  split; [apply run_row; lia|]. split; [apply run_row; exact Ht|].
  destruct (day_step_fields (after' stderr t) (Z.of_nat t))
    as [_ [_ [_ [HE _]]]].
  destruct (day_step_fields (after' stderr (t - 1)) (Z.of_nat (t - 1)))
    as [_ [_ [_ [HE' _]]]].
  destruct (day_step_held (after' stderr t) (Z.of_nat t) Hpid Hday)
    as [Hheld [Hint Herr]].
  rewrite HE, HE', Hheld.
  rewrite <- (after_S stderr (t - 1)) by lia.
  rewrite (after_S stderr t) by exact Ht.
  replace (S (t - 1)) with t by lia.
  split; [reflexivity|]. split; assumption.
Qed.

(** *** The adjustment count *)




(** *** What a run writes to standard error *)

Lemma day_step_stderr (st : SimState) (t : Z) :
  exists N P C,
    st_stderr (snd (step' st t))
    = if (t mod 365 =? 0)%Z
      then st_stderr st
           ++ [YearLine scenario_name (model_label use_pid) (t / 365) N P C]
      else st_stderr st.
Proof.
  open_step. cbn [snd st_stderr]. do 3 eexists. reflexivity.
Qed.

(** A run appends exactly five lines to standard error, the progress lines
    of years 0 to 4 with the run's scenario and policy label, and leaves
    what was there before untouched. *)
Theorem run_yearly_progress_lines (stderr : list LogLine) :
  exists lines,
    snd (run' stderr) = stderr ++ lines /\
    map year_line_key lines
    = map (fun year => Some (scenario_name, model_label use_pid, year))
          [0; 1; 2; 3; 4]%Z.
Proof.
  assert (Hinv : forall n, (n <= 1825)%nat ->
    exists lines,
      st_stderr (after' stderr n) = stderr ++ lines /\
      map year_line_key lines
      = map (fun year => Some (scenario_name, model_label use_pid,
                               Z.of_nat year))
            (seq 0 (Z.to_nat ((Z.of_nat n + 364) / 365)))).
  { induction n as [|n IH]; intros Hn.
    - exists []. cbn [firstn sim_loop snd]. split; [|reflexivity].
      unfold initial_state.
      destruct (create_operators 2000 (default_rng seed)) as [agents g1].
      destruct (create_whales g1) as [whales g2]. cbn. rewrite app_nil_r.
      reflexivity.
    - destruct (IH ltac:(lia)) as [lines [Hlines Hkeys]].
      rewrite after_S by lia.
      destruct (day_step_stderr (after' stderr n) (Z.of_nat n))
        as [N [P [C Hstep]]].
      rewrite Hstep, Hlines.
      assert (Hdiv : (0 <= Z.of_nat n / 365)%Z) by (apply Z.div_pos; lia).
      pose proof (Z.div_mod (Z.of_nat n) 365 ltac:(lia)) as Hdm.
      pose proof (Z.mod_pos_bound (Z.of_nat n) 365 ltac:(lia)) as Hmod.
      destruct (Z.of_nat n mod 365 =? 0)%Z eqn:Hyear.
      + apply Z.eqb_eq in Hyear.
        assert (Hold : ((Z.of_nat n + 364) / 365 = Z.of_nat n / 365)%Z).
        { symmetry. apply Z.div_unique with (r := 364%Z); lia. }
        assert (Hnew : ((Z.of_nat (S n) + 364) / 365
                        = Z.of_nat n / 365 + 1)%Z).
        { symmetry. apply Z.div_unique with (r := 0%Z); lia. }
        rewrite Hold in Hkeys. rewrite Hnew.
        replace (Z.to_nat (Z.of_nat n / 365 + 1))
          with (S (Z.to_nat (Z.of_nat n / 365))) by lia.
        exists (lines ++ [YearLine scenario_name (model_label use_pid)
                            (Z.of_nat n / 365) N P C]).
        split; [rewrite app_assoc; reflexivity|].
        rewrite map_app, Hkeys, seq_S, map_app. cbn [map year_line_key].
        rewrite Nat.add_0_l, Z2Nat.id by exact Hdiv. reflexivity.
      + apply Z.eqb_neq in Hyear.
        assert (Hsame : ((Z.of_nat (S n) + 364) / 365
                         = (Z.of_nat n + 364) / 365)%Z).
        { assert (Hq : ((Z.of_nat n + 364) / 365 = Z.of_nat n / 365 + 1)%Z).
          { symmetry.
            apply Z.div_unique with (r := (Z.of_nat n mod 365 - 1)%Z); lia. }
          rewrite Hq. symmetry.
          apply Z.div_unique with (r := (Z.of_nat n mod 365)%Z); lia. }
        rewrite Hsame. exists lines. split; [reflexivity | exact Hkeys]. }
  destruct (Hinv 1825%nat ltac:(lia)) as [lines [Hlines Hkeys]].
  exists lines. split.
  - rewrite (firstn_days_all 1825) in Hlines by lia.
    unfold run_simulation.
    destruct (loop' days (start' stderr)) as [records st]. exact Hlines.
  - rewrite Hkeys. reflexivity.
Qed.

(** *** What never changes about an operator *)

Lemma same_traits_refl (a : Agent) : same_traits a a.
Proof. unfold same_traits. repeat split; reflexivity. Qed.

Lemma same_traits_trans (a b c : Agent) :
  same_traits a b -> same_traits b c -> same_traits a c.
Proof.
  unfold same_traits.
  intros [H1 [H2 [H3 [H4 H5]]]] [K1 [K2 [K3 [K4 K5]]]].
  repeat split; congruence.
Qed.

Lemma lifecycle_day_traits agents E F_daily N P t (rng : G) T
    cost_mult i a :
  nth_error agents i = Some a ->
  exists a',
    nth_error
      (update_reputation
         (fst (fst (fst (fst
            (update_operators agents E F_daily N P scenario t rng T cost_mult
                              slash_downtime slash_fraud))))) t) i
      = Some a' /\
    same_traits a a' /\
    (seasons_active a <= seasons_active a' <= seasons_active a + 1)%Z /\
    (0 <= reputation a -> 0 <= reputation a').
Proof.
  intros Ha.
  destruct (update_operators_nth agents E F_daily N P scenario t rng T
              cost_mult slash_downtime slash_fraud i a Ha)
    as [a1 [a2 [Hnth [Hoff [Hon Hpoach]]]]].
  destruct (update_reputation_nth _ t i a2 Hnth) as [a3 [Hnth3 Hrep]].
  exists a3. split; [exact Hnth3|].
  assert (H1 : same_traits a a1 /\ seasons_active a1 = seasons_active a /\
               reputation a1 = reputation a).
  { destruct (active a) eqn:Hact.
    - destruct (Hon eq_refl) as [_ [poe [pof [cost [sl [fr [g ->]]]]]]].
      destruct (operator_day_frame
                  (or_default slash_downtime SLASH_DOWNTIME)
                  (or_default slash_fraud SLASH_FRAUD)
                  poe pof P cost a sl fr g)
        as [K1 [K2 [K3 [K4 [K5 [K6 [K7 _]]]]]]].
      unfold same_traits. repeat split; assumption.
    - rewrite (Hoff eq_refl). split; [apply same_traits_refl|].
      split; reflexivity. }
  assert (H2 : same_traits a1 a2 /\ seasons_active a2 = seasons_active a1 /\
               reputation a2 = reputation a1).
  { destruct Hpoach as [-> | [_ ->]].
    - split; [apply same_traits_refl|]. split; reflexivity.
    - unfold same_traits. repeat split; reflexivity. }
  assert (H3 : same_traits a2 a3 /\
               (seasons_active a2 <= seasons_active a3
                <= seasons_active a2 + 1)%Z /\
               (0 <= reputation a2 -> 0 <= reputation a3)).
  { destruct Hrep as [-> | [_ ->]].
    - split; [apply same_traits_refl|]. split; [lia | auto].
    - destruct (reputation_season_fields a2) as [Hsea Hrange].
      split.
      + unfold same_traits, reputation_season.
        destruct (Rlt_dec _ _); repeat split; reflexivity.
      + split; [lia|]. intros Hr. apply Hrange. exact Hr. }
  destruct H1 as [T1 [S1 R1]]. destruct H2 as [T2 [S2 R2]].
  destruct H3 as [T3 [S3 R3]].
  split; [eapply same_traits_trans; [|exact T3];
          eapply same_traits_trans; eassumption|].
  split; [lia|]. intros Hr. apply R3. rewrite R2, R1. exact Hr.
Qed.

(** An operator's id, archetype, exit threshold, price sensitivity and
    fraud probability are fixed when it is created: whatever happens to it
    between day [j] and a later day [k] (slashing, exit, poaching, seasons),
    the operator at its position still has them, and its count of seasons
    has not gone down. *)
Theorem operator_traits_fixed (stderr : list LogLine) (j k : nat) :
  (j <= k)%nat ->
  forall i a,
    nth_error (st_agents (after' stderr j)) i = Some a ->
    exists a',
      nth_error (st_agents (after' stderr k)) i = Some a' /\
      same_traits a a' /\
      (seasons_active a <= seasons_active a')%Z.
Proof.
  intros Hjk.
  assert (Hstep : forall n i a,
            nth_error (st_agents (after' stderr n)) i = Some a ->
            exists a',
              nth_error (st_agents (after' stderr (S n))) i = Some a' /\
              same_traits a a' /\
              (seasons_active a <= seasons_active a')%Z).
  { intros n i a Ha.
    destruct (Nat.lt_ge_cases n 1825) as [Hlt | Hge].
    - rewrite after_S by exact Hlt.
      revert Ha. generalize (after' stderr n). intros st Ha.
      open_step. cbn [snd st_agents].
      match type of Hupd with
      | update_operators ?ag0 ?E ?F ?N ?P ?sc ?t0 ?g ?T ?cm ?sd ?sf = _ =>
          destruct (lifecycle_day_traits ag0 E F N P t0 g T cm i a Ha)
            as [a' [Hnth [Htr [Hsea _]]]];
          rewrite Hupd in Hnth
      end.
      exists a'. split; [exact Hnth|]. split; [exact Htr | lia].
    - rewrite (after_beyond stderr (S n)) by lia.
      rewrite (after_beyond stderr n) in Ha by lia.
      exists a. split; [exact Ha|]. split; [apply same_traits_refl | lia]. }
  induction Hjk as [|k Hjk IH]; intros i a Ha.
  - exists a. split; [exact Ha|]. split; [apply same_traits_refl | lia].
  - destruct (IH i a Ha) as [a1 [H1 [T1 S1]]].
    destruct (Hstep k i a1 H1) as [a2 [H2 [T2 S2]]].
    exists a2. split; [exact H2|].
    split; [eapply same_traits_trans; eassumption | lia].
Qed.

End RunCoverage.

End Coverage.

(** ** The rank-consistency verdict on unanimous tables *)

Lemma count_eq_repeat (v : Q) (n : nat) : count_eq v (repeat v n) = n.
Proof.
  unfold count_eq. induction n as [|n IH]; [reflexivity|].
  cbn [repeat filter]. rewrite Qeq_bool_refl. cbn [length]. f_equal. exact IH.
Qed.

Lemma modal_repeat (v : Q) (n : nat) : modal (repeat v (S n)) = v.
Proof.
  unfold modal. cbn [repeat hd].
  assert (Hle : Qle_bool v v = true) by (apply Qle_bool_iff, Qle_refl).
  assert (Hfold : forall l col,
            Forall (fun x => x = v) l ->
            fold_left
              (fun best x =>
                 if (count_eq best col <? count_eq x col)%nat then x
                 else if (count_eq best col =? count_eq x col)%nat
                         && negb (Qle_bool best x) then x
                 else best) l v = v).
  { intros l col. induction 1 as [|x l Hx Hl IH]; [reflexivity|].
    subst x. cbn [fold_left]. rewrite Nat.ltb_irrefl, Hle. cbn [negb].
    rewrite andb_false_r. exact IH. }
  apply Hfold. constructor; [reflexivity|].
  clear. induction n as [|n IH]; constructor; [reflexivity | exact IH].
Qed.

Lemma column_unanimous (j : nat) (r0 : list Q) (rows : list (list Q)) :
  Forall (fun row => row = r0) rows ->
  column j rows = repeat (nth j r0 0%Q) (List.length rows).
Proof.
  unfold column. induction 1 as [|row rows Hrow Hrows IH]; [reflexivity|].
  subst row. cbn [map length repeat]. f_equal. exact IH.
Qed.

Lemma fold_Qmin_same (c : Q) (cs : list Q) :
  Forall (fun x => x = c) cs -> fold_left Qmin cs c = c.
Proof.
  induction 1 as [|x cs Hx Hcs IH]; [reflexivity|].
  subst x. cbn [fold_left]. unfold Qmin at 2.
  destruct (Qle_bool c c); exact IH.
Qed.

Lemma rank_desc_all_tied (x : Z) (n : nat) :
  map (rank_desc (repeat x n)) (repeat x n)
    = repeat ((Z.of_nat n + 1) # 2) n.
Proof.
  assert (Hrank : rank_desc (repeat x n) x = (Z.of_nat n + 1) # 2).
  { unfold rank_desc.
    assert (Hgt : filter (fun y => (x <? y)%Z) (repeat x n) = []).
    { induction n as [|n IH]; [reflexivity|].
      cbn [repeat filter]. rewrite Z.ltb_irrefl. exact IH. }
    assert (Heq : filter (fun y => (x =? y)%Z) (repeat x n) = repeat x n).
    { clear Hgt. induction n as [|n IH]; [reflexivity|].
      cbn [repeat filter]. rewrite Z.eqb_refl. f_equal. exact IH. }
    rewrite Hgt, Heq, repeat_length. cbn [length]. reflexivity. }
  generalize dependent (rank_desc (repeat x n)).
  generalize ((Z.of_nat n + 1) # 2). intros v f Hf.
  induction n as [|m IH]; [reflexivity|].
  cbn [repeat map]. rewrite Hf, IH. reflexivity.
Qed.

(** When every seed ranks the five Ki values in the same way, the harness
    answers "structural"; in particular it does so when, in every seed, the
    five runs end with the same population (for instance because all of
    them collapsed), although Ki then makes no difference at all. *)
Theorem unanimous_rankings_structural (pivot : list (list Z)) :
  pivot <> [] ->
  ((exists r0, forall row, In row pivot -> map (rank_desc row) row = r0) ->
   rank_consistency_verdict pivot = STRUCTURAL) /\
  ((forall row, In row pivot -> exists x, row = repeat x 5) ->
   rank_consistency_verdict pivot = STRUCTURAL).
Proof.
  intros Hne.
  assert (Hgen : (exists r0, forall row, In row pivot ->
                    map (rank_desc row) row = r0) ->
                 rank_consistency_verdict pivot = STRUCTURAL).
  { intros [r0 Hall].
    assert (Hrows : Forall (fun row => row = r0) (rankings pivot)).
    { unfold rankings. apply Forall_map, Forall_forall. exact Hall. }
    unfold rank_consistency_verdict. change (List.length ki_values) with 5%nat.
    destruct pivot as [|row0 rest]; [congruence|].
    set (n := List.length rest).
    assert (Hcons : forall j,
              consistency (column j (rankings (row0 :: rest)))
              = Z.of_nat (S n) # Pos.of_nat (S n)).
    { intros j. rewrite (column_unanimous j r0 _ Hrows).
      unfold rankings. rewrite length_map. cbn [length]. fold n.
      unfold consistency. rewrite modal_repeat, count_eq_repeat, repeat_length.
      reflexivity. }
    unfold min_consistency. cbn [seq map]. rewrite !Hcons.
    rewrite fold_Qmin_same by (repeat constructor).
    unfold verdict_of.
    destruct (Qle_bool (Z.of_nat (S n) # Pos.of_nat (S n)) (60 # 100))
      eqn:Hle; [|reflexivity].
    apply Qle_bool_iff in Hle. unfold Qle in Hle. cbn [Qnum Qden] in Hle.
    rewrite <- (Pos2Z.inj_mul 60) in Hle.
    assert (Hpos : Z.pos (Pos.of_nat (S n)) = Z.of_nat (S n)).
    { rewrite <- (Nat2Pos.id (S n)) at 2 by discriminate.
      rewrite positive_nat_Z. reflexivity. }
    rewrite Pos2Z.inj_mul, Hpos in Hle. lia. }
  split; [exact Hgen|].
  intros Hties. apply Hgen. exists (repeat ((5 + 1) # 2) 5).
  intros row Hin. destruct (Hties row Hin) as [x ->].
  apply (rank_desc_all_tied x 5).
Qed.

(** ** The batch drivers *)

Section DriverProperties.
Context {G : Type} `{Generator G}.
Variables OU_KAPPA OU_SIGMA : R.

#[local] Abbreviation run_default name sc use_pid seed stderr :=
  (run_simulation OU_KAPPA OU_SIGMA name sc use_pid seed
                  None None None None None stderr).

(** The records of a run do not depend on what standard error held. *)
Lemma run_records_any name sc use_pid seed kp ki kd sd sf
    (e1 e2 : list LogLine) :
  fst (run_simulation OU_KAPPA OU_SIGMA name sc use_pid seed kp ki kd sd sf e1)
  = fst (run_simulation OU_KAPPA OU_SIGMA name sc use_pid seed kp ki kd sd sf
                        e2).
Proof.
  rewrite !run_records.
  apply sim_loop_same_core, initial_state_same_core.
Qed.

Lemma final_record_run name sc use_pid seed kp ki kd sd sf
    (stderr : list LogLine) :
  let records :=
    fst (run_simulation OU_KAPPA OU_SIGMA name sc use_pid seed kp ki kd sd sf
                        stderr) in
  exists final,
    final_record records = Some final /\
    nth_error records 1824 = Some final.
Proof.
  cbv zeta. unfold final_record. rewrite run_length.
  change (1825 - 1)%nat with 1824%nat.
  destruct (nth_error _ 1824) as [final|] eqn:Hnth; [eauto|].
  apply nth_error_None in Hnth. rewrite run_length in Hnth. lia.
Qed.




(** *** The core batch *)




(** *** The seed ensemble *)

Lemma sum_of_bounds (lo hi : R) (xs : list R) :
  Forall (fun x => lo <= x <= hi) xs ->
  INR (List.length xs) * lo <= sum_of xs <= INR (List.length xs) * hi.
Proof.
  unfold sum_of. intros Hall.
  assert (Hgen : forall acc,
            acc + INR (List.length xs) * lo
              <= fold_left Rplus xs acc
              <= acc + INR (List.length xs) * hi).
  { induction Hall as [|x xs Hx Hxs IH]; intros acc.
    - cbn. lra.
    - cbn [fold_left]. specialize (IH (acc + x)).
      change (List.length (x :: xs)) with (S (List.length xs)).
      rewrite S_INR. lra. }
  specialize (Hgen 0). lra.
Qed.

(** A job of the ensemble and the row it produces. *)
Lemma ensemble_row_run name sc use_pid seed :
  let records := fst (run_default name sc use_pid seed []) in
  exists final row,
    nth_error records 1824 = Some final /\
    ensemble_row name (model_name use_pid) seed records = Some row /\
    ens_scenario row = name /\
    ens_emission_model row = model_name use_pid /\
    ens_seed row = seed /\
    ens_final_N row = rec_N final /\
    ens_slashed_total row = rec_slashed_total final /\
    (1 <= ens_final_N row <= 12000)%Z /\
    1825 * 27397 <= ens_total_emission row <= 1825 * 328767.
Proof.
  cbv zeta.
  destruct (final_record_run name sc use_pid seed None None None None None [])
    as [final [Hfinal Hnth]].
  pose proof (run_length OU_KAPPA OU_SIGMA name sc use_pid seed
                None None None None None []) as Hlen.
  assert (Hok : Forall record_ok (fst (run_default name sc use_pid seed []))).
  { rewrite run_records.
    destruct (sim_loop_ok OU_KAPPA OU_SIGMA name sc use_pid seed
                None None None None None days
                (initial_state seed [])) as [Hrec _].
    - rewrite initial_state_E. unfold PID_MIN, PID_MAX, BASE_EMISSION. lra.
    - rewrite <- (firstn_all days). apply firstn_days_range.
    - clear -Hrec. induction Hrec as [|t r ts rs [_ Hr] Hrest IH];
        constructor; assumption. }
  assert (Hcap : Forall (fun r => (rec_N r <= 12000)%Z)
                        (fst (run_default name sc use_pid seed []))).
  { apply run_rows. intros t Ht. rewrite row_N by exact Ht.
    pose proof (after_count_cap OU_KAPPA OU_SIGMA name sc use_pid seed
                  None None None None None [] (S t)). lia. }
  unfold ensemble_row. rewrite Hfinal.
  destruct (fst (run_default name sc use_pid seed [])) as [|r0 rest] eqn:Hrecs;
    [discriminate Hlen|].
  cbn [map max_of]. do 2 eexists. split; [exact Hnth|].
  split; [reflexivity|]. cbn [ens_scenario ens_emission_model ens_seed
    ens_final_N ens_slashed_total ens_total_emission].
  rewrite Forall_forall in Hok, Hcap.
  pose proof (nth_error_In _ _ Hnth) as Hin.
  destruct (Hok final Hin) as [_ [_ [HN _]]].
  pose proof (Hcap final Hin) as HN'.
  assert (Hsum : 1825 * 27397 <= sum_of (map rec_E (r0 :: rest))
                 <= 1825 * 328767).
  { pose proof (sum_of_bounds 27397 328767 (map rec_E (r0 :: rest))) as Hsum.
    rewrite length_map, Hlen in Hsum.
    replace (INR 1825) with 1825 in Hsum
      by (rewrite INR_IZR_INZ; reflexivity).
    apply Hsum. apply Forall_map, Forall_forall. intros r Hr.
    destruct (Hok r Hr) as [_ [_ [_ [_ HE]]]].
    unfold PID_MIN, PID_MAX in HE. exact HE. }
  repeat split; try reflexivity; try lia; apply Hsum.
Qed.

Lemma ensemble_loop_rows (jobs : list (string * Scenario * bool * Z)) :
  forall run_count stderr,
  exists rows,
    fst (ensemble_loop OU_KAPPA OU_SIGMA jobs run_count stderr) = Some rows /\
    Forall2
      (fun job row =>
         ensemble_row (fst (fst (fst job)))
                      (model_name (snd (fst job))) (snd job)
                      (fst (run_default (fst (fst (fst job)))
                                        (snd (fst (fst job)))
                                        (snd (fst job)) (snd job) []))
         = Some row)
      jobs rows.
Proof.
  induction jobs as [|[[[name sc] use_pid] seed] rest IH];
    intros run_count stderr.
  - exists []. split; [reflexivity | constructor].
  - cbn [ensemble_loop].
    destruct (ensemble_row_run name sc use_pid seed)
      as [final [row [_ [Hrow _]]]].
    cbv zeta in Hrow.
    destruct (run_default name sc use_pid seed []) as [records lines]
      eqn:Hrun.
    cbn [fst] in Hrow. rewrite Hrow.
    match goal with
    | |- context [ensemble_loop _ _ rest ?c ?e] =>
        destruct (IH c e) as [rows [Hrows Hall]];
        destruct (ensemble_loop OU_KAPPA OU_SIGMA rest c e) as [more e2]
    end.
    cbn [fst] in Hrows. subst more.
    exists (row :: rows). split; [reflexivity|].
    constructor; [|exact Hall]. cbn [fst snd]. rewrite Hrun. exact Hrow.
Qed.

(** The ensemble never fails and returns 240 rows, one per job in the
    order scenario, model (PID first), seed 1000..1029; each row carries its
    job's labels, the last day's operator count, between 1 and 12000, and a
    total emission between 1825 times the floor and 1825 times the ceiling
    of the emission band. *)
Theorem run_ensemble_table (stderr : list BatchLine) :
  exists rows,
    fst (run_ensemble OU_KAPPA OU_SIGMA stderr) = Some rows /\
    List.length rows = 240%nat /\
    Forall2
      (fun job row =>
         ens_scenario row = fst (fst (fst job)) /\
         ens_emission_model row = model_name (snd (fst job)) /\
         ens_seed row = snd job /\
         (exists final,
            nth_error (fst (run_default (fst (fst (fst job)))
                                        (snd (fst (fst job)))
                                        (snd (fst job)) (snd job) []))
                      1824 = Some final /\
            ens_final_N row = rec_N final /\
            ens_slashed_total row = rec_slashed_total final) /\
         (1 <= ens_final_N row <= 12000)%Z /\
         1825 * 27397 <= ens_total_emission row <= 1825 * 328767)
      ensemble_jobs rows.
Proof.
  destruct (ensemble_loop_rows ensemble_jobs 0 stderr) as [rows [Hrows Hall]].
  exists rows. split; [exact Hrows|]. split.
  - rewrite <- (Forall2_length Hall). reflexivity.
  - eapply Forall2_impl; [|exact Hall].
    intros [[[name sc] use_pid] seed] row Hrow. cbn [fst snd] in *.
    destruct (ensemble_row_run name sc use_pid seed)
      as [final [row' [Hnth [Hrow' Hfields]]]].
    cbv zeta in Hrow'. rewrite Hrow in Hrow'. injection Hrow' as <-.
    destruct Hfields as [H1 [H2 [H3 [H4 [H5 [H6 H7]]]]]].
    split; [exact H1|]. split; [exact H2|]. split; [exact H3|].
    split; [exists final; auto|]. split; assumption.
Qed.

(** *** The harness repeats the ensemble *)

Lemma day_step_default_gains name sc use_pid seed sd sf
    (st : SimState) (t : Z) :
  day_step OU_KAPPA OU_SIGMA name sc use_pid seed
           (Some KP_NORM) (Some KI_NORM) (Some KD_NORM) sd sf st t
  = day_step OU_KAPPA OU_SIGMA name sc use_pid seed None None None sd sf st t.
Proof. reflexivity. Qed.

Lemma sim_loop_default_gains name sc use_pid seed sd sf (ts : list Z) :
  forall st : SimState,
  sim_loop OU_KAPPA OU_SIGMA name sc use_pid seed
           (Some KP_NORM) (Some KI_NORM) (Some KD_NORM) sd sf ts st
  = sim_loop OU_KAPPA OU_SIGMA name sc use_pid seed None None None sd sf ts st.
Proof.
  induction ts as [|t ts IH]; intros st; [reflexivity|].
  cbn [sim_loop]. rewrite day_step_default_gains.
  destruct (day_step _ _ _ _ _ _ _ _ _ _ _ st t) as [r st1].
  rewrite IH. reflexivity.
Qed.

(** Passing the default gains explicitly is the same as omitting them. *)
Lemma run_default_gains name sc use_pid seed sd sf (stderr : list LogLine) :
  run_simulation OU_KAPPA OU_SIGMA name sc use_pid seed
                 (Some KP_NORM) (Some KI_NORM) (Some KD_NORM) sd sf stderr
  = run_simulation OU_KAPPA OU_SIGMA name sc use_pid seed
                   None None None sd sf stderr.
Proof.
  unfold run_simulation. rewrite sim_loop_default_gains. reflexivity.
Qed.

Lemma final_N_of_final (records : list SimulationRecord)
    (final : SimulationRecord) :
  final_record records = Some final -> final_N_of records = rec_N final.
Proof.
  unfold final_record, final_N_of. intros Hfinal.
  destruct records as [|r0 rest] using rev_ind; [discriminate|].
  rewrite rev_app_distr. cbn [rev app].
  rewrite length_app in Hfinal. cbn [length] in Hfinal.
  replace (List.length rest + 1 - 1)%nat with (List.length rest) in Hfinal
    by lia.
  rewrite nth_error_app2, Nat.sub_diag in Hfinal by lia.
  cbn in Hfinal. injection Hfinal as ->. reflexivity.
Qed.

(** Thirty of the harness's 150 runs repeat runs of the ensemble: for every
    seed, the harness's run with Ki = 0.15 (its default) is the ensemble's
    PID run of the bear scenario with that seed, so the two tables agree on
    the terminal population, row 60 + offset in both. *)
Theorem ki_harness_repeats_ensemble (stderr1 : list LogLine)
    (stderr2 : list BatchLine) (off : nat) :
  (off < 30)%nat ->
  exists n rows row,
    nth_error (fst (ki_sweep OU_KAPPA OU_SIGMA ki_cases 0 stderr1)) (60 + off)
      = Some (0.15, (1000 + Z.of_nat off)%Z, n) /\
    fst (run_ensemble OU_KAPPA OU_SIGMA stderr2) = Some rows /\
    nth_error rows (60 + off) = Some row /\
    ens_scenario row = "bear"%string /\
    ens_emission_model row = "pid"%string /\
    ens_seed row = (1000 + Z.of_nat off)%Z /\
    ens_final_N row = n.
Proof.
  intros Hoff.
  assert (Hcase : nth_error ki_cases (60 + off)
                  = Some (0.15, (1000 + Z.of_nat off)%Z)).
  { do 30 (destruct off as [|off]; [reflexivity|]). lia. }
  assert (Hjob : nth_error ensemble_jobs (60 + off)
                 = Some ("bear"%string, bear, true, (1000 + Z.of_nat off)%Z)).
  { do 30 (destruct off as [|off]; [reflexivity|]). lia. }
  destruct (Forall2_nth_error _ _ _
              (ki_sweep_rows OU_KAPPA OU_SIGMA ki_cases 0 stderr1)
              (60 + off)%nat _ Hcase)
    as [[[ki seed] n] [Hnth [Hki [Hseed [stderr' Hn]]]]].
  cbn [fst snd] in Hki, Hseed, Hn. subst ki seed.
  destruct (ensemble_loop_rows ensemble_jobs 0 stderr2) as [rows [Hrows Hall]].
  destruct (Forall2_nth_error _ _ _ Hall (60 + off)%nat _ Hjob)
    as [row [Hrow Hmade]].
  cbn [fst snd] in Hmade.
  destruct (ensemble_row_run "bear"%string bear true (1000 + Z.of_nat off)%Z)
    as [final [row' [Hlast [Hrow' [H1 [H2 [H3 [H4 _]]]]]]]].
  cbv zeta in Hrow', Hlast. rewrite Hmade in Hrow'. injection Hrow' as <-.
  exists n, rows, row.
  split; [exact Hnth|]. split; [exact Hrows|]. split; [exact Hrow|].
  split; [exact H1|]. split; [exact H2|]. split; [exact H3|].
  rewrite H4, Hn.
  change (Some 0.15) with (Some KI_NORM).
  rewrite run_default_gains.
  rewrite (run_records_any "bear"%string bear true (1000 + Z.of_nat off)%Z
             None None None None None stderr' []).
  symmetry. apply final_N_of_final.
  destruct (final_record_run "bear"%string bear true (1000 + Z.of_nat off)%Z
              None None None None None []) as [final' [Hf Hl]].
  cbv zeta in Hf, Hl. rewrite Hlast in Hl. injection Hl as <-. exact Hf.
Qed.

(** *** The gain sweep *)

Lemma fold_Zmax_spec (l : list Z) :
  forall acc lo hi,
  (lo <= acc <= hi)%Z -> Forall (fun x => (lo <= x <= hi)%Z) l ->
  (lo <= fold_left Z.max l acc <= hi)%Z /\
  (acc <= fold_left Z.max l acc)%Z /\
  (forall x, In x l -> (x <= fold_left Z.max l acc)%Z).
Proof.
  induction l as [|y l IH]; intros acc lo hi Hacc Hall.
  - cbn. split; [exact Hacc|]. split; [lia | intros x []].
  - inversion Hall as [|? ? Hy Hl]; subst. cbn [fold_left].
    destruct (IH (Z.max acc y) lo hi ltac:(lia) Hl) as [H1 [H2 H3]].
    split; [exact H1|]. split; [lia|].
    intros x [<- | Hx]; [lia | apply H3; exact Hx].
Qed.

Lemma fold_Zmin_spec (l : list Z) :
  forall acc lo hi,
  (lo <= acc <= hi)%Z -> Forall (fun x => (lo <= x <= hi)%Z) l ->
  (lo <= fold_left Z.min l acc <= hi)%Z /\
  (fold_left Z.min l acc <= acc)%Z /\
  (forall x, In x l -> (fold_left Z.min l acc <= x)%Z).
Proof.
  induction l as [|y l IH]; intros acc lo hi Hacc Hall.
  - cbn. split; [exact Hacc|]. split; [lia | intros x []].
  - inversion Hall as [|? ? Hy Hl]; subst. cbn [fold_left].
    destruct (IH (Z.min acc y) lo hi ltac:(lia) Hl) as [H1 [H2 H3]].
    split; [exact H1|]. split; [lia|].
    intros x [<- | Hx]; [lia | apply H3; exact Hx].
Qed.

Lemma fold_Rmax_spec (l : list R) :
  forall acc hi,
  acc <= hi -> Forall (fun x => x <= hi) l ->
  acc <= fold_left Rmax l acc <= hi.
Proof.
  induction l as [|y l IH]; intros acc hi Hacc Hall.
  - cbn. lra.
  - inversion Hall as [|? ? Hy Hl]; subst. cbn [fold_left].
    destruct (IH (Rmax acc y) hi (Rmax_lub _ _ _ Hacc Hy) Hl) as [H1 H2].
    pose proof (Rmax_l acc y). lra.
Qed.

Lemma fold_Rmin_spec (l : list R) :
  forall acc lo,
  lo <= acc -> Forall (fun x => lo <= x) l ->
  lo <= fold_left Rmin l acc <= acc.
Proof.
  induction l as [|y l IH]; intros acc lo Hacc Hall.
  - cbn. lra.
  - inversion Hall as [|? ? Hy Hl]; subst. cbn [fold_left].
    destruct (IH (Rmin acc y) lo (Rmin_glb _ _ _ Hacc Hy) Hl) as [H1 H2].
    pose proof (Rmin_l acc y). lra.
Qed.

Lemma sum_abs_deviation_bound (ns : list Z) :
  Forall (fun n => (1 <= n <= 12000)%Z) ns ->
  forall acc,
  (acc <= fold_left Z.add (map (fun n => Z.abs (n - N_TARGET)) ns) acc
       <= acc + 9999 * Z.of_nat (List.length ns))%Z.
Proof.
  induction 1 as [|n ns Hn Hns IH]; intros acc.
  - cbn. lia.
  - cbn [map fold_left]. specialize (IH (acc + Z.abs (n - N_TARGET))%Z).
    unfold N_TARGET in *. change (List.length (n :: ns))
      with (S (List.length ns)). lia.
Qed.

(** The records of any run, as the sweeps and the ensemble read them. *)
Lemma run_records_ok name sc use_pid seed kp ki kd sd sf
    (stderr : list LogLine) :
  Forall (fun r => (1 <= rec_N r <= 12000)%Z /\
                   27397 <= rec_E r <= 328767)
    (fst (run_simulation OU_KAPPA OU_SIGMA name sc use_pid seed kp ki kd sd sf
                         stderr)).
Proof.
  assert (Hok : Forall record_ok
            (fst (run_simulation OU_KAPPA OU_SIGMA name sc use_pid seed
                    kp ki kd sd sf stderr))).
  { rewrite run_records.
    destruct (sim_loop_ok OU_KAPPA OU_SIGMA name sc use_pid seed
                kp ki kd sd sf days (initial_state seed stderr)) as [Hrec _].
    - rewrite initial_state_E. unfold PID_MIN, PID_MAX, BASE_EMISSION. lra.
    - rewrite <- (firstn_all days). apply firstn_days_range.
    - clear -Hrec. induction Hrec as [|t r ts rs [_ Hr] Hrest IH];
        constructor; assumption. }
  assert (Hcap : Forall (fun r => (rec_N r <= 12000)%Z)
            (fst (run_simulation OU_KAPPA OU_SIGMA name sc use_pid seed
                    kp ki kd sd sf stderr))).
  { apply run_rows. intros t Ht. rewrite row_N by exact Ht.
    pose proof (after_count_cap OU_KAPPA OU_SIGMA name sc use_pid seed
                  kp ki kd sd sf stderr (S t)). lia. }
  rewrite Forall_forall in *. intros r Hr.
  destruct (Hok r Hr) as [_ [_ [HN [_ HE]]]]. pose proof (Hcap r Hr).
  unfold PID_MIN, PID_MAX in HE. split; [lia | exact HE].
Qed.

Lemma sweep_row_run param value kp ki kd name sc seed
    (stderr : list LogLine) :
  let records :=
    fst (run_simulation OU_KAPPA OU_SIGMA name sc true seed
                        (Some kp) (Some ki) (Some kd) None None stderr) in
  exists final row,
    nth_error records 1824 = Some final /\
    sweep_row param value ki kd name records = Some row /\
    sw_scenario row = name /\ sw_final_N row = rec_N final /\
    (1 <= sw_min_N row <= sw_final_N row)%Z /\
    (sw_final_N row <= sw_max_N row <= 12000)%Z /\
    0 <= sw_dev_from_target row < 1 /\
    0 <= sw_mad row < 10000 /\
    0 <= sw_E_range row <= 301370.
Proof.
  cbv zeta.
  destruct (final_record_run name sc true seed (Some kp) (Some ki) (Some kd)
              None None stderr) as [final [Hfinal Hnth]].
  pose proof (run_length OU_KAPPA OU_SIGMA name sc true seed
                (Some kp) (Some ki) (Some kd) None None stderr) as Hlen.
  pose proof (run_records_ok name sc true seed (Some kp) (Some ki) (Some kd)
                None None stderr) as Hok.
  cbv zeta in Hfinal, Hnth.
  generalize dependent
    (fst (run_simulation OU_KAPPA OU_SIGMA name sc true seed
            (Some kp) (Some ki) (Some kd) None None stderr)).
  intros records Hfinal Hnth Hlen Hok.
  unfold sweep_row. rewrite Hfinal.
  destruct records as [|r0 rest]; [discriminate Hlen|].
  cbn [map max_Z min_Z max_of min_of].
  do 2 eexists. split; [exact Hnth|]. split; [reflexivity|].
  cbn [sw_scenario sw_final_N sw_min_N sw_max_N sw_dev_from_target sw_mad
       sw_E_range].
  inversion Hok as [|? ? [HN0 HE0] Hrest]; subst.
  assert (HNs : Forall (fun x => (1 <= x <= 12000)%Z) (map rec_N rest)).
  { apply Forall_map. eapply Forall_impl; [|exact Hrest]. intros r [Hr _].
    exact Hr. }
  assert (HEhi : Forall (fun x => x <= 328767) (map rec_E rest)).
  { apply Forall_map. eapply Forall_impl; [|exact Hrest]. intros r [_ Hr].
    apply Hr. }
  assert (HElo : Forall (fun x => 27397 <= x) (map rec_E rest)).
  { apply Forall_map. eapply Forall_impl; [|exact Hrest]. intros r [_ Hr].
    apply Hr. }
  destruct (fold_Zmax_spec (map rec_N rest) (rec_N r0) 1 12000 HN0 HNs)
    as [Hmax [Hmax0 Hmaxin]].
  destruct (fold_Zmin_spec (map rec_N rest) (rec_N r0) 1 12000 HN0 HNs)
    as [Hmin [Hmin0 Hminin]].
  pose proof (fold_Rmax_spec (map rec_E rest) (rec_E r0) 328767
                (proj2 HE0) HEhi) as HEmax.
  pose proof (fold_Rmin_spec (map rec_E rest) (rec_E r0) 27397
                (proj1 HE0) HElo) as HEmin.
  assert (Hfin : (1 <= rec_N final <= 12000)%Z).
  { rewrite Forall_forall in Hok. apply (Hok final).
    eapply nth_error_In. exact Hnth. }
  assert (Hbetween : (fold_left Z.min (map rec_N rest) (rec_N r0)
                      <= rec_N final
                      <= fold_left Z.max (map rec_N rest) (rec_N r0))%Z).
  { pose proof (nth_error_In _ _ Hnth) as [<- | Hin]; [lia|].
    assert (Hin' : In (rec_N final) (map rec_N rest))
      by (apply in_map; exact Hin).
    split; [apply Hminin | apply Hmaxin]; exact Hin'. }
  split; [reflexivity|]. split; [reflexivity|].
  split; [lia|]. split; [lia|]. split; [|split].
  - unfold N_TARGET.
    assert (Habs : (0 <= Z.abs (rec_N final - 10000) <= 9999)%Z) by lia.
    destruct Habs as [Ha0 Ha1]. apply IZR_le in Ha0, Ha1. lra.
  - change (rec_N r0 :: map rec_N rest) with (map rec_N (r0 :: rest)).
    unfold mean_abs_deviation. rewrite length_map, Hlen.
    pose proof (sum_abs_deviation_bound (map rec_N (r0 :: rest))) as Hsum.
    rewrite map_map in Hsum.
    assert (Hall : Forall (fun n => (1 <= n <= 12000)%Z)
                          (map rec_N (r0 :: rest))).
    { apply Forall_map. eapply Forall_impl; [|exact Hok].
      intros r [Hr _]. exact Hr. }
    specialize (Hsum Hall 0%Z). rewrite length_map, Hlen in Hsum.
    rewrite map_map.
    destruct Hsum as [Hs0 Hs1]. apply IZR_le in Hs0, Hs1.
    rewrite plus_IZR, mult_IZR in Hs1.
    replace (INR 1825) with 1825 by (rewrite INR_IZR_INZ; reflexivity).
    change (IZR (Z.of_nat 1825)) with 1825 in Hs1.
    generalize dependent
      (IZR (fold_left Z.add
              (map (fun x => Z.abs (rec_N x - N_TARGET)) (r0 :: rest)) 0%Z)).
    intros total Hs0 Hs1. lra.
  - lra.
Qed.

Lemma sweep_row_outcome p1 v1 ki1 kd1 p2 v2 ki2 kd2 name records a b :
  sweep_row p1 v1 ki1 kd1 name records = Some a ->
  sweep_row p2 v2 ki2 kd2 name records = Some b ->
  same_outcome a b.
Proof.
  unfold sweep_row. destruct (final_record records); [|discriminate].
  destruct (max_Z _); [|discriminate]. destruct (min_Z _); [|discriminate].
  destruct (max_of _); [|discriminate]. destruct (min_of _); [|discriminate].
  intros Ha Hb. injection Ha as <-. injection Hb as <-.
  unfold same_outcome. cbn. repeat split; reflexivity.
Qed.

Lemma sweep_loop_rows (jobs : list SweepJob) :
  forall stderr,
  exists rows,
    fst (sweep_loop OU_KAPPA OU_SIGMA jobs stderr) = Some rows /\
    Forall2
      (fun (job : SweepJob) row =>
         let '(param, value, (kp, ki, kd), name, sc, seed) := job in
         sweep_row param value ki kd name
           (fst (run_simulation OU_KAPPA OU_SIGMA name sc true seed
                   (Some kp) (Some ki) (Some kd) None None []))
         = Some row)
      jobs rows.
Proof.
  induction jobs as [|[[[[[param value] [[kp ki] kd]] name] sc] seed] rest IH];
    intros stderr.
  - exists []. split; [reflexivity | constructor].
  - cbn [sweep_loop].
    destruct (sweep_row_run param value kp ki kd name sc seed stderr)
      as [final [row [_ [Hrow _]]]].
    cbv zeta in Hrow.
    pose proof (run_records_any name sc true seed (Some kp) (Some ki)
                  (Some kd) None None stderr []) as Hany.
    destruct (run_simulation OU_KAPPA OU_SIGMA name sc true seed
                (Some kp) (Some ki) (Some kd) None None stderr)
      as [records e1].
    cbn [fst] in Hrow, Hany. rewrite Hrow.
    destruct (IH e1) as [rows [Hrows Hall]].
    destruct (sweep_loop OU_KAPPA OU_SIGMA rest e1) as [more e2].
    cbn [fst] in Hrows. subst more.
    exists (row :: rows). split; [reflexivity|].
    constructor; [|exact Hall]. rewrite <- Hany. exact Hrow.
Qed.

(** The gain sweep never fails and returns 60 rows.  In every row the
    population figures are ordered and bounded ([1 <= min_N <= final_N <=
    max_N <= 12000]), the deviation from target is in [0, 1), the mean
    absolute deviation is below 10000 and the emission range is at most
    [PID_MAX - PID_MIN].  For each scenario the rows for Kp = 0.8, Ki = 0.15
    and Kd = 0.2 (rows 8, 28 and 48 plus the scenario's index) come from
    the same run and report the same outcome, which is that of the core
    batch's PID run of the scenario. *)
Theorem sensitivity_sweep_table (stderr : list LogLine) :
  exists rows,
    fst (sensitivity_sweep OU_KAPPA OU_SIGMA stderr) = Some rows /\
    List.length rows = 60%nat /\
    Forall (fun row =>
              (1 <= sw_min_N row <= sw_final_N row)%Z /\
              (sw_final_N row <= sw_max_N row <= 12000)%Z /\
              0 <= sw_dev_from_target row < 1 /\
              0 <= sw_mad row < 10000 /\
              0 <= sw_E_range row <= 301370) rows /\
    forall idx name sc,
      nth_error SCENARIOS idx = Some (name, sc) ->
      exists a b c final,
        nth_error rows (8 + idx) = Some a /\
        nth_error rows (28 + idx) = Some b /\
        nth_error rows (48 + idx) = Some c /\
        sw_scenario a = name /\
        same_outcome a b /\ same_outcome b c /\
        nth_error (fst (run_default name sc true (SEED + Z.of_nat idx) []))
                  1824 = Some final /\
        sw_final_N a = rec_N final.
Proof.
  destruct (sweep_loop_rows sensitivity_jobs stderr) as [rows [Hrows Hall]].
  exists rows. split; [exact Hrows|]. split; [|split].
  - rewrite <- (Forall2_length Hall). reflexivity.
  - apply Forall_nth_error. intros i row Hi.
    assert (Hjob : exists job, nth_error sensitivity_jobs i = Some job).
    { destruct (nth_error sensitivity_jobs i) as [job|] eqn:Hj; [eauto|].
      apply nth_error_None in Hj. rewrite (Forall2_length Hall) in Hj.
      assert (i < List.length rows)%nat
        by (apply nth_error_Some; congruence).
      lia. }
    destruct Hjob as [[[[[[param value] [[kp ki] kd]] name] sc] seed] Hjob].
    destruct (Forall2_nth_error _ _ _ Hall i _ Hjob) as [row' [Hrow' Hmade]].
    assert (row' = row) by congruence. subst row'.
    destruct (sweep_row_run param value kp ki kd name sc seed [])
      as [final [row2 [_ [Hrow2 [_ [_ Hbounds]]]]]].
    cbv zeta in Hrow2. rewrite Hmade in Hrow2. injection Hrow2 as <-.
    exact Hbounds.
  - intros idx name sc Hidx.
    assert (Hjobs :
      nth_error sensitivity_jobs (8 + idx)
        = Some ("Kp"%string, 0.8, (0.8, KI_NORM, KD_NORM), name, sc,
                (SEED + Z.of_nat idx)%Z) /\
      nth_error sensitivity_jobs (28 + idx)
        = Some ("Ki"%string, 0.15, (KP_NORM, 0.15, KD_NORM), name, sc,
                (SEED + Z.of_nat idx)%Z) /\
      nth_error sensitivity_jobs (48 + idx)
        = Some ("Kd"%string, 0.20, (KP_NORM, KI_NORM, 0.20), name, sc,
                (SEED + Z.of_nat idx)%Z)).
    { do 4 (destruct idx as [|idx];
            [cbn in Hidx; injection Hidx as <- <-;
             repeat split; reflexivity|]).
      destruct idx; discriminate. }
    destruct Hjobs as [Ja [Jb Jc]].
    destruct (Forall2_nth_error _ _ _ Hall _ _ Ja) as [a [Ha Ma]].
    destruct (Forall2_nth_error _ _ _ Hall _ _ Jb) as [b [Hb Mb]].
    destruct (Forall2_nth_error _ _ _ Hall _ _ Jc) as [c [Hc Mc]].
    destruct (sweep_row_run "Kp"%string 0.8 KP_NORM KI_NORM KD_NORM name sc
                (SEED + Z.of_nat idx)%Z [])
      as [final [a' [Hlast [Ha' [Hname [HfinalN _]]]]]].
    cbv zeta in Ha', Hlast.
    assert (a' = a).
    { change KP_NORM with 0.8 in Ha'. rewrite Ma in Ha'. congruence. }
    subst a'.
    exists a, b, c, final.
    split; [exact Ha|]. split; [exact Hb|]. split; [exact Hc|].
    split; [exact Hname|].
    assert (Hkd : 0.20 = KD_NORM) by (unfold KD_NORM; lra).
    rewrite Hkd in Mc.
    change KP_NORM with 0.8 in Mb, Mc. change KI_NORM with 0.15 in Ma, Mc.
    split; [exact (sweep_row_outcome _ _ _ _ _ _ _ _ _ _ _ _ Ma Mb)|].
    split; [exact (sweep_row_outcome _ _ _ _ _ _ _ _ _ _ _ _ Mb Mc)|].
    split; [|exact HfinalN].
    rewrite run_default_gains in Hlast. exact Hlast.
Qed.

(** *** The governance exponent sweep *)

Lemma es_day_matches (e : EsState) (st : SimState) (t : Z)
    (stderr_name : string) :
  es_matches e st ->
  es_matches (es_day OU_KAPPA OU_SIGMA e t)
    (snd (day_step OU_KAPPA OU_SIGMA stderr_name bull true SEED
                   None None None None None st t)).
Proof.
  destruct e as [C1 T1 N1 F1 P1 E1 B1 i1 pe1 sl1 cm1 ag1 w1 g1].
  destruct st as [C2 T2 N2 F2 P2 E2 B2 i2 pe2 sl2 fr2 cm2 ag2 w2 g2 e2].
  unfold es_matches. cbn.
  intros [-> [-> [-> [-> [-> [-> [-> [-> [-> [-> [-> [-> [-> ->]]]]]]]]]]]]].
  unfold es_day, day_step, emission_stage. cbn.
  destruct (compute_demand _ _ _ _ _ _) as [F g].
  destruct (pid_emission _ _ _ _ _ _ _) as [[[new_E|] i] pe];
    destruct (update_operators _ _ _ _ _ _ _ _ _ _ _ _)
      as [[[[ag sl] fr] ts] g'];
    destruct (update_price _ _ _ _ _ _ _) as [P g''];
    cbn; repeat split; reflexivity.
Qed.

Lemma es_loop_matches (ts : list Z) :
  forall (e0 : EsState) (s0 : SimState),
  es_matches e0 s0 ->
  es_matches (fold_left (es_day OU_KAPPA OU_SIGMA) ts e0)
    (snd (sim_loop OU_KAPPA OU_SIGMA "bull" bull true SEED
                   None None None None None ts s0)).
Proof.
  induction ts as [|t ts IH]; intros e0 s0 H0; [exact H0|].
  cbn [fold_left sim_loop].
  pose proof (es_day_matches e0 s0 t "bull"%string H0) as H1.
  destruct (day_step OU_KAPPA OU_SIGMA "bull" bull true SEED
              None None None None None s0 t) as [r s1].
  cbn [snd] in H1. specialize (IH _ s1 H1).
  destruct (sim_loop OU_KAPPA OU_SIGMA "bull" bull true SEED
              None None None None None ts s1) as [rs s2].
  exact IH.
Qed.

Lemma es_initial_matches (stderr : list LogLine) :
  exists e0,
    es_population OU_KAPPA OU_SIGMA
    = es_agents (fold_left (es_day OU_KAPPA OU_SIGMA) days e0) /\
    es_matches e0 (initial_state SEED stderr).
Proof.
  unfold es_population, initial_state.
  destruct (create_operators 2000 (default_rng SEED)) as [agents g1].
  destruct (create_whales g1) as [whales g2].
  eexists. split; [reflexivity|].
  unfold es_matches. cbn. repeat split; reflexivity.
Qed.

(** The governance sweep analyses the core batch: the loop it runs to get a
    population is the PID run of the bull scenario with seed 42, day for
    day, so the population it scores is the one that run ends with. *)
Theorem es_population_is_bull_run (stderr : list LogLine) :
  es_population OU_KAPPA OU_SIGMA
  = st_agents (snd
      (sim_loop OU_KAPPA OU_SIGMA "bull" bull true SEED
                None None None None None days (initial_state SEED stderr))).
Proof.
  destruct (es_initial_matches stderr) as [e0 [-> H0]].
  pose proof (es_loop_matches days e0 _ H0) as Hend.
  unfold es_matches in Hend.
  destruct Hend as [_ [_ [_ [_ [_ [_ [_ [_ [_ [_ [_ [Hagents _]]]]]]]]]]]].
  exact Hagents.
Qed.

Lemma round_half_even_near (x : R) :
  IZR (round_half_even x) - 1 / 2 <= x <= IZR (round_half_even x) + 1 / 2.
Proof.
  unfold round_half_even. destruct (Int_part_bounds x) as [Hlo Hhi].
  destruct (Rlt_dec (x - IZR (Int_part x)) (1 / 2)); [lra|].
  destruct (Rlt_dec (1 / 2) (x - IZR (Int_part x)));
    [rewrite plus_IZR; lra|].
  destruct (Z.even (Int_part x)); [lra | rewrite plus_IZR; lra].
Qed.

Lemma round_half_even_mono (x y : R) :
  x <= y -> (round_half_even x <= round_half_even y)%Z.
Proof.
  intros Hxy.
  destruct (Z_le_gt_dec (round_half_even x) (round_half_even y))
    as [Hle | Hgt]; [exact Hle|].
  exfalso.
  pose proof (round_half_even_near x) as [Hx _].
  pose proof (round_half_even_near y) as [_ Hy].
  assert (Hstep : IZR (round_half_even y) + 1 <= IZR (round_half_even x)).
  { rewrite <- plus_IZR. apply IZR_le. lia. }
  assert (Heq : x = y) by lra.
  subst y. lia.
Qed.

Lemma py_round_mono (x y : R) (nd : nat) :
  x <= y -> py_round x nd <= py_round y nd.
Proof.
  intros Hxy. unfold py_round.
  assert (Hpow : 0 < 10 ^ nd) by (apply pow_lt; lra).
  apply Rmult_le_compat_r; [left; apply Rinv_0_lt_compat; exact Hpow|].
  apply IZR_le, round_half_even_mono.
  apply Rmult_le_compat_r; lra.
Qed.

Lemma sum_of_le (xs ys : list R) :
  Forall2 Rle xs ys -> sum_of xs <= sum_of ys.
Proof.
  unfold sum_of. intros Hall.
  assert (Hgen : forall a b, a <= b ->
            fold_left Rplus xs a <= fold_left Rplus ys b).
  { induction Hall as [|x y xs ys Hxy Hrest IH]; intros a b Hab.
    - exact Hab.
    - cbn [fold_left]. apply IH. lra. }
  apply Hgen. lra.
Qed.

Lemma sum_of_pos (xs : list R) :
  Forall (fun x => 0 <= x) xs -> Exists (fun x => 0 < x) xs -> 0 < sum_of xs.
Proof.
  unfold sum_of. intros Hall Hex.
  assert (Hnonneg : forall l a, Forall (fun x => 0 <= x) l ->
            a <= fold_left Rplus l a).
  { induction l as [|x l IH]; intros a Hl; [cbn; lra|].
    inversion Hl as [|? ? Hx Hl']; subst. cbn [fold_left].
    specialize (IH (a + x) Hl'). lra. }
  assert (Hgen : forall a, 0 <= a -> 0 < fold_left Rplus xs a).
  { induction Hex as [x xs Hx | x xs Hex IH]; intros a Ha;
      inversion Hall as [|? ? Hx0 Hall']; subst; cbn [fold_left].
    - pose proof (Hnonneg xs (a + x) Hall'). lra.
    - apply IH; [exact Hall' | lra]. }
  apply Hgen. lra.
Qed.

Lemma whale_power_value (f : Formula) : whale_power f = 200000000.
Proof.
  assert (Htok : py_int (TOTAL_SUPPLY * 0.20) = 200000000%Z).
  { replace (IZR TOTAL_SUPPLY * 0.20) with (IZR 200000000)
      by (unfold TOTAL_SUPPLY; lra).
    apply py_int_IZR. lia. }
  unfold whale_power. rewrite Htok.
  replace (1 + 0) with 1 by lra. destruct f as [p|].
  - unfold Rpower. rewrite ln_1, Rmult_0_r, exp_0. lra.
  - rewrite ln_1. lra.
Qed.

Lemma voting_power_sign (f : Formula) (a : Agent) :
  (0 <= stake a)%Z -> 0 <= reputation a ->
  0 <= voting_power f a /\
  ((0 < stake a)%Z -> 0 < voting_power f a) /\
  (stake a = 0%Z -> voting_power f a = 0).
Proof.
  intros Hs Hr. apply IZR_le in Hs as HsR.
  assert (Hw : 0 < match f with
                   | PowerFormula e => Rpower (1 + reputation a) e
                   | LogFormula => 1 + ln (1 + reputation a)
                   end).
  { destruct f as [e|]; [unfold Rpower; apply exp_pos|].
    pose proof (ln_mono 1 (1 + reputation a) ltac:(lra) ltac:(lra)) as Hln.
    rewrite ln_1 in Hln. lra. }
  unfold voting_power. destruct f as [e|].
  - split; [apply Rmult_le_pos; lra|]. split.
    + intros Hpos. apply IZR_lt in Hpos. apply Rmult_lt_0_compat; lra.
    + intros ->. lra.
  - split; [apply Rmult_le_pos; lra|]. split.
    + intros Hpos. apply IZR_lt in Hpos. apply Rmult_lt_0_compat; lra.
    + intros ->. lra.
Qed.

Lemma total_power_pos (f : Formula) (l : list Agent) :
  Forall (fun a => (0 <= stake a)%Z /\ 0 <= reputation a) l ->
  Exists (fun a => (0 < stake a)%Z) l ->
  0 < sum_of (map (voting_power f) l).
Proof.
  intros Hall Hex. apply sum_of_pos.
  - apply Forall_map. eapply Forall_impl; [|exact Hall].
    intros a [Hs Hr]. apply (voting_power_sign f a Hs Hr).
  - apply Exists_exists in Hex. destruct Hex as [a [Hin Hs]].
    apply Exists_exists. exists (voting_power f a).
    split; [apply in_map; exact Hin|].
    rewrite Forall_forall in Hall. destruct (Hall a Hin) as [Hs0 Hr].
    apply (voting_power_sign f a Hs0 Hr), Hs.
Qed.


Lemma total_power_mono (p q : R) (l : list Agent) :
  Forall (fun a => (0 <= stake a)%Z /\ 0 <= reputation a) l ->
  p <= q ->
  sum_of (map (voting_power (PowerFormula p)) l)
  <= sum_of (map (voting_power (PowerFormula q)) l).
Proof.
  intros Hall Hpq. apply sum_of_le.
  induction Hall as [|a l [Hs Hr] Hl IH]; cbn [map]; constructor;
    [|exact IH].
  unfold voting_power. apply Rmult_le_compat_l; [apply IZR_le; exact Hs|].
  apply Rle_Rpower; lra.
Qed.

Lemma filter_active_sign (agents : list Agent) :
  Forall (fun a => (0 <= stake a)%Z /\ 0 <= reputation a) agents ->
  Forall (fun a => (0 <= stake a)%Z /\ 0 <= reputation a)
         (filter active agents).
Proof.
  intros Hall. apply Forall_forall. intros a Ha. apply filter_In in Ha.
  rewrite Forall_forall in Hall. apply Hall, Ha.
Qed.

(** When the metrics are defined, and what the whale's share then is. *)
Lemma governance_metrics_defined (agents : list Agent) (f : Formula) :
  Forall (fun a => (0 <= stake a)%Z /\ 0 <= reputation a) agents ->
  Exists (fun a => (0 < stake a)%Z) (filter active agents) ->
  0 < sum_of (map (voting_power f) (filter active agents)) /\
  exists m,
    compute_governance_metrics agents f = Some m /\
    gm_whale_20pct_power_share m
    = py_round
        (200000000
         / (sum_of (map (voting_power f) (filter active agents)) + 200000000)
         * 100) 2 /\
    gm_n_active m = List.length (filter active agents).
Proof.
  intros Hall Hex.
  pose proof (total_power_pos f _ (filter_active_sign agents Hall) Hex)
    as Hpos.
  split; [exact Hpos|].
  unfold compute_governance_metrics.
  destruct (filter active agents) as [|a0 rest]; [inversion Hex|].
  destruct (Req_dec_T _ 0) as [Hz|_]; [lra|].
  eexists. split; [reflexivity|].
  cbn [gm_whale_20pct_power_share gm_n_active].
  rewrite !whale_power_value, !length_map. split; reflexivity.
Qed.


Lemma whale_share_order (tp tq : R) :
  0 < tp -> tp <= tq ->
  py_round (200000000 / (tq + 200000000) * 100) 2
  <= py_round (200000000 / (tp + 200000000) * 100) 2.
Proof.
  intros Hp Hle. apply py_round_mono.
  apply Rmult_le_compat_r; [lra|].
  apply Rmult_le_compat_l; [lra|].
  apply Rinv_le_contravar; lra.
Qed.

(** Weighting reputation more heavily can only dilute a holder without
    reputation: on a population whose stakes and reputations are not
    negative and in which some active operator has a positive stake, the
    metrics are defined for every exponent, and the reported power share of
    the 20% whale does not increase when the exponent does. *)
Theorem whale_share_falls_with_exponent (agents : list Agent) (p q : R) :
  Forall (fun a => (0 <= stake a)%Z /\ 0 <= reputation a) agents ->
  Exists (fun a => active a = true /\ (0 < stake a)%Z) agents ->
  p <= q ->
  exists mp mq,
    compute_governance_metrics agents (PowerFormula p) = Some mp /\
    compute_governance_metrics agents (PowerFormula q) = Some mq /\
    gm_whale_20pct_power_share mq <= gm_whale_20pct_power_share mp /\
    gm_n_active mp = gm_n_active mq.
Proof.
  intros Hall Hex Hpq.
  assert (Hex' : Exists (fun a => (0 < stake a)%Z) (filter active agents)).
  { apply Exists_exists in Hex. destruct Hex as [a [Hin [Ha Hs]]].
    apply Exists_exists. exists a. split; [|exact Hs].
    apply filter_In. split; assumption. }
  destruct (governance_metrics_defined agents (PowerFormula p) Hall Hex')
    as [Hp [mp [Hmp [Hwp Hnp]]]].
  destruct (governance_metrics_defined agents (PowerFormula q) Hall Hex')
    as [Hq [mq [Hmq [Hwq Hnq]]]].
  exists mp, mq. split; [exact Hmp|]. split; [exact Hmq|].
  split; [|congruence].
  rewrite Hwp, Hwq. apply whale_share_order; [exact Hp|].
  apply total_power_mono; [apply filter_active_sign; exact Hall | exact Hpq].
Qed.



End DriverProperties.

(** ** The wash-trading Monte Carlo *)

Section WashProperties.
Context {G : Type} `{Generator G} `{ArrayGenerator G}.

Lemma node_claim_spec (with_poc : bool) (poe : R) (nd : Node)
    (acc : WashTotals) (rng : G) :
  node_ok nd ->
  let out := node_claim with_poc poe nd acc rng in
  let nd' := fst (fst out) in
  let acc' := snd (fst out) in
  node_ok nd' /\ node_is_merc nd' = node_is_merc nd /\
  node_stake nd' <= node_stake nd /\
  total_slashed acc' = total_slashed acc + (node_stake nd - node_stake nd') /\
  honest_earnings acc'
    = honest_earnings acc + (if node_is_merc nd then 0 else poe) /\
  (with_poc = false -> node_stake nd' = node_stake nd).
Proof.
  intros [Hact [Hstake Hhonest]]. cbv zeta. unfold node_claim.
  rewrite Hact. cbn [negb].
  assert (Hsame : node_ok nd) by (split; [exact Hact | split; assumption]).
  destruct (node_is_merc nd) eqn:Hmerc.
  - destruct (rng_random rng) as [r g1].
    destruct (Rlt_dec r (node_fraud_prob nd)).
    + destruct with_poc.
      * destruct (rng_random g1) as [r2 g2].
        destruct (Rlt_dec r2 CATCH_RATE); cbn [fst snd].
        -- unfold SLASH_FRACTION.
           destruct (Rle_dec (node_stake nd - node_stake nd * 0.50) 0)
             as [Hle|_]; [exfalso; lra|].
           cbn. unfold node_ok. cbn.
           repeat split; try lra; try reflexivity; try discriminate.
        -- cbn. rewrite Hmerc.
           repeat split; try apply Hsame; try lra; try reflexivity.
      * cbn. rewrite Hmerc.
        repeat split; try apply Hsame; try lra; try reflexivity.
    + cbn. rewrite Hmerc.
      repeat split; try apply Hsame; try lra; try reflexivity.
  - cbn. rewrite Hmerc.
    repeat split; try apply Hsame; try lra; try reflexivity.
Qed.

Lemma claims_loop_spec (with_poc : bool) (poe : R) (nodes : list Node) :
  forall (acc : WashTotals) (rng : G),
  Forall node_ok nodes ->
  let out := claims_loop with_poc poe nodes acc rng in
  let nodes' := fst (fst out) in
  let acc' := snd (fst out) in
  Forall node_ok nodes' /\
  map node_is_merc nodes' = map node_is_merc nodes /\
  total_slashed acc' - stake_deficit nodes'
    = total_slashed acc - stake_deficit nodes /\
  honest_earnings acc'
    = honest_earnings acc + poe * INR (count_honest_nodes nodes) /\
  (with_poc = false -> total_slashed acc' = total_slashed acc).
Proof.
  induction nodes as [|nd rest IH]; intros acc rng Hall; cbv zeta.
  - cbn. unfold count_honest_nodes. cbn.
    repeat split; try constructor; try lra; reflexivity.
  - inversion Hall as [|? ? Hnd Hrest]; subst. cbn [claims_loop].
    pose proof (node_claim_spec with_poc poe nd acc rng Hnd) as Hstep.
    cbv zeta in Hstep.
    destruct (node_claim with_poc poe nd acc rng) as [[nd1 acc1] g1].
    cbn [fst snd] in Hstep.
    destruct Hstep as [Hok [Hmerc [Hle [Hsl [Hearn Hnopoc]]]]].
    specialize (IH acc1 g1 Hrest). cbv zeta in IH.
    destruct (claims_loop with_poc poe rest acc1 g1) as [[rest1 acc2] g2].
    cbn [fst snd] in *.
    destruct IH as [IHok [IHmerc [IHsl [IHearn IHnopoc]]]].
    split; [constructor; assumption|].
    split; [cbn [map]; congruence|].
    split; [cbn [stake_deficit fold_right];
            fold (stake_deficit rest1); fold (stake_deficit rest); lra|].
    split.
    + rewrite IHearn, Hearn. unfold count_honest_nodes. cbn [filter].
      destruct (node_is_merc nd); cbn [negb length].
      * lra.
      * rewrite S_INR. lra.
    + intros Hoff. rewrite (IHnopoc Hoff), Hsl, (Hnopoc Hoff). lra.
Qed.

Lemma filter_all_active (nodes : list Node) :
  Forall node_ok nodes -> filter node_active nodes = nodes.
Proof.
  induction 1 as [|nd rest [Hact _] Hrest IH]; [reflexivity|].
  cbn [filter]. rewrite Hact, IH. reflexivity.
Qed.

Lemma count_honest_flags (l1 l2 : list Node) :
  map node_is_merc l1 = map node_is_merc l2 ->
  count_honest_nodes l1 = count_honest_nodes l2 /\
  List.length (filter node_is_merc l1) = List.length (filter node_is_merc l2)
  /\ List.length l1 = List.length l2.
Proof.
  unfold count_honest_nodes. revert l2.
  induction l1 as [|a l1 IH]; intros [|b l2] Heq; try discriminate;
    [repeat split; reflexivity|].
  cbn [map] in Heq. injection Heq as Hab Hrest.
  destruct (IH l2 Hrest) as [H1 [H2 H3]].
  cbn [filter]. rewrite Hab.
  destruct (node_is_merc b); cbn [negb length]; repeat split; congruence.
Qed.

Lemma days_loop_spec (with_poc : bool) (days_left : nat) :
  forall (nodes : list Node) (acc : WashTotals) (rng : G),
  Forall node_ok nodes -> nodes <> [] ->
  let out := days_loop with_poc days_left nodes acc rng in
  let nodes' := fst (fst out) in
  let acc' := snd (fst out) in
  Forall node_ok nodes' /\
  map node_is_merc nodes' = map node_is_merc nodes /\
  total_slashed acc' - stake_deficit nodes'
    = total_slashed acc - stake_deficit nodes /\
  honest_earnings acc'
    = honest_earnings acc
      + INR days_left
        * (DAILY_EMISSION / INR (List.length nodes)
           * INR (count_honest_nodes nodes)) /\
  (with_poc = false -> total_slashed acc' = total_slashed acc).
Proof.
  induction days_left as [|d IH]; intros nodes acc rng Hall Hne; cbv zeta.
  - cbn. repeat split; try assumption; try lra; reflexivity.
  - cbn [days_loop]. rewrite (filter_all_active nodes Hall).
    destruct (List.length nodes =? 0)%nat eqn:Hlen.
    { apply Nat.eqb_eq in Hlen. destruct nodes; [congruence | discriminate]. }
    pose proof (claims_loop_spec with_poc
                  (DAILY_EMISSION / INR (List.length nodes)) nodes acc rng
                  Hall) as Hday.
    cbv zeta in Hday.
    destruct (claims_loop with_poc _ nodes acc rng) as [[nodes1 acc1] g1].
    cbn [fst snd] in Hday.
    destruct Hday as [Hok [Hmerc [Hsl [Hearn Hnopoc]]]].
    destruct (count_honest_flags nodes1 nodes Hmerc) as [Hc [_ Hl]].
    assert (Hne1 : nodes1 <> []).
    { intros ->. destruct nodes; [congruence | discriminate]. }
    specialize (IH nodes1 acc1 g1 Hok Hne1). cbv zeta in IH.
    destruct (days_loop with_poc d nodes1 acc1 g1) as [[nodes2 acc2] g2].
    cbn [fst snd] in *.
    destruct IH as [IHok [IHmerc [IHsl [IHearn IHnopoc]]]].
    split; [exact IHok|]. split; [congruence|]. split; [lra|]. split.
    + rewrite IHearn, Hearn, Hc, Hl, S_INR. lra.
    + intros Hoff. rewrite (IHnopoc Hoff), (Hnopoc Hoff). reflexivity.
Qed.

Lemma mercenary_count : py_int (INR N_NODES * MERCENARY_FRACTION) = 150%Z.
Proof.
  unfold N_NODES, MERCENARY_FRACTION.
  replace (INR 1000 * 0.15) with (IZR 150).
  - apply py_int_IZR. lia.
  - rewrite INR_IZR_INZ. change (Z.of_nat 1000) with 1000%Z. lra.
Qed.

Lemma combine_flags (flags : list bool) :
  forall (u : list R),
  List.length u = List.length flags ->
  map node_is_merc
    (map (fun mu : bool * R =>
            mkNode INITIAL_STAKE (fst mu) true
                   (if fst mu then snd mu else 0.0))
         (combine flags u)) = flags.
Proof.
  induction flags as [|b flags IH]; intros [|x u] Hlen; try discriminate;
    [reflexivity|].
  cbn. f_equal. apply IH. cbn in Hlen. lia.
Qed.

Lemma initial_nodes_spec (rng : G) :
  let nodes := fst (initial_nodes rng) in
  Forall node_ok nodes /\ List.length nodes = 1000%nat /\
  List.length (filter node_is_merc nodes) = 150%nat /\
  stake_deficit nodes = 0.
Proof.
  cbv zeta. unfold initial_nodes. rewrite mercenary_count.
  change (Z.to_nat 150) with 150%nat. unfold N_NODES.
  change (1000 - 150)%nat with 850%nat.
  pose proof (rng_shuffle_length (repeat true 150 ++ repeat false 850) rng)
    as Hlen.
  pose proof (rng_shuffle_count (repeat true 150 ++ repeat false 850) rng)
    as Hcount.
  destruct (rng_shuffle (repeat true 150 ++ repeat false 850) rng)
    as [flags g1].
  pose proof (rng_uniform_n_length 0.1 0.3 1000 g1) as Hu.
  destruct (rng_uniform_n 0.1 0.3 1000 g1) as [u g2].
  cbn [fst] in *.
  assert (Hflags : List.length flags = 1000%nat).
  { rewrite Hlen, length_app, !repeat_length. reflexivity. }
  assert (Htrue : List.length (filter (fun b => b) flags) = 150%nat).
  { rewrite Hcount, filter_app, length_app.
    assert (H1 : forall n, filter (fun b : bool => b) (repeat true n)
                           = repeat true n)
      by (induction n as [|n IHn]; [reflexivity | cbn; f_equal; exact IHn]).
    assert (H2 : forall n, filter (fun b : bool => b) (repeat false n) = [])
      by (induction n as [|n IHn]; [reflexivity | cbn; exact IHn]).
    rewrite H1, H2, repeat_length. reflexivity. }
  pose proof (combine_flags flags u ltac:(congruence)) as Hmap.
  set (nodes := map _ (combine flags u)) in *.
  assert (Hok : Forall (fun nd => node_ok nd /\ node_stake nd = 20000) nodes).
  { unfold nodes. apply Forall_map, Forall_forall. intros [b x] _.
    unfold node_ok, INITIAL_STAKE. cbn. repeat split; try lra. }
  split; [eapply Forall_impl; [|exact Hok]; intros nd [Hnd _]; exact Hnd|].
  split; [unfold nodes; rewrite length_map, length_combine; lia|].
  split.
  - rewrite <- Htrue, <- Hmap. clear.
    induction nodes as [|nd rest IH]; [reflexivity|].
    cbn [map filter]. destruct (node_is_merc nd); cbn [length]; lia.
  - clear -Hok. induction Hok as [|nd rest [_ Hs] Hrest IH]; [reflexivity|].
    cbn [stake_deficit fold_right]. fold (stake_deficit rest). lra.
Qed.

Lemma stake_deficit_bound (nodes : list Node) :
  Forall node_ok nodes ->
  0 <= stake_deficit nodes
    <= 20000 * INR (List.length (filter node_is_merc nodes)).
Proof.
  induction 1 as [|nd rest [_ [Hs Hh]] Hrest IH]; [cbn; lra|].
  cbn [stake_deficit fold_right filter]. fold (stake_deficit rest).
  destruct (node_is_merc nd); cbn [length].
  - rewrite S_INR. lra.
  - rewrite (Hh eq_refl). lra.
Qed.

Lemma filter_complement_length {A : Type} (f : A -> bool) (l : list A) :
  (List.length (filter f l)
   + List.length (filter (fun x => negb (f x)) l))%nat = List.length l.
Proof.
  induction l as [|x l IH]; [reflexivity|].
  cbn [filter]. destruct (f x); cbn [negb length]; lia.
Qed.

Lemma py_round_zero (nd : nat) : py_round 0 nd = 0.
Proof.
  unfold py_round. rewrite Rmult_0_l.
  assert (Hz : round_half_even 0 = 0%Z).
  { apply Z.le_antisymm.
    - apply (round_half_even_le 0 0). lra.
    - apply (round_half_even_ge 0 0). lra. }
  rewrite Hz. assert (0 < 10 ^ nd) by (apply pow_lt; lra).
  unfold Rdiv. lra.
Qed.

Lemma wash_trading_outcome (seed : Z) (with_poc : bool) :
  let r := run_wash_trading_sim seed with_poc in
  surviving_mercs r = 150%nat /\ surviving_honest r = 850%nat /\
  total_active_final r = 1000%nat /\
  honest_yield_impact_pct r = 0 /\
  0 <= wr_total_slashed r <= 3000000 /\
  (with_poc = false -> wr_total_slashed r = 0).
Proof.
  cbv zeta. unfold run_wash_trading_sim. rewrite mercenary_count.
  change (Z.to_nat 150) with 150%nat. unfold N_NODES.
  change (1000 - 150)%nat with 850%nat.
  pose proof (initial_nodes_spec (default_rng seed)) as Hinit.
  cbv zeta in Hinit.
  destruct (initial_nodes (default_rng seed)) as [nodes g0].
  cbn [fst] in Hinit. destruct Hinit as [Hok [Hlen [Hmercs Hdef]]].
  assert (Hne : nodes <> []) by (intros ->; discriminate Hlen).
  pose proof (days_loop_spec with_poc DAYS nodes (mkTotals 0 0 0 0) g0
                Hok Hne) as Hrun.
  cbv zeta in Hrun.
  destruct (days_loop with_poc DAYS nodes (mkTotals 0 0 0 0) g0)
    as [[nodes1 acc1] g1].
  cbn [fst snd total_slashed honest_earnings] in Hrun.
  destruct Hrun as [Hok1 [Hflags [Hsl [Hearn Hnopoc]]]].
  destruct (count_honest_flags nodes1 nodes Hflags) as [Hc [Hm Hl]].
  pose proof (filter_all_active nodes1 Hok1) as Hall.
  cbn [surviving_mercs surviving_honest total_active_final
       honest_yield_impact_pct wr_total_slashed].
  assert (Hmerc_active :
            filter (fun nd => node_is_merc nd && node_active nd) nodes1
            = filter node_is_merc nodes1).
  { apply filter_ext_in. intros nd Hin. rewrite Forall_forall in Hok1.
    destruct (Hok1 nd Hin) as [-> _]. apply andb_true_r. }
  assert (Hhonest_active :
            filter (fun nd => negb (node_is_merc nd) && node_active nd) nodes1
            = filter (fun nd => negb (node_is_merc nd)) nodes1).
  { apply filter_ext_in. intros nd Hin. rewrite Forall_forall in Hok1.
    destruct (Hok1 nd Hin) as [-> _]. apply andb_true_r. }
  pose proof (filter_complement_length node_is_merc nodes1) as Hcompl.
  assert (Hhonest : count_honest_nodes nodes = 850%nat).
  { rewrite <- Hc. unfold count_honest_nodes. lia. }
  split; [rewrite Hmerc_active; lia|].
  split; [rewrite Hhonest_active; lia|].
  split; [rewrite Hall; lia|].
  split.
  - rewrite Hearn, Hlen, Hhonest. unfold DAYS, DAILY_EMISSION.
    replace (INR 365) with 365 by (rewrite INR_IZR_INZ; reflexivity).
    replace (INR 1000) with 1000 by (rewrite INR_IZR_INZ; reflexivity).
    replace (INR 850) with 850 by (rewrite INR_IZR_INZ; reflexivity).
    match goal with
    | |- py_round (?x / ?y * 100) 2 = 0 =>
        replace x with 0 by (unfold Rdiv; lra)
    end.
    unfold Rdiv at 1. rewrite !Rmult_0_l. apply py_round_zero.
  - pose proof (stake_deficit_bound nodes1 Hok1) as Hbound.
    rewrite Hm, Hmercs in Hbound.
    replace (INR 150) with 150 in Hbound
      by (rewrite INR_IZR_INZ; reflexivity).
    split.
    + apply (py_round_0_bounds (total_slashed acc1) 0 3000000). lra.
    + intros Hoff. rewrite (Hnopoc Hoff). apply py_round_zero.
Qed.


(** The simulation never takes a node out of service: a caught mercenary
    loses half of its stake, which never brings it to zero, so every run
    ends with exactly 150 surviving mercenaries, 850 surviving honest nodes
    and 1000 active nodes, with or without proof of coverage.  With the
    emission shared among a constant 1000 nodes, the honest nodes earn
    exactly their expected share and the reported yield impact is 0.  The
    slashed total lies between 0 and 150 initial stakes, and is 0 without
    proof of coverage. *)
Theorem wash_trading_eliminates_nobody (seed : Z) (with_poc : bool) :
  let r := run_wash_trading_sim seed with_poc in
  surviving_mercs r = 150%nat /\ surviving_honest r = 850%nat /\
  total_active_final r = 1000%nat /\
  honest_yield_impact_pct r = 0 /\
  0 <= wr_total_slashed r <= 3000000 /\
  wr_total_slashed (run_wash_trading_sim seed false) = 0.
Proof.
  cbv zeta.
  destruct (wash_trading_outcome seed with_poc)
    as [Hm [Hh [Ha [Hy [Hs _]]]]].
  destruct (wash_trading_outcome seed false) as [_ [_ [_ [_ [_ Hoff]]]]].
  repeat (split; [assumption|]). exact (Hoff eq_refl).
Qed.

End WashProperties.

(** ** The further statements at concrete inputs

    As before, the generator draws the mean for every normal variate and
    0.99 for every uniform one. *)

(** The seeded population of a run: 2000 operators, 800 of them
    high-commitment and 300 mercenary. *)
Lemma create_operators_population_witness :
  List.length (fst (create_operators (H := fixed_generator 0 0.99) 2000 O))
    = 2000%nat /\
  count_type high_commitment
    (fst (create_operators (H := fixed_generator 0 0.99) 2000 O)) = 800%nat /\
  count_type mercenary
    (fst (create_operators (H := fixed_generator 0 0.99) 2000 O)) = 300%nat.
Proof.
  destruct (create_operators_population (H := fixed_generator 0 0.99) 2000 O)
    as [Hlen [_ [Hhc [Hm _]]]]; [lia|].
  split; [exact Hlen|]. split; [exact Hhc | exact Hm].
Defined.

(** Reputation and seasons after 100 days of a PID bear run: nobody is a
    veteran yet. *)
Lemma reputation_and_seasons_bounded_witness :
  Forall (fun a => 0 <= reputation a <= 5 /\ (seasons_active a < 2)%Z)
    (st_agents (snd
       (sim_loop (H := fixed_generator 0 0.99) 2.8 0.049
          "bear" bear true 42 None None None None None
          (firstn 100 days)
          (initial_state (H := fixed_generator 0 0.99) 42 [])))).
Proof.
  pose proof (reputation_and_seasons_bounded (H := fixed_generator 0 0.99)
                2.8 0.049 "bear" bear true 42 None None None None None
                [] 100) as Hthm.
  cbv zeta in Hthm. eapply Forall_impl; [|exact Hthm].
  intros a [Hrep [_ [_ Hvet]]]. split; [exact Hrep|]. apply Hvet. lia.
Defined.

(** The first two rows of a PID bear run. *)
Lemma network_growth_capped_witness :
  exists r r',
    nth_error
      (fst (run_simulation (H := fixed_generator 0 0.99) 2.8 0.049
              "bear" bear true 42 None None None None None [])) 0
      = Some r /\
    nth_error
      (fst (run_simulation (H := fixed_generator 0 0.99) 2.8 0.049
              "bear" bear true 42 None None None None None [])) 1
      = Some r' /\
    (rec_N r' <= rec_N r + 30)%Z.
Proof.
  apply (network_growth_capped (H := fixed_generator 0 0.99) 2.8 0.049
           "bear" bear true 42 None None None None None [] 0).
  lia.
Defined.


(** The treasury after a year of a regulatory run with the default
    penalties. *)
Lemma token_flows_bounded_witness :
  150000000 * 0.99 ^ 365
    <= st_T (snd
         (sim_loop (H := fixed_generator 0 0.99) 2.8 0.049
            "regulatory" regulatory true 42 None None None None None
            (firstn 365 days)
            (initial_state (H := fixed_generator 0 0.99) 42 []))).
Proof.
  destruct (token_flows_bounded (H := fixed_generator 0 0.99) 2.8 0.049
              "regulatory" regulatory true 42 None None None None None
              [] 365) as [_ [_ [HT _]]].
  - cbn [or_default]. unfold SLASH_DOWNTIME. lra.
  - cbn [or_default]. unfold SLASH_FRAUD. lra.
  - exact HT.
Defined.

(** Day 14 with the default gains: 12000 operators get no more than 5000. *)
Lemma pid_emission_negative_feedback_witness :
  exists E1 E2,
    fst (fst (pid_emission 5000 0 0 14 None None None)) = Some E1 /\
    fst (fst (pid_emission 12000 0 0 14 None None None)) = Some E2 /\
    E2 <= E1.
Proof.
  apply (pid_emission_negative_feedback 5000 12000 0 0 14 None None None).
  - reflexivity.
  - cbn [or_default]. unfold KP_NORM. lra.
  - cbn [or_default]. unfold KI_NORM. lra.
  - cbn [or_default]. unfold KD_NORM. lra.
  - lia.
Defined.

(** The calibrated reversion speed, no drift, and a generator that draws
    the mean. *)
Lemma update_price_mean_reverts_witness :
  Rmin (Rmax 0.10 0.001)
       (Rmax 0.01 (Rmin 10.0 (500 * 365 / Rmax 200000000 1 * 1000)))
    <= fst (update_price (H := fixed_generator 0 0.99) 2.8 0.049
              0.10 500 200000000 0 O)
    <= Rmax (Rmax 0.10 0.001)
            (Rmax 0.01 (Rmin 10.0 (500 * 365 / Rmax 200000000 1 * 1000))).
Proof.
  apply (update_price_mean_reverts (H := fixed_generator 0 0.99) 2.8 0.049
           0.10 500 200000000 0 O).
  - lra.
  - cbn [rng_normal fixed_generator fst]. lra.
Defined.

(** Day 400 of the bear scenario (its contraction starts after day 360)
    and day 360 itself. *)
Lemma shocks_never_raise_demand_witness :
  fst (compute_demand (H := fixed_generator 0 0.99) 400 2000 0.10 bear O 1)
    <= fst (compute_demand (H := fixed_generator 0 0.99) 400 2000 0.10
              (without_shock bear) O 1) /\
  compute_demand (H := fixed_generator 0 0.99) 360 2000 0.10 bear O 1
    = compute_demand (H := fixed_generator 0 0.99) 360 2000 0.10
        (without_shock bear) O 1.
Proof.
  split.
  - apply (shocks_never_raise_demand (H := fixed_generator 0 0.99)
             400 2000 0.10 bear O 1); [lia | lra].
  - apply (shocks_never_raise_demand (H := fixed_generator 0 0.99)
             360 2000 0.10 bear O 1); [lia | lra |].
    vm_compute. discriminate.
Defined.

(** Day 1 of a PID bear run. *)
Lemma pid_emission_held_between_evaluations_witness :
  exists r r',
    nth_error
      (fst (run_simulation (H := fixed_generator 0 0.99) 2.8 0.049
              "bear" bear true 42 None None None None None [])) 0
      = Some r' /\
    nth_error
      (fst (run_simulation (H := fixed_generator 0 0.99) 2.8 0.049
              "bear" bear true 42 None None None None None [])) 1
      = Some r /\
    rec_E r = rec_E r'.
Proof.
  destruct (pid_emission_held_between_evaluations
              (H := fixed_generator 0 0.99) 2.8 0.049
              "bear" bear true 42 None None None None None [] 1)
    as [r [r' [H0 [H1 [HE _]]]]].
  - reflexivity.
  - lia.
  - discriminate.
  - exists r, r'. split; [exact H0|]. split; [exact H1 | exact HE].
Defined.

(** Two seeds that order the Ki values alike, and one seed whose five runs
    all ended with 7 operators. *)
Lemma unanimous_rankings_structural_witness :
  rank_consistency_verdict [[5; 4; 3; 2; 1]; [50; 40; 30; 20; 10]]%Z
    = STRUCTURAL /\
  rank_consistency_verdict [[7; 7; 7; 7; 7]]%Z = STRUCTURAL.
Proof.
  split.
  - destruct (unanimous_rankings_structural
                [[5; 4; 3; 2; 1]; [50; 40; 30; 20; 10]]%Z) as [Hsame _];
      [discriminate|].
    apply Hsame.
    exists (map (rank_desc [5; 4; 3; 2; 1]%Z) [5; 4; 3; 2; 1]%Z).
    intros row [<- | [<- | []]]; reflexivity.
  - destruct (unanimous_rankings_structural [[7; 7; 7; 7; 7]]%Z)
      as [_ Hties]; [discriminate|].
    apply Hties. intros row [<- | []]. exists 7%Z. reflexivity.
Defined.

(** The first operator of the seeded population, over the whole horizon of
    a competitor run. *)
Lemma operator_traits_fixed_witness :
  exists a a',
    nth_error
      (st_agents (snd
         (sim_loop (H := fixed_generator 0 0.99) 2.8 0.049
            "competitor" competitor true 42 None None None None None
            (firstn 0 days)
            (initial_state (H := fixed_generator 0 0.99) 42 [])))) 0
      = Some a /\
    nth_error
      (st_agents (snd
         (sim_loop (H := fixed_generator 0 0.99) 2.8 0.049
            "competitor" competitor true 42 None None None None None
            (firstn 1825 days)
            (initial_state (H := fixed_generator 0 0.99) 42 [])))) 0
      = Some a' /\
    same_traits a a'.
Proof.
  destruct (nth_error
    (st_agents (snd
       (sim_loop (H := fixed_generator 0 0.99) 2.8 0.049
          "competitor" competitor true 42 None None None None None
          (firstn 0 days)
          (initial_state (H := fixed_generator 0 0.99) 42 [])))) 0)
    as [a|] eqn:Ha.
  - destruct (operator_traits_fixed (H := fixed_generator 0 0.99) 2.8 0.049
                "competitor" competitor true 42 None None None None None
                [] 0 1825 ltac:(lia) 0%nat a Ha) as [a' [Ha' [Htr _]]].
    exists a, a'. split; [reflexivity|]. split; [exact Ha' | exact Htr].
  - exfalso. apply nth_error_None in Ha. cbn [firstn sim_loop snd] in Ha.
    destruct (initial_count (H := fixed_generator 0 0.99) 42 []) as [Hc _].
    pose proof (count_active_le_length
                  (st_agents (initial_state (H := fixed_generator 0 0.99)
                                42 []))) as Hle.
    lia.
Defined.



(** Seed 1007. *)
Lemma ki_harness_repeats_ensemble_witness :
  exists n rows row,
    nth_error
      (fst (ki_sweep (H := fixed_generator 0 0.99) 2.8 0.049 ki_cases 0 []))
      67 = Some (0.15, 1007%Z, n) /\
    fst (run_ensemble (H := fixed_generator 0 0.99) 2.8 0.049 []) = Some rows /\
    nth_error rows 67 = Some row /\
    ens_final_N row = n.
Proof.
  destruct (ki_harness_repeats_ensemble (H := fixed_generator 0 0.99)
              2.8 0.049 [] [] 7)
    as [n [rows [row [Hki [Hrows [Hrow [_ [_ [_ Hn]]]]]]]]]; [lia|].
  exists n, rows, row.
  split; [exact Hki|]. split; [exact Hrows|]. split; [exact Hrow | exact Hn].
Defined.

(** The bear rows of the gain sweep at the default gains. *)
Lemma sensitivity_sweep_table_witness :
  exists rows a b c,
    fst (sensitivity_sweep (H := fixed_generator 0 0.99) 2.8 0.049 [])
      = Some rows /\
    nth_error rows 9 = Some a /\ nth_error rows 29 = Some b /\
    nth_error rows 49 = Some c /\
    sw_scenario a = "bear"%string /\
    same_outcome a b /\ same_outcome b c.
Proof.
  destruct (sensitivity_sweep_table (H := fixed_generator 0 0.99) 2.8 0.049 [])
    as [rows [Hrows [_ [_ Hsame]]]].
  destruct (Hsame 1%nat "bear"%string bear eq_refl)
    as [a [b [c [final [Ha [Hb [Hc [Hname [Hab [Hbc _]]]]]]]]]].
  exists rows, a, b, c.
  split; [exact Hrows|]. split; [exact Ha|]. split; [exact Hb|].
  split; [exact Hc|]. split; [exact Hname|]. split; [exact Hab | exact Hbc].
Defined.

(** One casual operator with 15000 tokens at stake, exponents 0.5 and 3. *)
Lemma whale_share_falls_with_exponent_witness :
  exists mp mq,
    compute_governance_metrics [sample_operator] (PowerFormula 0.5) = Some mp /\
    compute_governance_metrics [sample_operator] (PowerFormula 3) = Some mq /\
    gm_whale_20pct_power_share mq <= gm_whale_20pct_power_share mp /\
    gm_n_active mp = gm_n_active mq.
Proof.
  apply (whale_share_falls_with_exponent [sample_operator] 0.5 3).
  - constructor; [|constructor]. split; [cbn; lia | cbn; lra].
  - constructor. split; [reflexivity | cbn; lia].
  - lra.
Defined.
